(** * Migration of deprecated experiment logs: a shallow embedding

    This development embeds [misc/update_deprecated_exps.py] and checks the
    properties its specification states about it.  The script has four
    functions:

    - [parse_tboard_files]: decodes one tensorboard event file into text rows;
    - [modernize_exp_dir]: pipeline A, copies config and model, generates the
      log from the event file and re-runs the evaluation;
    - [parse_old_log]: trims a legacy text log at the planned final checkpoint;
    - [standardize_exp_dir]: pipeline B, backs the legacy log up, regenerates
      it with [parse_old_log] and re-runs the evaluation.

    Python values are modelled as the script sees them: a decoded protobuf
    record is a dictionary whose keys may be absent (option fields), integers
    are [Z], strings are [string], the file system is a finite map from path
    to content, and every call either returns or stops with an exception
    while the side effects made so far persist. *)

From Stdlib Require Import ZArith String Ascii List DecimalString.
From stdpp Require Import gmap strings list fin_maps.

Local Open Scope Z_scope.
Local Open Scope string_scope.

(** ** Python built-ins *)

(** [str(n)] / [f"{n}"] for an integer. *)
Definition str_of_int (z : Z) : string := NilZero.string_of_int (Z.to_int z).

(** [needle in hay] on strings: [needle] occurs as a substring of [hay]. *)
Fixpoint str_in (needle hay : string) : bool :=
  String.prefix needle hay ||
  match hay with
  | EmptyString => false
  | String _ rest => str_in needle rest
  end.

(** [sep.join(parts)]. *)
Definition str_join (sep : string) (parts : list string) : string :=
  String.concat sep parts.

(** [sum(bs)] for a list of booleans. *)
Fixpoint sum_bools (bs : list bool) : Z :=
  match bs with
  | [] => 0
  | b :: rest => (if b then 1 else 0) + sum_bools rest
  end.

(** [np.where(bs)[0]]: the indices of the true entries, counted from [i]. *)
Fixpoint where_from (i : nat) (bs : list bool) : list nat :=
  match bs with
  | [] => []
  | b :: rest => if b then i :: where_from (S i) rest else where_from (S i) rest
  end.

Definition where_ (bs : list bool) : list nat := where_from 0 bs.

(** [s.rpartition(c)] when [c] occurs in [s]: the text before and after the
    last occurrence of the character [c]. *)
Fixpoint rsplit1 (c : ascii) (s : string) : option (string * string) :=
  match s with
  | EmptyString => None
  | String a rest =>
      match rsplit1 c rest with
      | Some (pre, post) => Some (String a pre, post)
      | None => if Ascii.eqb a c then Some (EmptyString, rest) else None
      end
  end.

(** [s.split("/")[-1]]: the text after the last slash. *)
Definition split_last (s : string) : string :=
  match rsplit1 "/" s with
  | Some (_, post) => post
  | None => s
  end.

(** ** [pathlib]

    A path is the string [str(path)].  The operations are those of [pathlib]
    on plain paths (components without empty, dot or absolute parts, which
    [pathlib] would normalise). *)

(** [str(Path(p) / child)] *)
Definition path_join (p child : string) : string := p +:+ "/" +:+ child.

Infix "//" := path_join (at level 40, left associativity).

(** [Path(p).parent] *)
Definition path_parent (p : string) : string :=
  match rsplit1 "/" p with
  | None => "."
  | Some (EmptyString, _) => "/"
  | Some (pre, _) => pre
  end.

(** [Path(p).name]: the last component; the path ["."] has none. *)
Definition path_name (p : string) : string :=
  if String.eqb p "." then "" else split_last p.

(** [Path(p).stem]: the name without its last suffix; a leading or a
    trailing dot is no suffix. *)
Definition path_stem (p : string) : string :=
  let n := path_name p in
  match rsplit1 "." n with
  | Some (String a pre, String b post) => String a pre
  | _ => n
  end.

(** [Path(p).parents] with [p] itself in front; the chain stops changing at
    the root or at ["."]. *)
Fixpoint path_chain (fuel : nat) (p : string) : list string :=
  match fuel with
  | O => []
  | S fuel' => p :: path_chain fuel' (path_parent p)
  end.

(** The ways a call stops without returning: the Python exceptions the script
    and the library calls it makes can raise, and the [ipdb.set_trace()]
    breakpoint, which hands control to an interactive debugger. *)
Inductive abort : Type :=
  | AssertionError (msg : string)
  | KeyError (key : string)
  | IndexError
  | FileNotFoundError (path : string)
  | SameFileError (path : string)
  | FileExistsError (path : string)
  | IsADirectoryError (path : string)
  | NotADirectoryError (path : string)
  | ValueError
  | DataLossError (msg : string)
  | IpdbSetTrace.

Inductive outcome (A : Type) : Type :=
  | Ok (a : A)
  | Raise (e : abort).

Arguments Ok {A} a.
Arguments Raise {A} e.

Definition is_ok {A} (o : outcome A) : bool :=
  match o with Ok _ => true | Raise _ => false end.

(** ** What the script takes from libraries

    The formatting of a float, the rendering of a wall-clock time and the
    splitting of a file into lines are done by the Python runtime; they are
    the same in every statement below, so they are kept abstract. *)
Class Externals : Type := {
  (** the float stored in [wall_time] *)
  wall_time_t : Type;
  (** [time.strftime('%Y-%m-%d:%Hh%Mm%Ss', time.gmtime(t))] *)
  strftime_gmtime : wall_time_t → string;
  (** the float stored in [simple_value] *)
  simple_value_t : Type;
  (** [f"{v}"] *)
  format_float : simple_value_t → string;
  (** the payload stored under [image] *)
  image_t : Type;
  (** what a file holds *)
  content : Type;
  (** [f.read().splitlines()] *)
  splitlines : content → list string
}.

Section Script.
Context `{Ext : Externals}.

(** ** Decoded event records

    [protobuf_to_dict] returns nested dictionaries; a key the script looks up
    may be missing, so each one is an option.  The dictionary has a key for
    every field of the record that is set.  [Event] is a proto3 message, so
    a plain number at its default value is not set: a record written at
    step 0 has no [step] key (see [dict_step] below).  The statements about
    arbitrary dictionaries hold for those of the records in particular. *)
Record Value : Type := {
  tag : option string;
  simple_value : option simple_value_t;
  image : option image_t
}.

Record Summary : Type := {
  value : option (list Value)
}.

Record Event : Type := {
  wall_time : option wall_time_t;
  step : option Z;
  summary : option Summary
}.

(** One [events.out.tfevents.*] file as [tf.train.summary_iterator] reads it:
    the records it yields, then either the end of the file ([None]) or a
    [DataLossError] carrying a message. *)
Record EventFile : Type := {
  name : string;
  records : list Event;
  data_loss : option string
}.

(** ** The world the script runs in *)

Record EvalArgs : Type := {
  arg_config : string;
  arg_device : string;
  arg_mini_eval : Z;
  arg_resume : string
}.

(** Calls whose effect lies outside the script, in the order they are made. *)
Inductive effect : Type :=
  | Printed (line : string)
  | CopyFile (src dst : string)
  | Unlink (path : string)
  | SetupLogging (save_dir : string)
  | LoggerInfo (logger row : string)
  | Evaluation (args : EvalArgs) (logger : string).

(** [files] maps the path of every file the script can open and read as
    text to what it holds; it changes with the script's own copies and
    deletions only.  What [setup_logging], the logger and [evaluation] write
    (the new [info.log] among it) is their business: their calls are
    recorded in [trace] and their files are not in [files]. *)
Record World : Type := {
  files : gmap string content;
  dirs : gset string;
  (** [list(Path(d).glob("events.out.tfevents.*"))], already decoded *)
  tfevents : string → list EventFile;
  trace : list effect
}.

(** State and exception monad: the world persists when a call raises. *)
Definition M (A : Type) : Type := World → World * outcome A.

Definition ret {A} (a : A) : M A := fun w => (w, Ok a).

Definition raise {A} (e : abort) : M A := fun w => (w, Raise e).

Definition bind {A B} (k : A → M B) (m : M A) : M B :=
  fun w =>
    match m w with
    | (w', Ok a) => k a w'
    | (w', Raise e) => (w', Raise e)
    end.

#[global] Instance M_ret : MRet M := @ret.
#[global] Instance M_bind : MBind M := @bind.

Definition emit (e : effect) : M unit :=
  fun w => ({| files := files w; dirs := dirs w; tfevents := tfevents w;
               trace := (trace w ++ [e])%list |}, Ok tt).


Definition print (line : string) : M unit := emit (Printed line).

(** ** [parse_tboard_files] *)

(** [f"{x['tag']}: {x['simple_value']}"] *)
Definition format_value (x : Value) : outcome string :=
  match tag x with
  | None => Raise (KeyError "tag")
  | Some t =>
      match simple_value x with
      | None => Raise (KeyError "simple_value")
      | Some v => Ok (t +:+ ": " +:+ format_float v)
      end
  end.

(** [[f"..." for x in value]], evaluated left to right. *)
Fixpoint format_values (vs : list Value) : outcome (list string) :=
  match vs with
  | [] => Ok []
  | x :: rest =>
      match format_value x with
      | Raise e => Raise e
      | Ok s =>
          match format_values rest with
          | Raise e => Raise e
          | Ok ss => Ok (s :: ss)
          end
      end
  end.

(** The body of the loop below the record cap, for a record that has a
    [step]: the row it appends to [gen_log], if any, or how it stops. *)
Definition summary_row (st : Z) (s : Event) : outcome (option string) :=
  match wall_time s with
  | None => Raise (KeyError "wall_time")
  | Some wt =>
      let ts := strftime_gmtime wt in
      match summary s with
      | None => Ok None
      | Some sm =>
          match value sm with
          | None => Raise (KeyError "value")
          | Some [] => Ok None
          | Some (v0 :: vrest) =>
              match simple_value v0 with
              | Some _ =>
                  match format_values (v0 :: vrest) with
                  | Raise e => Raise e
                  | Ok vals =>
                      match tag v0 with
                      | None => Raise (KeyError "tag")
                      | Some t0 =>
                          if (st mod 2000 =? 0)%Z || negb (String.eqb t0 "train/loss")
                          then Ok (Some (ts +:+ " step: " +:+ str_of_int st +:+ ", "
                                           +:+ str_join "," vals))
                          else Ok None
                      end
                  end
              | None =>
                  match image v0 with
                  | Some _ => Ok None
                  | None => Raise IpdbSetTrace
                  end
              end
          end
      end
  end.

(** The [for] loop over the iterator.  It returns the local variables
    [count] and [gen_log] as the loop leaves them, and the exception that
    ended it, if one did: the iterator raises [DataLossError] where the file
    is corrupt, and the body raises on a missing key. *)
Fixpoint summary_loop (evs : list Event) (tail : option string)
    (count : Z) (gen_log : list string) : M (Z * list string * option abort) :=
  match evs with
  | [] =>
      match tail with
      | None => ret (count, gen_log, None)
      | Some DLE => ret (count, gen_log, Some (DataLossError DLE))
      end
  | s :: rest =>
      let count := count + 1 in
      if (1000 <? count)%Z then ret (count, gen_log, None)
      else
        match step s with
        | None => summary_loop rest tail count gen_log
        | Some st =>
            match summary_row st s with
            | Raise e => ret (count, gen_log, Some e)
            | Ok None => summary_loop rest tail count gen_log
            | Ok (Some row) =>
                print row ;;
                summary_loop rest tail count (gen_log ++ [row])%list
            end
        end
  end.

(** [try: <loop> except tf.errors.DataLossError as DLE: print(...)]: only
    [DataLossError] is caught. *)
Definition except_data_loss (pending : option abort) : M unit :=
  match pending with
  | None => ret tt
  | Some (DataLossError DLE) =>
      print (DLE +:+ " Could not parse any further information")
  | Some e => raise e
  end.

Definition parse_tboard_files (rel_dir : string) : M (list string) :=
  fun w =>
    match tfevents w rel_dir with
    | [tboard_file] =>
        (let gen_log :=
           ["This log was generated from tensorboard file " +:+ name tboard_file] in
         r ← summary_loop (records tboard_file) (data_loss tboard_file) 0 gen_log ;
         let count := fst (fst r) in
         let gen_log := snd (fst r) in
         except_data_loss (snd r) ;;
         print ("parsed " +:+ str_of_int count +:+ " summaries") ;;
         ret gen_log) w
    | _ => (w, Raise (AssertionError "expected a single tensorboard file"))
    end.

(** ** File-system calls *)

Definition set_files (f : gmap string content) (w : World) : World :=
  {| files := f; dirs := dirs w; tfevents := tfevents w; trace := trace w |}.

Definition set_dirs (d : gset string) (w : World) : World :=
  {| files := files w; dirs := d; tfevents := tfevents w; trace := trace w |}.

Definition is_file (w : World) (p : string) : bool :=
  bool_decide (is_Some (files w !! p)).

Definition is_dir (w : World) (p : string) : bool :=
  bool_decide (p ∈ dirs w).

(** [Path(p).exists()] *)
Definition path_exists (p : string) : M bool :=
  fun w => (w, Ok (is_file w p || is_dir w p)).

(** [Path(d).mkdir(exist_ok=True, parents=True)]: nothing to do when [d]
    is a directory; a file at [d] or at one of its parents is an error;
    otherwise [d] and its missing parents are created. *)
Definition mkdir_p (d : string) : M unit :=
  fun w =>
    let chain := path_chain (S (String.length d)) d in
    if is_dir w d then (w, Ok tt)
    else if is_file w d then (w, Raise (FileExistsError d))
    else if existsb (is_file w) chain then (w, Raise (NotADirectoryError d))
    else (set_dirs (list_to_set chain ∪ dirs w) w, Ok tt).

(** [shutil.copyfile(src, dst)]: refuses to copy a file onto itself, opens
    [src] for reading, then [dst] for writing, and copies the content. *)
Definition copyfile (src dst : string) : M unit :=
  fun w =>
    if bool_decide (src = dst) && (is_file w src || is_dir w src)
    then (w, Raise (SameFileError src))
    else
      match files w !! src with
      | None =>
          if is_dir w src then (w, Raise (IsADirectoryError src))
          else (w, Raise (FileNotFoundError src))
      | Some c =>
          if is_dir w dst then (w, Raise (IsADirectoryError dst))
          else if is_file w (path_parent dst)
               then (w, Raise (NotADirectoryError dst))
          else if negb (is_dir w (path_parent dst))
               then (w, Raise (FileNotFoundError dst))
          else emit (CopyFile src dst) (set_files (<[dst := c]> (files w)) w)
      end.

(** [Path(p).unlink()] *)
Definition unlink (p : string) : M unit :=
  fun w =>
    match files w !! p with
    | None =>
        if is_dir w p then (w, Raise (IsADirectoryError p))
        else (w, Raise (FileNotFoundError p))
    | Some _ => emit (Unlink p) (set_files (delete p (files w)) w)
    end.

(** [open(p, "r").read().splitlines()], for the paths of [files]: a path
    that is not there is a missing file or a directory. *)
Definition read_lines (p : string) : M (list string) :=
  fun w =>
    match files w !! p with
    | None =>
        if is_dir w p then (w, Raise (IsADirectoryError p))
        else (w, Raise (FileNotFoundError p))
    | Some c => (w, Ok (splitlines c))
    end.

(** [assert cond, msg] *)
Definition assert (cond : bool) (msg : string) : M unit :=
  if cond then ret tt else raise (AssertionError msg).

(** [for row in rows: logger.info(row)]: the rows are handed to the logger,
    which is set up outside the script. *)
Fixpoint logger_info_all (logger : string) (rows : list string) : M unit :=
  match rows with
  | [] => ret tt
  | row :: rest => emit (LoggerInfo logger row) ;; logger_info_all logger rest
  end.

(** ** The manifest *)

(** An entry of the checkpoint map, [checkpoints[key]]. *)
Record Checkpoint : Type := {
  timestamp : option string;
  epoch : option Z
}.

(** [checkpoints[key][field]] *)
Definition ckpt_field {A} (checkpoints : gmap string Checkpoint) (key : string)
    (field : string) (get : Checkpoint → option A) : M A :=
  match checkpoints !! key with
  | None => raise (KeyError key)
  | Some entry =>
      match get entry with
      | None => raise (KeyError field)
      | Some v => ret v
      end
  end.

(** ** [modernize_exp_dir] *)

(** The body of the loop, for one experiment [key]. *)
Definition modernize_exp (checkpoints : gmap string Checkpoint)
    (save_dir : string) (refresh : bool) (key : string) : M unit :=
  rel_dir ← ckpt_field checkpoints key "timestamp" timestamp ;
  let timestamp := split_last rel_dir in
  let src_config := rel_dir // "config.json" in
  let src_model := rel_dir // "model_best.pth" in
  let dest_log := save_dir // "log" // key // timestamp // "info.log" in
  let config_path := save_dir // "models" // key // timestamp // "config.json" in
  let model_path := save_dir // "models" // key // timestamp // "model_best.pth" in
  mkdir_p (path_parent config_path) ;;
  config_found ← path_exists config_path ;
  (if negb config_found || refresh then
     print ("copying config: " +:+ src_config +:+ " -> " +:+ config_path) ;;
     copyfile src_config config_path
   else
     print ("transferred config found at " +:+ config_path +:+ ", skipping...")) ;;
  model_found ← path_exists model_path ;
  (if negb model_found || refresh then
     print ("copying model: " +:+ src_model +:+ " -> " +:+ model_path) ;;
     copyfile src_model model_path
   else
     print ("transferred model found at " +:+ model_path +:+ ", skipping...")) ;;
  log_found ← path_exists dest_log ;
  if negb log_found || refresh then
    generated_log ← parse_tboard_files rel_dir ;
    mkdir_p (path_parent dest_log) ;;
    emit (SetupLogging (path_parent dest_log)) ;;
    logger_info_all "tboard-parser" generated_log ;;
    let best_ckpt_path := rel_dir // "model_best.pth" in
    emit (Evaluation {| arg_config := config_path; arg_device := "0";
                        arg_mini_eval := 1; arg_resume := best_ckpt_path |}
                     "tboard-parser")
  else
    print ("generated log found at " +:+ dest_log +:+ ", skipping...").

Fixpoint modernize_exp_dir (experiments : list string)
    (checkpoints : gmap string Checkpoint) (save_dir : string) (refresh : bool)
    : M unit :=
  match experiments with
  | [] => ret tt
  | key :: rest =>
      modernize_exp checkpoints save_dir refresh key ;;
      modernize_exp_dir rest checkpoints save_dir refresh
  end.

(** ** [parse_old_log] *)

Definition parse_old_log (log_path config_path : string) (fixed_epochs : Z)
    : M (list string) :=
  config ← read_lines config_path ;
  log ← read_lines log_path ;
  let tag := "checkpoint-epoch" +:+ str_of_int fixed_epochs +:+ ".pth" in
  let presence := map (fun row => str_in tag row && str_in "trainer" row) log in
  assert (sum_bools presence =? 1)%Z "expected single occurence of log tag" ;;
  match where_ presence with
  | [pos] =>
      let timestamp := path_stem (path_parent log_path) in
      let gen_log :=
        ["This log was generated from an existing log for experiemnt "
           +:+ timestamp] in
      let gen_log := (gen_log ++ ["Launching experiment with config:"])%list in
      match log !! (pos + 1)%nat with
      | None => raise IndexError
      | Some next =>
          let offset := if str_in "Training took" next then 1%nat else 0%nat in
          ret (gen_log ++ config ++ take (pos + 1 + offset) log)%list
      end
  | _ => raise ValueError
  end.

(** ** [standardize_exp_dir] *)

(** The body of the loop, for one experiment [key]. *)
Definition standardize_exp (save_dir : string)
    (checkpoints : gmap string Checkpoint) (refresh : bool) (key : string)
    : M unit :=
  timestamp ← ckpt_field checkpoints key "timestamp" timestamp ;
  epoch ← ckpt_field checkpoints key "epoch" epoch ;
  let log_path := save_dir // "log" // key // timestamp // "info.log" in
  let config_path := save_dir // "models" // key // timestamp // "config.json" in
  let ckpt_name := "checkpoint-epoch" +:+ str_of_int epoch +:+ ".pth" in
  let model_path := save_dir // "models" // key // timestamp // ckpt_name in
  log_found ← path_exists log_path ;
  assert log_found "log was not found" ;;
  config_found ← path_exists config_path ;
  assert config_found "config was not found" ;;
  model_found ← path_exists model_path ;
  assert model_found "model was not found" ;;
  let backup_log := log_path +:+ ".backup" in
  backup_found ← path_exists backup_log ;
  if negb backup_found || refresh then
    copyfile log_path backup_log ;;
    generated_log ← parse_old_log backup_log config_path epoch ;
    unlink log_path ;;
    emit (SetupLogging (path_parent log_path)) ;;
    logger_info_all "log-gen" generated_log ;;
    emit (Evaluation {| arg_config := config_path; arg_device := "3";
                        arg_mini_eval := 1; arg_resume := model_path |}
                     "log-gen")
  else
    print ("backup log found at " +:+ backup_log +:+ ", skipping...").

Fixpoint standardize_exp_dir (experiments : list string) (save_dir : string)
    (checkpoints : gmap string Checkpoint) (refresh : bool) : M unit :=
  match experiments with
  | [] => ret tt
  | key :: rest =>
      standardize_exp save_dir checkpoints refresh key ;;
      standardize_exp_dir rest save_dir checkpoints refresh
  end.

(** ** The decoder as a function of the records

    [decode] is the loop without the cap, the counter and the printing: the
    rows the records add, and the exception of the first record that raises.
    [consumed] is how far the counter advances under a cap of [cap] more
    records. *)
Fixpoint decode (evs : list Event) : list string * option abort :=
  match evs with
  | [] => ([], None)
  | s :: rest =>
      match step s with
      | None => decode rest
      | Some st =>
          match summary_row st s with
          | Raise e => ([], Some e)
          | Ok None => decode rest
          | Ok (Some row) => (row :: fst (decode rest), snd (decode rest))
          end
      end
  end.

Fixpoint consumed (cap : nat) (evs : list Event) {struct evs} : nat :=
  match evs with
  | [] => 0
  | s :: rest =>
      match cap with
      | O => 1
      | S cap' =>
          match step s with
          | None => S (consumed cap' rest)
          | Some st =>
              match summary_row st s with
              | Raise _ => 1
              | Ok _ => S (consumed cap' rest)
              end
          end
      end
  end.

(** The first line of a generated log. *)
Definition tboard_header (f : EventFile) : string :=
  "This log was generated from tensorboard file " +:+ name f.

(** How the loop ends once the records below the cap are decoded. *)
Definition loop_pending (n : nat) (evs : list Event) (tail : option string)
    : option abort :=
  match snd (decode (take n evs)) with
  | Some e => Some e
  | None => if decide (length evs ≤ n)%nat then DataLossError <$> tail else None
  end.

(** What [parse_tboard_files] returns for the event file [f]. *)
Definition tboard_result (f : EventFile) : outcome (list string) :=
  match snd (decode (take 1000 (records f))) with
  | Some e => Raise e
  | None => Ok (tboard_header f :: fst (decode (take 1000 (records f))))
  end.

Definition add_trace (es : list effect) (w : World) : World :=
  {| files := files w; dirs := dirs w; tfevents := tfevents w;
     trace := (trace w ++ es)%list |}.

(** The [step] key of the dictionary of a record written at step [st]:
    [protobuf_to_dict] lists the fields that are set, and the proto3 field
    [step] is not when it is 0. *)
Definition dict_step (st : Z) : option Z :=
  if (st =? 0)%Z then None else Some st.

(** The dictionary of a record of scalars as the summary writer produces
    it, written at the time [wt] and the step [st] with one or more tagged
    values.  The values sit in a [oneof], which is set whatever the number. *)
Definition scalar_value (tv : string * simple_value_t) : Value :=
  {| tag := Some (fst tv); simple_value := Some (snd tv); image := None |}.

Definition scalar_event (wt : wall_time_t) (st : Z)
    (v0 : string * simple_value_t) (vs : list (string * simple_value_t)) : Event :=
  {| wall_time := Some wt; step := dict_step st;
     summary := Some {| value := Some (map scalar_value (v0 :: vs)) |} |}.

(** The row of such a record: time, step and every tag/value pair. *)
Definition scalar_row (wt : wall_time_t) (st : Z)
    (v0 : string * simple_value_t) (vs : list (string * simple_value_t)) : string :=
  strftime_gmtime wt +:+ " step: " +:+ str_of_int st +:+ ", " +:+
  str_join "," (map (fun tv => fst tv +:+ ": " +:+ format_float (snd tv)) (v0 :: vs)).

(** The subsampling test of the decoder. *)
Definition kept (st : Z) (t0 : string) : bool :=
  (st mod 2000 =? 0)%Z || negb (String.eqb t0 "train/loss").

(** ** Relations between the world before and after a call *)

(** Every file of [w] is still there in [w'] with the same content, and no
    copy made in between had a destination that was a file of [w]. *)
Definition no_overwrite (w w' : World) : Prop :=
  (∀ p c, files w !! p = Some c → files w' !! p = Some c)
  ∧ ∃ es, trace w' = (trace w ++ es)%list
          ∧ ∀ src dst, CopyFile src dst ∈ es → files w !! dst = None.

(** Every file lies in a directory. *)
Definition dirs_closed (w : World) : Prop :=
  map_Forall (fun p _ => path_parent p ∈ dirs w) (files w).

(** The artifacts [modernize_exp_dir] leaves for [key]: the copied config,
    the copied model and the generated log. *)
Definition modernized (checkpoints : gmap string Checkpoint)
    (save_dir : string) (w : World) (key : string) : Prop :=
  ∃ entry rel_dir,
    checkpoints !! key = Some entry ∧ timestamp entry = Some rel_dir ∧
    is_file w (save_dir // "models" // key // split_last rel_dir // "config.json") = true ∧
    is_file w (save_dir // "models" // key // split_last rel_dir // "model_best.pth") = true ∧
    is_file w (save_dir // "log" // key // split_last rel_dir // "info.log") = true.

(** The artifacts [standardize_exp_dir] expects and leaves for [key]: the
    log, config and checkpoint it asserts, and the backup log. *)
Definition standardized (save_dir : string)
    (checkpoints : gmap string Checkpoint) (w : World) (key : string) : Prop :=
  ∃ entry ts ep,
    checkpoints !! key = Some entry ∧ timestamp entry = Some ts ∧
    epoch entry = Some ep ∧
    is_file w (save_dir // "log" // key // ts // "info.log") = true ∧
    is_file w (save_dir // "models" // key // ts // "config.json") = true ∧
    is_file w (save_dir // "models" // key // ts //
               ("checkpoint-epoch" +:+ str_of_int ep +:+ ".pth")) = true ∧
    is_file w ((save_dir // "log" // key // ts // "info.log") +:+ ".backup") = true.

(** The effects added to the trace between [w] and [w']. *)
Definition new_events (w w' : World) : list effect :=
  drop (length (trace w)) (trace w').

Definition no_eval (e : effect) : Prop :=
  match e with
  | Evaluation _ _ => False
  | _ => True
  end.

(** Between [w] and [w'] the evaluation routine was not called. *)
Definition quiet (w w' : World) : Prop :=
  ∃ es, trace w' = (trace w ++ es)%list ∧ Forall no_eval es.

(** Between [w] and [w'] the evaluation routine was called at most once; if
    it was, the call is the last effect, it has the arguments [args] and the
    logger [logger], and it comes right after rows written to that logger. *)
Definition ends_with_eval (args : EvalArgs) (logger : string) (w w' : World)
    : Prop :=
  ∃ es, trace w' = (trace w ++ es)%list ∧
    (Forall no_eval es ∨
     ∃ es0 log,
       es = (es0 ++ map (LoggerInfo logger) log ++ [Evaluation args logger])%list
       ∧ Forall no_eval es0).

(** ** The marker line of a legacy log *)

(** [f"checkpoint-epoch{fixed_epochs}.pth"] *)
Definition checkpoint_tag (fixed_epochs : Z) : string :=
  "checkpoint-epoch" +:+ str_of_int fixed_epochs +:+ ".pth".

(** The test [parse_old_log] applies to every row. *)
Definition is_marker (fixed_epochs : Z) (row : string) : bool :=
  str_in (checkpoint_tag fixed_epochs) row && str_in "trainer" row.

Definition marker_count (fixed_epochs : Z) (log : list string) : nat :=
  length (filter (fun row => is_marker fixed_epochs row = true) log).

(** [pos] is the index of the only marker line of [log]. *)
Definition single_marker_at (fixed_epochs : Z) (log : list string) (pos : nat)
    : Prop :=
  (∃ row, log !! pos = Some row ∧ is_marker fixed_epochs row = true)
  ∧ ∀ j row, log !! j = Some row → is_marker fixed_epochs row = true → j = pos.

(** The two lines [parse_old_log] puts in front. *)
Definition provenance (log_path : string) : list string :=
  ["This log was generated from an existing log for experiemnt "
     +:+ path_stem (path_parent log_path);
   "Launching experiment with config:"].

End Script.

(** ** A concrete runtime for examples

    Times and floats are given by their rendered text and a file by its
    lines. *)
#[local] Instance text_externals : Externals := {|
  wall_time_t := string;
  strftime_gmtime := fun t => t;
  simple_value_t := string;
  format_float := fun v => v;
  image_t := unit;
  content := list string;
  splitlines := fun c => c
|}.

Definition one_file_world (d : string) (f : EventFile) : World :=
  {| files := ∅; dirs := ∅;
     tfevents := fun p => if String.eqb p d then [f] else [];
     trace := [] |}.

(** A short stream: the dominant tag written at steps 0, 1, 2000 and 4000,
    other tags at steps 1 and 2001. *)
Definition demo_file : EventFile :=
  {| name := "events.out.tfevents.1";
     records :=
       [ scalar_event "t0" 0 ("train/loss", "0.9") [];
         scalar_event "t1" 1 ("train/loss", "0.8") [];
         scalar_event "t1" 1 ("val/acc", "0.1") [];
         scalar_event "t2" 2000 ("train/loss", "0.5") [];
         scalar_event "t3" 2001 ("val/acc", "0.2") [("val/iou", "0.3")];
         scalar_event "t4" 4000 ("train/loss", "0.4") [] ];
     data_loss := None |}.

(** The same stream, cut short by a corrupt record. *)
Definition corrupt_file : EventFile :=
  {| name := name demo_file; records := records demo_file;
     data_loss := Some "truncated record at 4096." |}.

(** A stream whose second record has no [wall_time]. *)
Definition broken_file : EventFile :=
  {| name := name demo_file;
     records :=
       [ scalar_event "t0" 0 ("train/loss", "0.9") [];
         {| wall_time := None; step := Some 1;
            summary := Some {| value := Some [scalar_value ("val/acc", "0.1")] |} |};
         scalar_event "t2" 2000 ("train/loss", "0.5") [] ];
     data_loss := None |}.

(** A stream longer than the cap: 1000 records the subsampling drops, then
    one record of another tag. *)
Definition late_event : Event := scalar_event "t9" 7 ("val/acc", "0.5") [].

Definition long_file : EventFile :=
  {| name := "events.out.tfevents.2";
     records :=
       (repeat (scalar_event "t0" 1 ("train/loss", "0.9") []) 1000
          ++ [late_event])%list;
     data_loss := None |}.

Definition capped_file : EventFile :=
  {| name := "events.out.tfevents.2";
     records := repeat (scalar_event "t0" 1 ("train/loss", "0.9") []) 1000;
     data_loss := Some "truncated record at 65536." |}.

(** Pipeline A on one experiment. *)
Definition run_dir : string := "old/runs/0801_120000".

Definition deprecated_ckpts : gmap string Checkpoint :=
  {[ "exp-a" := {| timestamp := Some run_dir; epoch := None |} ]}.

Definition deprecated_world : World :=
  {| files := list_to_map
       [ (run_dir // "config.json", ["{"; "}"]);
         (run_dir // "model_best.pth", ["weights"]) ];
     dirs := {[ run_dir ]};
     tfevents := fun d => if String.eqb d run_dir then [demo_file] else [];
     trace := [] |}.

(** The world after pipeline A has run on [deprecated_world] and the logger
    has written its rows to [info.log]. *)
Definition modernized_world : World :=
  let w := fst (modernize_exp_dir ["exp-a"] deprecated_ckpts "data/saved" false
                  deprecated_world) in
  set_files (<["data/saved/log/exp-a/0801_120000/info.log" := ["rows"]]> (files w)) w.

(** Pipeline B on one experiment whose legacy log overran by an epoch. *)
Definition legacy_log : list string :=
  [ "2019-08-02 13:00:00 - trainer - INFO - epoch 100 loss 0.41";
    "2019-08-02 13:00:01 - trainer - INFO - Saving checkpoint: checkpoint-epoch100.pth ...";
    "2019-08-02 13:00:02 - trainer - INFO - Training took 03:12:55";
    "2019-08-02 13:05:00 - trainer - INFO - epoch 101 loss 0.40";
    "2019-08-02 13:05:01 - trainer - INFO - Saving checkpoint: checkpoint-epoch101.pth ..." ].

Definition legacy_config : list string := ["{"; "  'n_gpu': 1"; "}"].

Definition std_log_path : string := "data/saved/log/exp-b/0802_130000/info.log".
Definition std_config_path : string := "data/saved/models/exp-b/0802_130000/config.json".
Definition std_model_path : string :=
  "data/saved/models/exp-b/0802_130000/checkpoint-epoch100.pth".

Definition non_standard_ckpts : gmap string Checkpoint :=
  {[ "exp-b" := {| timestamp := Some "0802_130000"; epoch := Some 100 |} ]}.

Definition non_standard_world : World :=
  {| files := list_to_map
       [ (std_log_path, legacy_log);
         (std_config_path, legacy_config);
         (std_model_path, ["weights"]) ];
     dirs := {[ "data/saved/log/exp-b/0802_130000";
                "data/saved/models/exp-b/0802_130000" ]};
     tfevents := fun _ => [];
     trace := [] |}.

(** The rows a run sent to the logger [logger]. *)
Definition logged_rows (logger : string) (es : list effect) : list string :=
  flat_map (fun e => match e with
                     | LoggerInfo l row => if String.eqb l logger then [row] else []
                     | _ => []
                     end) es.

(** The world after pipeline B has run on [non_standard_world] and the
    logger has written its rows to [info.log]. *)
Definition standardized_world : World :=
  let w := fst (standardize_exp_dir ["exp-b"] "data/saved" non_standard_ckpts false
                  non_standard_world) in
  set_files (<[std_log_path := logged_rows "log-gen" (trace w)]> (files w)) w.

(** The backup of the legacy log next to its config, as [parse_old_log]
    reads them. *)
Definition backup_world : World :=
  {| files := list_to_map
       [ (std_log_path +:+ ".backup", legacy_log);
         (std_config_path, legacy_config) ];
     dirs := ∅; tfevents := fun _ => []; trace := [] |}.

(** A legacy log with two marker lines. *)
Definition doubled_log_world : World :=
  {| files := list_to_map
       [ (std_log_path +:+ ".backup", (legacy_log ++ legacy_log)%list);
         (std_config_path, legacy_config) ];
     dirs := ∅; tfevents := fun _ => []; trace := [] |}.

(** A legacy log that stops at the marker line. *)
Definition stopped_log_world : World :=
  {| files := list_to_map
       [ (std_log_path +:+ ".backup", take 2 legacy_log);
         (std_config_path, legacy_config) ];
     dirs := ∅; tfevents := fun _ => []; trace := [] |}.

(** The evaluation calls of the two pipelines on the example worlds. *)
Definition modernize_eval : effect :=
  Evaluation {| arg_config := "data/saved/models/exp-a/0801_120000/config.json";
                arg_device := "0"; arg_mini_eval := 1;
                arg_resume := "old/runs/0801_120000/model_best.pth" |}
             "tboard-parser".

Definition standardize_eval : effect :=
  Evaluation {| arg_config := std_config_path; arg_device := "3";
                arg_mini_eval := 1; arg_resume := std_model_path |}
             "log-gen".

(** ** Further notions used to describe the script *)

Section Notions.
Context `{Ext : Externals}.


(** The last character of a string. *)
Fixpoint str_last (s : string) : option ascii :=
  match s with
  | EmptyString => None
  | String a EmptyString => Some a
  | String _ rest => str_last rest
  end.

(** Every file whose path is not among the destinations [D] holds in [w']
    what it held in [w]. *)
Definition untouched_outside (D : string → Prop) (w w' : World) : Prop :=
  ∀ p, ¬ D p → files w' !! p = files w !! p.

(** Between [w] and [w'] every call added to the trace satisfies [P]. *)
Definition only_effects (P : effect → Prop) (w w' : World) : Prop :=
  ∃ es, trace w' = (trace w ++ es)%list ∧ Forall P es.

(** What [modernize_exp_dir] may do to files by its own calls: copy the
    [config.json] or the [model_best.pth] of the source directory of a
    manifest entry to the [config_path] or the [model_path] it computes for
    that entry; it deletes nothing.  Other calls are not restricted. *)
Definition modernize_copy (checkpoints : gmap string Checkpoint)
    (save_dir : string) (e : effect) : Prop :=
  match e with
  | CopyFile src dst =>
      ∃ key entry rel_dir file,
        checkpoints !! key = Some entry ∧ timestamp entry = Some rel_dir
        ∧ (file = "config.json" ∨ file = "model_best.pth")
        ∧ src = rel_dir // file
        ∧ dst = save_dir // "models" // key // split_last rel_dir // file
  | Unlink _ => False
  | _ => True
  end.

(** What [standardize_exp_dir] may do to files by its own calls: copy the
    [log_path] it computes for a manifest entry to its backup, and delete
    that [log_path]. *)
Definition standardize_move (checkpoints : gmap string Checkpoint)
    (save_dir : string) (e : effect) : Prop :=
  match e with
  | CopyFile src dst =>
      ∃ key entry ts,
        checkpoints !! key = Some entry ∧ timestamp entry = Some ts
        ∧ src = save_dir // "log" // key // ts // "info.log"
        ∧ dst = src +:+ ".backup"
  | Unlink p =>
      ∃ key entry ts,
        checkpoints !! key = Some entry ∧ timestamp entry = Some ts
        ∧ p = save_dir // "log" // key // ts // "info.log"
  | _ => True
  end.

(** The world [w] with other event files. *)
Definition set_tfevents (tf : string → list EventFile) (w : World) : World :=
  {| files := files w; dirs := dirs w; tfevents := tf; trace := trace w |}.

(** From [w] the call [m] runs as it does when the event files are replaced
    by [tf]: same outcome, same effects, same files and directories. *)
Definition ignores_events {A} (tf : string → list EventFile) (m : M A)
    (w : World) : Prop :=
  m (set_tfevents tf w) = (set_tfevents tf (fst (m w)), snd (m w)).

(** The paths [standardize_exp_dir] writes or deletes, for some experiment
    under [save_dir]. *)
Definition standardize_dest (save_dir : string) (p : string) : Prop :=
  ∃ key ts,
    p = save_dir // "log" // key // ts // "info.log"
    ∨ p = (save_dir // "log" // key // ts // "info.log") +:+ ".backup".

Definition copy_or_print (e : effect) : Prop :=
  match e with
  | Printed _ | CopyFile _ _ => True
  | _ => False
  end.

(** If [d] is a file in [w] it is one in [w'], and nothing but copies and
    printed lines happened in between. *)
Definition keeps_file (d : string) (w w' : World) : Prop :=
  is_file w d = true →
  is_file w' d = true
  ∧ ∃ es, trace w' = (trace w ++ es)%list ∧ Forall copy_or_print es.

(** Between [w] and [w'] the event files are the same and the evaluation
    routine was not called. *)
Definition same_events_quiet (w w' : World) : Prop :=
  tfevents w' = tfevents w ∧ quiet w w'.

(** Between [w] and [w'] the evaluation routine was called at most once; if
    it was, the call is the last effect, and right before it the logging
    was set up in [log_dir] and the log the decoder returns for [rel_dir]
    was written to the logger, row by row. *)
Definition logs_decoded (rel_dir log_dir : string) (args : EvalArgs)
    (logger : string) (w w' : World) : Prop :=
  ∃ es, trace w' = (trace w ++ es)%list ∧
    (Forall no_eval es ∨
     ∃ es0 log,
       snd (parse_tboard_files rel_dir w) = Ok log
       ∧ es = (es0 ++ SetupLogging log_dir :: map (LoggerInfo logger) log
                 ++ [Evaluation args logger])%list
       ∧ Forall no_eval es0).

End Notions.

(** ** The command line

    The block under [__main__]: the parsed options, the manifests read with
    [json.load], and the dispatch on the task.  What [json.load] makes of a
    file is the runtime's business, so the two decoders are parameters; a
    file that does not parse makes them raise ([JSONDecodeError] is a
    [ValueError]). *)
Module Cli.
Section Main.
Context `{Ext : Externals}.
Variable json_checkpoints : content → outcome (gmap string Checkpoint).
Variable json_experiments : content → outcome (list string).

(** The namespace [parser.parse_args()] returns. *)
Record Args : Type := {
  task : string;
  refresh : bool;
  save_dir : string;
  device : string;
  dep_exps : string;
  non_std_exps : string;
  ckpts_path : string
}.

(** The defaults the parser declares. *)
Definition default_args : Args :=
  {| task := "modernize"; refresh := false; save_dir := "data/saved";
     device := ""; dep_exps := "misc/experiments-deprecated.json";
     non_std_exps := "misc/experiments-non-standard.json";
     ckpts_path := "misc/server-checkpoints.json" |}.

(** [with open(path, "r") as f: json.load(f)] *)
Definition json_load {A} (decode : content → outcome A) (path : string) : M A :=
  fun w =>
    match files w !! path with
    | None =>
        if is_dir w path then (w, Raise (IsADirectoryError path))
        else (w, Raise (FileNotFoundError path))
    | Some c => (w, decode c)
    end.

(** [if args.device: os.environ["CUDA_VISIBLE_DEVICES"] = args.device] *)
Definition set_device (args : Args) (environ : gmap string string)
    : gmap string string :=
  if String.eqb (device args) "" then environ
  else <["CUDA_VISIBLE_DEVICES" := device args]> environ.

(** The script from [args = parser.parse_args()] on: the environment it
    leaves, the world it leaves and how it ends. *)
Definition main (args : Args) (environ : gmap string string) (w : World)
    : gmap string string * (World * outcome unit) :=
  (set_device args environ,
   (ckpts ← json_load json_checkpoints (ckpts_path args) ;
    if String.eqb (task args) "modernize" then
      dep_experiments ← json_load json_experiments (dep_exps args) ;
      modernize_exp_dir dep_experiments ckpts (save_dir args) (refresh args)
    else if String.eqb (task args) "standardize" then
      non_std_experiments ← json_load json_experiments (non_std_exps args) ;
      standardize_exp_dir non_std_experiments (save_dir args) ckpts (refresh args)
    else ret tt) w).

End Main.
End Cli.

(** More example inputs. *)


(** A record whose first value is a scalar and whose second is an image. *)
Definition image_value : Value :=
  {| tag := Some "val/img"; simple_value := None; image := Some tt |}.

Definition mixed_event : Event :=
  {| wall_time := Some "t5"; step := Some 3;
     summary := Some {| value := Some
       [ scalar_value ("val/acc", "0.3"); image_value ] |} |}.

Definition mixed_file : EventFile :=
  {| name := "events.out.tfevents.4";
     records := [scalar_event "t0" 0 ("train/loss", "0.9") []; mixed_event];
     data_loss := None |}.

(** The short stream in two halves. *)
Definition first_half : EventFile :=
  {| name := name demo_file; records := take 3 (records demo_file);
     data_loss := None |}.

Definition second_half : EventFile :=
  {| name := "events.out.tfevents.5"; records := drop 3 (records demo_file);
     data_loss := None |}.

(** [deprecated_world] with a log already in place for the experiment. *)
Definition logged_world : World :=
  set_files (<["data/saved/log/exp-a/0801_120000/info.log" := ["old rows"]]>
               (files deprecated_world)) deprecated_world.

(** A world in which the source directory of the experiment is empty. *)
Definition sourceless_world : World :=
  {| files := ∅; dirs := {[ run_dir ]}; tfevents := fun _ => []; trace := [] |}.

(** [non_standard_world] with a legacy log that has two marker lines. *)
Definition doubled_standard_world : World :=
  set_files (<[std_log_path := (legacy_log ++ legacy_log)%list]>
               (files non_standard_world)) non_standard_world.

(** Manifests on disk and what [json.load] makes of them. *)
Definition manifest_world : World :=
  {| files := list_to_map [ ("misc/server-checkpoints.json", ["ckpts"]) ];
     dirs := {[ "misc" ]}; tfevents := fun _ => []; trace := [] |}.

Definition load_ckpts (c : list string) : outcome (gmap string Checkpoint) :=
  match c with
  | ["ckpts"] => Ok deprecated_ckpts
  | _ => Raise ValueError
  end.

Definition load_keys (c : list string) : outcome (list string) :=
  match c with
  | ["keys"] => Ok ["exp-a"]
  | _ => Raise ValueError
  end.

Definition evaluate_args : Cli.Args :=
  {| Cli.task := "evaluate"; Cli.refresh := false;
     Cli.save_dir := "data/saved"; Cli.device := "1";
     Cli.dep_exps := "misc/experiments-deprecated.json";
     Cli.non_std_exps := "misc/experiments-non-standard.json";
     Cli.ckpts_path := "misc/server-checkpoints.json" |}.

(** ** Properties of the decoder *)

Section DecoderFacts.
Context `{Ext : Externals}.

Lemma add_trace_nil (w : World) : add_trace [] w = w.
Proof. destruct w; unfold add_trace; simpl. by rewrite app_nil_r. Qed.

Lemma add_trace_app (es1 es2 : list effect) (w : World) :
  add_trace es2 (add_trace es1 w) = add_trace (es1 ++ es2) w.
Proof. unfold add_trace; simpl. by rewrite app_assoc. Qed.

Lemma emit_add_trace (e : effect) (w : World) :
  emit e w = (add_trace [e] w, Ok tt).
Proof. reflexivity. Qed.

Lemma summary_loop_decode (n : nat) (evs : list Event) (tail : option string)
    (gen_log : list string) (w : World) :
  summary_loop evs tail (1000 - Z.of_nat n) gen_log w =
    (add_trace (map Printed (fst (decode (take n evs)))) w,
     Ok (1000 - Z.of_nat n + Z.of_nat (consumed n evs),
         (gen_log ++ fst (decode (take n evs)))%list,
         loop_pending n evs tail)).
Proof.
  revert n gen_log w.
  induction evs as [|s rest IH]; intros n gen_log w.
  - unfold loop_pending. rewrite take_nil. simpl.
    rewrite add_trace_nil, app_nil_r, Z.add_0_r.
    destruct (decide (0 ≤ n)%nat); [|lia].
    by destruct tail.
  - destruct n as [|n].
    + simpl. unfold loop_pending. simpl.
      by rewrite add_trace_nil, app_nil_r.
    + cbn [summary_loop].
      replace (1000 - Z.of_nat (S n) + 1) with (1000 - Z.of_nat n) by lia.
      assert (Hcap : (1000 <? 1000 - Z.of_nat n)%Z = false) by (apply Z.ltb_ge; lia).
      rewrite Hcap.
      assert (Hcnt : ∀ k : nat, 1000 - Z.of_nat (S n) + Z.of_nat (S k)
                       = 1000 - Z.of_nat n + Z.of_nat k) by (intros; lia).
      unfold loop_pending. cbn [take decode consumed length].
      destruct (step s) as [st|].
      * destruct (summary_row st s) as [[row|]|e].
        -- unfold mbind, M_bind, bind, print. rewrite emit_add_trace.
           rewrite IH, add_trace_app, Hcnt. cbn [fst snd map].
           rewrite <- app_assoc. cbn [app].
           unfold loop_pending.
           repeat f_equal.
           destruct (snd (decode (take n rest))); [done|].
           destruct (decide (length rest ≤ n)%nat), (decide (S (length rest) ≤ S n)%nat);
             try done; lia.
        -- rewrite IH, Hcnt. unfold loop_pending.
           repeat f_equal.
           destruct (snd (decode (take n rest))); [done|].
           destruct (decide (length rest ≤ n)%nat), (decide (S (length rest) ≤ S n)%nat);
             try done; lia.
        -- cbn. rewrite add_trace_nil, app_nil_r.
           replace (1000 - Z.of_nat (S n) + Z.of_nat 1) with (1000 - Z.of_nat n)
             by lia.
           reflexivity.
      * rewrite IH, Hcnt. unfold loop_pending.
        repeat f_equal.
        destruct (snd (decode (take n rest))); [done|].
        destruct (decide (length rest ≤ n)%nat), (decide (S (length rest) ≤ S n)%nat);
          try done; lia.
Qed.

Lemma summary_row_raises (st : Z) (s : Event) (e : abort) :
  summary_row st s = Raise e →
  e = IpdbSetTrace ∨ ∃ key, e = KeyError key.
Proof.
  unfold summary_row. intros H.
  repeat match type of H with
         | match ?x with _ => _ end = _ => destruct x eqn:?
         | (if ?x then _ else _) = _ => destruct x
         end;
    try discriminate; inversion H; subst; eauto.
  all: match goal with
       | Hv : format_values _ = Raise _ |- _ => revert Hv
       end.
  all: match goal with
       | |- format_values ?l = _ → _ => generalize l
       end.
  all: intros l; induction l as [|x l IHl]; simpl; [discriminate|].
  all: unfold format_value.
  all: destruct (tag x); [|intros [= <-]; eauto].
  all: destruct (simple_value x); [|intros [= <-]; eauto].
  all: destruct (format_values l); [discriminate|].
  all: intros [= <-]; by apply IHl.
Qed.

Lemma decode_raises (evs : list Event) (e : abort) :
  snd (decode evs) = Some e →
  e = IpdbSetTrace ∨ ∃ key, e = KeyError key.
Proof.
  induction evs as [|s rest IH]; simpl; [discriminate|].
  destruct (step s) as [st|]; [|done].
  destruct (summary_row st s) as [[row|]|e'] eqn:Hrow; simpl; try done.
  intros [= <-]. by eapply summary_row_raises.
Qed.

Lemma consumed_all (n : nat) (evs : list Event) :
  (length evs ≤ n)%nat → snd (decode evs) = None →
  consumed n evs = length evs.
Proof.
  revert n. induction evs as [|s rest IH]; intros n Hn; [done|].
  destruct n as [|n]; simpl in Hn; [lia|]. simpl.
  destruct (step s) as [st|]; [|intros; f_equal; apply IH; [lia|done]].
  destruct (summary_row st s) as [[row|]|e']; simpl; try done;
    intros; f_equal; apply IH; (lia || done).
Qed.

Lemma consumed_le (n : nat) (evs : list Event) :
  (consumed n evs ≤ S n)%nat.
Proof.
  revert n. induction evs as [|s rest IH]; intros n; simpl; [lia|].
  destruct n as [|n]; [lia|].
  destruct (step s) as [st|]; [|specialize (IH n); lia].
  destruct (summary_row st s); specialize (IH n); lia.
Qed.

Lemma decode_rows_length (evs : list Event) :
  (length (fst (decode evs)) ≤ length evs)%nat.
Proof.
  induction evs as [|s rest IH]; simpl; [lia|].
  destruct (step s) as [st|]; [|lia].
  destruct (summary_row st s) as [[row|]|e']; simpl; lia.
Qed.

Lemma decode_app (pre post : list Event) :
  snd (decode pre) = None →
  decode (pre ++ post) =
    ((fst (decode pre) ++ fst (decode post))%list, snd (decode post)).
Proof.
  induction pre as [|s rest IH]; simpl; intros Hp; [by destruct (decode post)|].
  destruct (step s) as [st|]; [|by apply IH].
  destruct (summary_row st s) as [[row|]|e']; simpl in *; try done.
  - by rewrite IH.
  - by apply IH.
Qed.

(** The whole call, in terms of [decode]. *)
Lemma parse_tboard_files_decode (d : string) (w : World) (f : EventFile) :
  tfevents w d = [f] →
  parse_tboard_files d w =
    let rows := fst (decode (take 1000 (records f))) in
    let parsed :=
      Printed ("parsed " +:+ str_of_int (Z.of_nat (consumed 1000 (records f)))
             +:+ " summaries") in
    match loop_pending 1000 (records f) (data_loss f) with
    | None => (add_trace (map Printed rows ++ [parsed]) w, Ok (tboard_header f :: rows))
    | Some (DataLossError DLE) =>
        (add_trace
           (map Printed rows ++
            [Printed (DLE +:+ " Could not parse any further information"); parsed]) w,
         Ok (tboard_header f :: rows))
    | Some e => (add_trace (map Printed rows) w, Raise e)
    end.
Proof.
  intros Hf. unfold parse_tboard_files. rewrite Hf.
  unfold mbind, M_bind, bind.
  pose proof (summary_loop_decode 1000 (records f) (data_loss f)
                [tboard_header f] w) as Hloop.
  change (1000 - Z.of_nat 1000) with 0 in Hloop.
  unfold tboard_header in *. rewrite Hloop. cbn [fst snd].
  rewrite Z.add_0_l.
  destruct (loop_pending 1000 (records f) (data_loss f)) as [e|].
  - destruct e; try reflexivity.
    cbn [except_data_loss]. unfold print, emit, add_trace. cbn.
    by rewrite <- !app_assoc.
  - cbn [except_data_loss]. unfold print, emit, add_trace. cbn.
    by rewrite <- !app_assoc.
Qed.

Lemma parse_tboard_files_result (d : string) (w : World) (f : EventFile) :
  tfevents w d = [f] →
  snd (parse_tboard_files d w) = tboard_result f.
Proof.
  intros Hf. rewrite (parse_tboard_files_decode d w f Hf).
  unfold tboard_result, loop_pending. cbn zeta.
  destruct (snd (decode (take 1000 (records f)))) as [e|] eqn:Hp.
  - destruct (decode_raises _ _ Hp) as [->|[key ->]]; reflexivity.
  - destruct (decide (length (records f) ≤ 1000)%nat); [|reflexivity].
    destruct (data_loss f); reflexivity.
Qed.

Lemma decode_app_None (pre post : list Event) :
  snd (decode (pre ++ post)) = None → snd (decode pre) = None.
Proof.
  induction pre as [|s rest IH]; simpl; [done|].
  destruct (step s) as [st|]; [|done].
  destruct (summary_row st s) as [[row|]|e']; simpl; done.
Qed.

Lemma format_values_scalar (l : list (string * simple_value_t)) :
  format_values (map scalar_value l) =
    Ok (map (fun tv => fst tv +:+ ": " +:+ format_float (snd tv)) l).
Proof.
  induction l as [|tv l IH]; simpl; [done|]. by rewrite IH.
Qed.

Lemma summary_row_scalar (wt : wall_time_t) (st : Z)
    (v0 : string * simple_value_t) (vs : list (string * simple_value_t)) :
  summary_row st (scalar_event wt st v0 vs) =
    Ok (if kept st (fst v0) then Some (scalar_row wt st v0 vs) else None).
Proof.
  unfold summary_row, scalar_event, kept, scalar_row. cbn [wall_time summary value].
  cbn [map scalar_value simple_value tag fst snd].
  change (scalar_value v0 :: map scalar_value vs) with (map scalar_value (v0 :: vs)).
  rewrite format_values_scalar.
  by destruct ((st mod 2000 =? 0)%Z || negb (String.eqb (fst v0) "train/loss")).
Qed.

Lemma decode_scalar (wt : wall_time_t) (st : Z)
    (v0 : string * simple_value_t) (vs : list (string * simple_value_t))
    (rest : list Event) :
  decode (scalar_event wt st v0 vs :: rest) =
    (((if negb (st =? 0)%Z && kept st (fst v0)
       then [scalar_row wt st v0 vs] else [])
        ++ fst (decode rest))%list,
     snd (decode rest)).
Proof.
  cbn [decode].
  change (step (scalar_event wt st v0 vs)) with (dict_step st).
  unfold dict_step. destruct (st =? 0)%Z; cbn [negb andb app].
  - by destruct (decode rest).
  - rewrite summary_row_scalar.
    destruct (kept st (fst v0)); simpl; by destruct (decode rest).
Qed.

(** C1 (amended): a record of scalars among the first 1000 records of a
    stream that is decoded without an exception adds exactly one line to the
    log (time, step and all its tag/value pairs) when its step is not 0 and
    either a multiple of 2000 or paired with a first tag other than
    [train/loss], and no line otherwise: the returned log is the header, the
    rows of the records before it, that line if any, and the rows of the
    records after it up to the cap.  A record written at step 0 carries no
    [step] key and is passed over, whatever its tag. *)
Theorem C1_subsampling_within_cap (d : string) (w : World) (f : EventFile)
    (pre post : list Event) (wt : wall_time_t) (st : Z)
    (v0 : string * simple_value_t) (vs : list (string * simple_value_t)) :
  tfevents w d = [f] →
  records f = (pre ++ scalar_event wt st v0 vs :: post)%list →
  (length pre < 1000)%nat →
  snd (decode (take 1000 (records f))) = None →
  snd (parse_tboard_files d w) =
    Ok (tboard_header f ::
          fst (decode pre)
          ++ (if negb (st =? 0)%Z && kept st (fst v0)
              then [scalar_row wt st v0 vs] else [])
          ++ fst (decode (take (999 - length pre) post)))%list.
Proof.
  intros Hf Hrec Hlen Hok.
  rewrite (parse_tboard_files_result d w f Hf). unfold tboard_result.
  rewrite Hok. f_equal. f_equal.
  rewrite Hrec in *.
  rewrite take_app_ge in * by lia.
  replace (1000 - length pre)%nat with (S (999 - length pre)) in * by lia.
  cbn [take] in *.
  rewrite decode_app by (by eapply decode_app_None).
  cbn [fst]. by rewrite decode_scalar.
Qed.

(** C4: the decoder stops at a cap of 1000 records.  Two event files with
    the same name whose first 1000 records agree give the same result,
    whatever follows and however either file ends; the counter stops at
    1001 at the latest, and the returned log has at most one line per
    record within the cap besides its header. *)
Theorem C4_record_cap (d1 d2 : string) (w1 w2 : World) (f1 f2 : EventFile) :
  tfevents w1 d1 = [f1] →
  tfevents w2 d2 = [f2] →
  name f1 = name f2 →
  take 1000 (records f1) = take 1000 (records f2) →
  snd (parse_tboard_files d1 w1) = snd (parse_tboard_files d2 w2)
  ∧ (consumed 1000 (records f1) ≤ 1001)%nat
  ∧ ∀ log, snd (parse_tboard_files d1 w1) = Ok log → (length log ≤ 1001)%nat.
Proof.
  intros H1 H2 Hname Htake.
  rewrite (parse_tboard_files_result d1 w1 f1 H1).
  rewrite (parse_tboard_files_result d2 w2 f2 H2).
  unfold tboard_result, tboard_header. rewrite Htake, Hname.
  split; [reflexivity|]. split; [apply consumed_le|].
  intros log.
  destruct (snd (decode (take 1000 (records f2)))); [discriminate|].
  intros [= <-]. cbn [length].
  pose proof (decode_rows_length (take 1000 (records f2))) as Hrows.
  rewrite length_take in Hrows. lia.
Qed.

(** C8: a [DataLossError] raised by the iterator is not propagated.  When
    the records before the corruption point are fewer than the cap and are
    decoded without a missing key, the call prints the rows, reports the
    error, prints the count and returns the header with exactly the rows of
    those records.  Nothing else is caught: when a record within the cap
    stops the loop, by a missing key or by the breakpoint of an unexpected
    record, the call stops the same way and returns no log. *)
Theorem C8_data_loss_is_end_of_stream (d : string) (w : World) (f : EventFile) :
  tfevents w d = [f] →
  (∀ DLE,
     data_loss f = Some DLE →
     (length (records f) ≤ 1000)%nat →
     snd (decode (records f)) = None →
     parse_tboard_files d w =
       (add_trace
          (map Printed (fst (decode (records f))) ++
           [Printed (DLE +:+ " Could not parse any further information");
            Printed ("parsed " +:+ str_of_int (Z.of_nat (length (records f)))
                   +:+ " summaries")]) w,
        Ok (tboard_header f :: fst (decode (records f)))))
  ∧ (∀ e,
       snd (decode (take 1000 (records f))) = Some e →
       snd (parse_tboard_files d w) = Raise e
       ∧ ∀ DLE, e ≠ DataLossError DLE).
Proof.
  intros Hf. split.
  - intros DLE Htail Hlen Hok.
    rewrite (parse_tboard_files_decode d w f Hf). cbn zeta.
    unfold loop_pending.
    rewrite (take_ge (records f)) by lia.
    rewrite Hok, Htail.
    destruct (decide (length (records f) ≤ 1000)%nat); [|lia].
    cbn [fmap option_fmap option_map].
    by rewrite consumed_all.
  - intros e He.
    rewrite (parse_tboard_files_result d w f Hf). unfold tboard_result.
    rewrite He. split; [reflexivity|].
    intros DLE ->. by destruct (decode_raises _ _ He) as [?|[? ?]].
Qed.

End DecoderFacts.

(** ** Properties of the legacy-log normaliser *)

Section OldLogFacts.
Context `{Ext : Externals}.

Lemma where_from_none (i : nat) (bs : list bool) :
  (∀ j, bs !! j = Some true → False) → where_from i bs = [].
Proof.
  revert i. induction bs as [|b rest IH]; intros i Hnone; [done|].
  simpl. destruct b.
  - destruct (Hnone 0%nat). done.
  - apply IH. intros j Hj. by apply (Hnone (S j)).
Qed.

Lemma where_from_single (i pos : nat) (bs : list bool) :
  bs !! pos = Some true →
  (∀ j, bs !! j = Some true → j = pos) →
  where_from i bs = [(i + pos)%nat].
Proof.
  revert i pos. induction bs as [|b rest IH]; intros i pos Hpos Huniq; [done|].
  destruct pos as [|pos]; simpl in Hpos.
  - injection Hpos as ->. simpl. rewrite Nat.add_0_r. f_equal.
    apply where_from_none. intros j Hj.
    specialize (Huniq (S j) Hj). discriminate.
  - simpl. destruct b.
    + specialize (Huniq 0%nat eq_refl). discriminate.
    + rewrite (IH (S i) pos Hpos).
      * f_equal. lia.
      * intros j Hj. specialize (Huniq (S j) Hj). lia.
Qed.

Lemma sum_bools_where (i : nat) (bs : list bool) :
  sum_bools bs = Z.of_nat (length (where_from i bs)).
Proof.
  revert i. induction bs as [|b rest IH]; intros i; [done|].
  simpl. rewrite (IH (S i)). destruct b; simpl; lia.
Qed.

Lemma sum_bools_markers (N : Z) (log : list string) :
  sum_bools (map (fun row => str_in (checkpoint_tag N) row && str_in "trainer" row) log)
  = Z.of_nat (marker_count N log).
Proof.
  unfold marker_count. induction log as [|row rest IH]; [done|].
  cbn [map sum_bools]. rewrite IH. rewrite filter_cons.
  change (str_in (checkpoint_tag N) row && str_in "trainer" row)
    with (is_marker N row).
  destruct (is_marker N row) eqn:Hm.
  - rewrite decide_True by done. rewrite length_cons. lia.
  - rewrite decide_False by done. lia.
Qed.

Lemma single_marker_presence (N : Z) (log : list string) (pos : nat) :
  single_marker_at N log pos →
  let presence :=
    map (fun row => str_in (checkpoint_tag N) row && str_in "trainer" row) log in
  where_ presence = [pos] ∧ sum_bools presence = 1.
Proof.
  intros [[row [Hrow Hm]] Huniq] presence.
  assert (Hw : where_ presence = [pos]).
  { unfold where_. rewrite (where_from_single 0 pos); [done| |].
    - unfold presence. rewrite list_lookup_fmap, Hrow. simpl.
      f_equal. exact Hm.
    - intros j Hj. unfold presence in Hj. rewrite list_lookup_fmap in Hj.
      destruct (log !! j) as [r|] eqn:Hr; [|done].
      simpl in Hj. injection Hj as Hj. by apply (Huniq j r). }
  split; [done|].
  rewrite (sum_bools_where 0). fold (where_ presence). by rewrite Hw.
Qed.

(** [parse_old_log] once both files are read. *)
Lemma parse_old_log_read (log_path config_path : string) (N : Z) (w : World)
    (cc lc : content) :
  files w !! config_path = Some cc →
  files w !! log_path = Some lc →
  parse_old_log log_path config_path N w =
    let log := splitlines lc in
    let presence :=
      map (fun row => str_in (checkpoint_tag N) row && str_in "trainer" row) log in
    if (sum_bools presence =? 1)%Z then
      match where_ presence with
      | [pos] =>
          match log !! (pos + 1)%nat with
          | None => (w, Raise IndexError)
          | Some next =>
              (w, Ok (provenance log_path ++ splitlines cc
                        ++ take (pos + 1 + (if str_in "Training took" next
                                             then 1 else 0)) log)%list)
          end
      | _ => (w, Raise ValueError)
      end
    else (w, Raise (AssertionError "expected single occurence of log tag")).
Proof.
  intros Hc Hl. unfold parse_old_log, read_lines.
  unfold mbind, M_bind, bind. rewrite Hc, Hl. cbn zeta.
  fold (checkpoint_tag N).
  destruct (sum_bools _ =? 1)%Z; [|reflexivity].
  cbn [assert]. cbn.
  destruct (where_ _) as [|pos [|? ?]]; try reflexivity.
  destruct (splitlines lc !! (pos + 1)%nat); reflexivity.
Qed.

(** C2 (amended): for a legacy log whose only marker line is at index [pos]
    and is followed by at least one more line, [parse_old_log] returns the two
    provenance lines, the lines of the config file, the log lines up to and
    including the marker, and the line after the marker when that line
    contains [Training took]; later lines are dropped. *)
Theorem C2_truncated_log (log_path config_path : string) (N : Z) (w : World)
    (cc lc : content) (pos : nat) (next : string) :
  files w !! config_path = Some cc →
  files w !! log_path = Some lc →
  single_marker_at N (splitlines lc) pos →
  splitlines lc !! S pos = Some next →
  parse_old_log log_path config_path N w =
    (w, Ok (provenance log_path ++ splitlines cc
              ++ take (S pos) (splitlines lc)
              ++ (if str_in "Training took" next then [next] else []))%list).
Proof.
  intros Hc Hl Hm Hnext.
  rewrite (parse_old_log_read _ _ _ _ _ _ Hc Hl). cbn zeta.
  destruct (single_marker_presence _ _ _ Hm) as [Hw Hs].
  rewrite Hs, Hw. cbn [Z.eqb Pos.eqb].
  replace (pos + 1)%nat with (S pos) by lia. rewrite Hnext.
  do 4 f_equal.
  destruct (str_in "Training took" next).
  - replace (S pos + 1)%nat with (S (S pos)) by lia.
    by rewrite (take_S_r _ _ _ Hnext).
  - by rewrite Nat.add_0_r, app_nil_r.
Qed.

(** C5: [parse_old_log] returns a log only when exactly one line of the
    legacy log contains both the checkpoint tag of the given epoch and
    [trainer]; with no such line or several, the assertion fails, nothing is
    returned and the world is left as it was. *)
Theorem C5_single_marker_required (log_path config_path : string) (N : Z)
    (w : World) (cc lc : content) :
  files w !! config_path = Some cc →
  files w !! log_path = Some lc →
  (∀ out, snd (parse_old_log log_path config_path N w) = Ok out →
          marker_count N (splitlines lc) = 1%nat)
  ∧ (marker_count N (splitlines lc) ≠ 1%nat →
     parse_old_log log_path config_path N w =
       (w, Raise (AssertionError "expected single occurence of log tag"))).
Proof.
  intros Hc Hl.
  rewrite (parse_old_log_read _ _ _ _ _ _ Hc Hl). cbn zeta.
  rewrite sum_bools_markers.
  destruct (Z.eqb_spec (Z.of_nat (marker_count N (splitlines lc))) 1) as [Heq|Hne].
  - split; [intros; lia|]. intros Hcnt. lia.
  - split; [|done]. intros out. simpl. discriminate.
Qed.

(** C9: when the only marker line is the last line of the legacy log, the
    lookup of the line after it is out of range and [parse_old_log] raises
    [IndexError] instead of returning a log. *)
Theorem C9_marker_last_line_fails (log_path config_path : string) (N : Z)
    (w : World) (cc lc : content) (pos : nat) :
  files w !! config_path = Some cc →
  files w !! log_path = Some lc →
  single_marker_at N (splitlines lc) pos →
  S pos = length (splitlines lc) →
  parse_old_log log_path config_path N w = (w, Raise IndexError).
Proof.
  intros Hc Hl Hm Hlast.
  rewrite (parse_old_log_read _ _ _ _ _ _ Hc Hl). cbn zeta.
  destruct (single_marker_presence _ _ _ Hm) as [Hw Hs].
  rewrite Hs, Hw. cbn [Z.eqb Pos.eqb].
  rewrite (lookup_ge_None_2 (splitlines lc) (pos + 1)) by lia.
  reflexivity.
Qed.

End OldLogFacts.

(** ** Properties of the two pipelines *)

Section PipelineFacts.
Context `{Ext : Externals}.

(** *** Calls that leave the world alone or only extend the trace *)

Lemma ckpt_field_world {A} (checkpoints : gmap string Checkpoint)
    (key field : string) (get : Checkpoint → option A) (w : World) :
  fst (ckpt_field checkpoints key field get w) = w.
Proof.
  unfold ckpt_field. destruct (checkpoints !! key) as [entry|]; [|done].
  by destruct (get entry).
Qed.

Lemma assert_world (cond : bool) (msg : string) (w : World) :
  fst (assert cond msg w) = w.
Proof. by destruct cond. Qed.

Lemma logger_info_all_trace (logger : string) (rows : list string) (w : World) :
  logger_info_all logger rows w =
    (add_trace (map (LoggerInfo logger) rows) w, Ok tt).
Proof.
  revert w. induction rows as [|row rest IH]; intros w; simpl.
  - by rewrite add_trace_nil.
  - unfold mbind, M_bind, bind. rewrite emit_add_trace, IH.
    by rewrite add_trace_app.
Qed.

Lemma parse_tboard_files_trace (d : string) (w : World) :
  ∃ rows, fst (parse_tboard_files d w) = add_trace (map Printed rows) w.
Proof.
  destruct (tfevents w d) as [|f [|f' fs]] eqn:Hf.
  - exists []. unfold parse_tboard_files. rewrite Hf. simpl.
    by rewrite add_trace_nil.
  - rewrite (parse_tboard_files_decode d w f Hf). cbn zeta.
    destruct (loop_pending 1000 (records f) (data_loss f)) as [e|].
    + destruct e; try (eexists; reflexivity).
      eexists (_ ++ [_; _])%list. cbn [fst]. by rewrite map_app.
    + eexists (_ ++ [_])%list. cbn [fst]. by rewrite map_app.
  - exists []. unfold parse_tboard_files. rewrite Hf. simpl.
    by rewrite add_trace_nil.
Qed.

(** *** Sequencing under a relation between the world before and after *)

Section Frame.
Variable R : World → World → Prop.
Hypothesis R_refl : ∀ w, R w w.
Hypothesis R_trans : ∀ w1 w2 w3, R w1 w2 → R w2 w3 → R w1 w3.

Lemma frame_bind {A B} (m : M A) (k : A → M B) (w : World) :
  R w (fst (m w)) →
  (∀ a, snd (m w) = Ok a → R (fst (m w)) (fst (k a (fst (m w))))) →
  R w (fst ((m ≫= k) w)).
Proof.
  intros Hm Hk. unfold mbind, M_bind, bind.
  destruct (m w) as [w1 [a|e]]; simpl in *; [|done].
  eapply R_trans; [exact Hm|]. by apply Hk.
Qed.

Lemma frame_loop (body : string → M unit) (loop : list string → M unit)
    (keys : list string) :
  (∀ w, loop [] w = (w, Ok tt)) →
  (∀ key rest w, loop (key :: rest) w = (body key ≫= fun _ => loop rest) w) →
  (∀ key w, R w (fst (body key w))) →
  ∀ w, R w (fst (loop keys w)).
Proof.
  intros Hnil Hcons Hbody.
  induction keys as [|key rest IH]; intros w.
  - rewrite Hnil. apply R_refl.
  - rewrite Hcons. apply frame_bind; [apply Hbody|]. intros; apply IH.
Qed.
End Frame.

(** *** No overwriting without the refresh flag *)

Lemma no_overwrite_refl (w : World) : no_overwrite w w.
Proof.
  split; [done|]. exists []. split; [by rewrite app_nil_r|].
  intros src dst Hin. by apply elem_of_nil in Hin.
Qed.

Lemma no_overwrite_trans (w1 w2 w3 : World) :
  no_overwrite w1 w2 → no_overwrite w2 w3 → no_overwrite w1 w3.
Proof.
  intros [Hf1 [es1 [Ht1 Hc1]]] [Hf2 [es2 [Ht2 Hc2]]]. split; [by auto|].
  exists (es1 ++ es2)%list. split; [by rewrite Ht2, Ht1, app_assoc|].
  intros src dst [Hin|Hin]%elem_of_app; [by eapply Hc1|].
  specialize (Hc2 src dst Hin).
  destruct (files w1 !! dst) as [c|] eqn:Hd; [|done].
  apply Hf1 in Hd. congruence.
Qed.

Lemma no_overwrite_add_trace (es : list effect) (w : World) :
  (∀ src dst, CopyFile src dst ∈ es → False) →
  no_overwrite w (add_trace es w).
Proof.
  intros Hes. split; [done|]. exists es. split; [done|].
  intros src dst Hin. by destruct (Hes src dst).
Qed.

Lemma no_overwrite_mkdir_p (d : string) (w : World) :
  no_overwrite w (fst (mkdir_p d w)).
Proof.
  unfold mkdir_p. cbn zeta. destruct (is_dir w d); [apply no_overwrite_refl|].
  destruct (is_file w d); [apply no_overwrite_refl|].
  destruct (existsb _ _); [apply no_overwrite_refl|].
  split; [done|]. exists []. split; [by rewrite app_nil_r|].
  intros src dst Hin. by apply elem_of_nil in Hin.
Qed.

Lemma no_overwrite_copyfile (src dst : string) (w : World) :
  files w !! dst = None →
  no_overwrite w (fst (copyfile src dst w)).
Proof.
  intros Hdst. unfold copyfile.
  destruct (bool_decide (src = dst) && _); [apply no_overwrite_refl|].
  destruct (files w !! src) as [c|];
    [|destruct (is_dir w src); apply no_overwrite_refl].
  destruct (is_dir w dst); [apply no_overwrite_refl|].
  destruct (is_file w (path_parent dst)); [apply no_overwrite_refl|].
  destruct (negb (is_dir w (path_parent dst))); [apply no_overwrite_refl|].
  split.
  - intros p c' Hp. cbn. rewrite lookup_insert_ne; [done|]. congruence.
  - exists [CopyFile src dst]. split; [done|].
    intros src' dst' Hin. apply list_elem_of_singleton in Hin.
    by injection Hin as -> ->.
Qed.

Lemma no_overwrite_print (line : string) (w : World) :
  no_overwrite w (fst (print line w)).
Proof.
  apply no_overwrite_add_trace. intros src dst Hin.
  apply list_elem_of_singleton in Hin. discriminate.
Qed.

Lemma no_overwrite_emit (e : effect) (w : World) :
  (∀ src dst, e ≠ CopyFile src dst) →
  no_overwrite w (fst (emit e w)).
Proof.
  intros He. apply no_overwrite_add_trace. intros src dst Hin.
  apply list_elem_of_singleton in Hin. by eapply He.
Qed.

Lemma is_file_false (w : World) (p : string) :
  is_file w p || is_dir w p = false → files w !! p = None.
Proof.
  intros [Hf _]%orb_false_elim. unfold is_file in Hf.
  apply bool_decide_eq_false in Hf.
  destruct (files w !! p); [|done]. destruct Hf. by eexists.
Qed.

(** The guarded copy of [modernize_exp_dir] with the refresh flag unset. *)
Lemma no_overwrite_guarded_copy {B} (src dst msg1 msg2 : string)
    (k : unit → M B) (w : World) :
  (∀ w1, no_overwrite w1 (fst (k tt w1))) →
  no_overwrite w
    (fst ((found ← path_exists dst ;
           (if negb found || false
            then print msg1 ;; copyfile src dst
            else print msg2) ≫= k) w)).
Proof.
  intros Hk.
  apply frame_bind; [apply no_overwrite_trans|apply no_overwrite_refl|].
  intros found Hfound. cbn [path_exists fst snd] in *. injection Hfound as <-.
  apply frame_bind; [apply no_overwrite_trans| |by intros []].
  destruct (is_file w dst || is_dir w dst) eqn:Hex; cbn [negb orb].
  - apply no_overwrite_print.
  - apply frame_bind; [apply no_overwrite_trans|apply no_overwrite_print|].
    intros _ _. apply no_overwrite_copyfile. cbn. by apply is_file_false.
Qed.

Lemma no_overwrite_parse_tboard_files (d : string) (w : World) :
  no_overwrite w (fst (parse_tboard_files d w)).
Proof.
  destruct (parse_tboard_files_trace d w) as [rows ->].
  apply no_overwrite_add_trace. intros src dst Hin.
  apply list_elem_of_fmap in Hin as [row [Heq _]]. discriminate.
Qed.

Lemma no_overwrite_logger_info_all (logger : string) (rows : list string)
    (w : World) :
  no_overwrite w (fst (logger_info_all logger rows w)).
Proof.
  rewrite logger_info_all_trace. apply no_overwrite_add_trace.
  intros src dst Hin.
  apply list_elem_of_fmap in Hin as [row [Heq _]]. discriminate.
Qed.

Lemma no_overwrite_modernize_exp (checkpoints : gmap string Checkpoint)
    (save_dir key : string) (w : World) :
  no_overwrite w (fst (modernize_exp checkpoints save_dir false key w)).
Proof.
  unfold modernize_exp.
  apply frame_bind; [apply no_overwrite_trans| |].
  { rewrite ckpt_field_world. apply no_overwrite_refl. }
  intros rel_dir _. rewrite ckpt_field_world. cbn zeta.
  apply frame_bind; [apply no_overwrite_trans|apply no_overwrite_mkdir_p|].
  intros _ _. generalize (fst (mkdir_p
    (path_parent (save_dir // "models" // key // split_last rel_dir // "config.json")) w)).
  clear w. intros w.
  apply no_overwrite_guarded_copy. clear w. intros w.
  apply no_overwrite_guarded_copy. clear w. intros w.
  apply frame_bind; [apply no_overwrite_trans|apply no_overwrite_refl|].
  intros log_found _. cbn [path_exists fst].
  destruct (negb log_found || false); [|apply no_overwrite_print].
  apply frame_bind;
    [apply no_overwrite_trans|apply no_overwrite_parse_tboard_files|].
  intros generated_log _.
  generalize (fst (parse_tboard_files rel_dir w)). clear w. intros w.
  apply frame_bind; [apply no_overwrite_trans|apply no_overwrite_mkdir_p|].
  intros _ _.
  match goal with |- no_overwrite (fst ?x) _ => generalize (fst x) end.
  clear w. intros w.
  apply frame_bind; [apply no_overwrite_trans|by apply no_overwrite_emit|].
  intros _ _.
  match goal with |- no_overwrite (fst ?x) _ => generalize (fst x) end.
  clear w. intros w.
  apply frame_bind;
    [apply no_overwrite_trans|by apply no_overwrite_logger_info_all|].
  intros _ _.
  match goal with |- no_overwrite (fst ?x) _ => generalize (fst x) end.
  clear w. intros w.
  by apply no_overwrite_emit.
Qed.

(** C6: with the refresh flag unset, [modernize_exp_dir] never writes over
    a file that exists: every file present before the run is present after
    it with the same content, and no copy made during the run has a
    destination that was a file before the run.  So a config or a model that
    is already at its destination is neither copied nor changed. *)
Theorem C6_no_overwrite_without_refresh (experiments : list string)
    (checkpoints : gmap string Checkpoint) (save_dir : string) (w : World) :
  let w' := fst (modernize_exp_dir experiments checkpoints save_dir false w) in
  (∀ p c, files w !! p = Some c → files w' !! p = Some c)
  ∧ ∃ es, trace w' = (trace w ++ es)%list
          ∧ ∀ src dst, CopyFile src dst ∈ es → files w !! dst = None.
Proof.
  cbn zeta. change (no_overwrite w
    (fst (modernize_exp_dir experiments checkpoints save_dir false w))).
  revert w.
  apply (frame_loop no_overwrite no_overwrite_refl no_overwrite_trans
           (modernize_exp checkpoints save_dir false)
           (fun keys => modernize_exp_dir keys checkpoints save_dir false)).
  - reflexivity.
  - reflexivity.
  - intros key w. apply no_overwrite_modernize_exp.
Qed.

(** *** The arguments of the evaluation *)

Lemma quiet_refl (w : World) : quiet w w.
Proof. exists []. split; [by rewrite app_nil_r|constructor]. Qed.

Lemma quiet_trans (w1 w2 w3 : World) : quiet w1 w2 → quiet w2 w3 → quiet w1 w3.
Proof.
  intros [es1 [Ht1 Hq1]] [es2 [Ht2 Hq2]]. exists (es1 ++ es2)%list.
  split; [by rewrite Ht2, Ht1, app_assoc|]. by apply Forall_app.
Qed.

Lemma quiet_bind {A B} (m : M A) (k : A → M B) (w : World) :
  quiet w (fst (m w)) →
  (∀ a w1, quiet w1 (fst (k a w1))) →
  quiet w (fst ((m ≫= k) w)).
Proof.
  intros Hm Hk. apply frame_bind; [apply quiet_trans|done|]. intros; apply Hk.
Qed.

Lemma quiet_same_trace (w w' : World) : trace w' = trace w → quiet w w'.
Proof.
  intros Ht. exists []. split; [by rewrite app_nil_r|constructor].
Qed.

Lemma quiet_emit (e : effect) (w : World) : no_eval e → quiet w (fst (emit e w)).
Proof. intros He. exists [e]. split; [done|]. by repeat constructor. Qed.

Lemma quiet_mkdir_p (d : string) (w : World) : quiet w (fst (mkdir_p d w)).
Proof.
  apply quiet_same_trace. unfold mkdir_p. cbn zeta.
  destruct (is_dir w d); [done|]. destruct (is_file w d); [done|].
  by destruct (existsb _ _).
Qed.

Lemma quiet_copyfile (src dst : string) (w : World) :
  quiet w (fst (copyfile src dst w)).
Proof.
  unfold copyfile.
  destruct (bool_decide (src = dst) && _); [apply quiet_refl|].
  destruct (files w !! src);
    [|destruct (is_dir w src); apply quiet_refl].
  destruct (is_dir w dst); [apply quiet_refl|].
  destruct (is_file w (path_parent dst)); [apply quiet_refl|].
  destruct (negb (is_dir w (path_parent dst))); [apply quiet_refl|].
  exists [CopyFile src dst]. split; [done|]. by repeat constructor.
Qed.

Lemma quiet_unlink (p : string) (w : World) : quiet w (fst (unlink p w)).
Proof.
  unfold unlink.
  destruct (files w !! p); [|destruct (is_dir w p); apply quiet_refl].
  exists [Unlink p]. split; [done|]. by repeat constructor.
Qed.

Lemma quiet_parse_tboard_files (d : string) (w : World) :
  quiet w (fst (parse_tboard_files d w)).
Proof.
  destruct (parse_tboard_files_trace d w) as [rows ->].
  exists (map Printed rows). split; [done|].
  apply Forall_fmap, Forall_true. by intros row.
Qed.

Lemma quiet_logger_info_all (logger : string) (rows : list string) (w : World) :
  quiet w (fst (logger_info_all logger rows w)).
Proof.
  rewrite logger_info_all_trace.
  exists (map (LoggerInfo logger) rows). split; [done|].
  apply Forall_fmap, Forall_true. by intros row.
Qed.

Lemma read_lines_world (p : string) (w : World) : fst (read_lines p w) = w.
Proof.
  unfold read_lines. destruct (files w !! p); [done|]. by destruct (is_dir w p).
Qed.

Lemma parse_old_log_world (log_path config_path : string) (N : Z) (w : World) :
  fst (parse_old_log log_path config_path N w) = w.
Proof.
  unfold parse_old_log, mbind, M_bind, bind.
  pose proof (read_lines_world config_path w) as Hc.
  destruct (read_lines config_path w) as [w1 [config|e]]; simpl in Hc; subst w1;
    [|done].
  pose proof (read_lines_world log_path w) as Hl.
  destruct (read_lines log_path w) as [w1 [log|e]]; simpl in Hl; subst w1;
    [|done].
  cbn zeta.
  destruct (sum_bools _ =? 1)%Z; [|done]. cbn [assert]. cbn beta iota.
  unfold ret, raise.
  destruct (where_ _) as [|pos [|? ?]]; try done.
  by destruct (log !! (pos + 1)%nat).
Qed.

Ltac quiet_step :=
  lazymatch goal with
  | |- quiet _ (fst ((_ ≫= _) _)) => apply quiet_bind; [|intros ? ?]
  | |- quiet _ (fst ((if ?b then _ else _) _)) => destruct b
  | |- quiet _ (fst ((let _ := _ in _) _)) => cbn zeta
  | |- quiet _ (fst (ckpt_field _ _ _ _ _)) =>
      rewrite ckpt_field_world; apply quiet_refl
  | |- quiet _ (fst (assert _ _ _)) => rewrite assert_world; apply quiet_refl
  | |- quiet _ (fst (path_exists _ _)) => apply quiet_refl
  | |- quiet _ (fst (mkdir_p _ _)) => apply quiet_mkdir_p
  | |- quiet _ (fst (copyfile _ _ _)) => apply quiet_copyfile
  | |- quiet _ (fst (unlink _ _)) => apply quiet_unlink
  | |- quiet _ (fst (print _ _)) => apply quiet_emit; exact I
  | |- quiet _ (fst (emit _ _)) => apply quiet_emit; exact I
  | |- quiet _ (fst (parse_tboard_files _ _)) => apply quiet_parse_tboard_files
  | |- quiet _ (fst (parse_old_log _ _ _ _)) =>
      rewrite parse_old_log_world; apply quiet_refl
  | |- quiet _ (fst (logger_info_all _ _ _)) => apply quiet_logger_info_all
  end.

Lemma ends_quiet (args : EvalArgs) (logger : string) (w w' : World) :
  quiet w w' → ends_with_eval args logger w w'.
Proof. intros [es [Ht Hq]]. exists es. by split; [|left]. Qed.

Lemma ends_bind {A B} (args : EvalArgs) (logger : string)
    (m : M A) (k : A → M B) (w : World) :
  quiet w (fst (m w)) →
  (∀ a w1, ends_with_eval args logger w1 (fst (k a w1))) →
  ends_with_eval args logger w (fst ((m ≫= k) w)).
Proof.
  intros [es1 [Ht1 Hq1]] Hk. unfold mbind, M_bind, bind.
  destruct (m w) as [w1 [a|e]]; simpl in *.
  - destruct (Hk a w1) as [es2 [Ht2 Hend]].
    exists (es1 ++ es2)%list. split; [by rewrite Ht2, Ht1, app_assoc|].
    destruct Hend as [Hq2|(es0 & log & -> & Hq0)].
    + left. by apply Forall_app.
    + right. exists (es1 ++ es0)%list, log.
      split; [by rewrite app_assoc|]. by apply Forall_app.
  - exists es1. by split; [|left].
Qed.

Lemma ends_final (args : EvalArgs) (logger : string) (log : list string)
    (w : World) :
  ends_with_eval args logger w
    (fst ((logger_info_all logger log ;; emit (Evaluation args logger)) w)).
Proof.
  unfold mbind, M_bind, bind. rewrite logger_info_all_trace, emit_add_trace.
  rewrite add_trace_app.
  exists (map (LoggerInfo logger) log ++ [Evaluation args logger])%list.
  split; [done|]. right. exists [], log. split; [done|constructor].
Qed.

Lemma ends_with_eval_elem (args a : EvalArgs) (logger l : string)
    (w w' : World) :
  ends_with_eval args logger w w' →
  Evaluation a l ∈ new_events w w' →
  a = args ∧ l = logger
  ∧ ∃ es0 log,
      new_events w w' =
        (es0 ++ map (LoggerInfo logger) log ++ [Evaluation args logger])%list.
Proof.
  intros [es [Ht Hend]] Hin. unfold new_events in *.
  rewrite Ht, drop_app_length in *.
  destruct Hend as [Hq|(es0 & log & -> & Hq0)].
  - rewrite Forall_forall in Hq. by destruct (Hq _ Hin).
  - apply elem_of_app in Hin as [Hin|Hin].
    { rewrite Forall_forall in Hq0. by destruct (Hq0 _ Hin). }
    apply elem_of_app in Hin as [Hin|Hin].
    { apply list_elem_of_fmap in Hin as [row [Heq _]]. discriminate. }
    apply list_elem_of_singleton in Hin. injection Hin as -> ->.
    split; [done|]. split; [done|]. by exists es0, log.
Qed.

Lemma ret_bind {A B} (a : A) (k : A → M B) (w : World) :
  (ret a ≫= k) w = k a w.
Proof. reflexivity. Qed.

Lemma modernize_exp_ends (checkpoints : gmap string Checkpoint)
    (save_dir : string) (refresh : bool) (key : string) (w : World)
    (entry : Checkpoint) (rel_dir : string) :
  checkpoints !! key = Some entry →
  timestamp entry = Some rel_dir →
  ends_with_eval
    {| arg_config := save_dir // "models" // key // split_last rel_dir // "config.json";
       arg_device := "0"; arg_mini_eval := 1;
       arg_resume := rel_dir // "model_best.pth" |}
    "tboard-parser" w
    (fst (modernize_exp checkpoints save_dir refresh key w)).
Proof.
  intros Hentry Hts. unfold modernize_exp, ckpt_field. rewrite Hentry, Hts.
  cbn beta iota. rewrite ret_bind. cbn beta zeta.
  do 3 (apply ends_bind; [repeat quiet_step|intros ? ?]).
  apply ends_bind; [repeat quiet_step|intros ? ?].
  apply ends_bind; [repeat quiet_step|intros ? ?].
  apply ends_bind; [repeat quiet_step|intros log_found ?].
  destruct (negb log_found || refresh);
    [|apply ends_quiet; repeat quiet_step].
  do 3 (apply ends_bind; [repeat quiet_step|intros ? ?]).
  apply ends_final.
Qed.

Lemma standardize_exp_ends (save_dir : string)
    (checkpoints : gmap string Checkpoint) (refresh : bool) (key : string)
    (w : World) (entry : Checkpoint) (ts : string) (ep : Z) :
  checkpoints !! key = Some entry →
  timestamp entry = Some ts →
  epoch entry = Some ep →
  ends_with_eval
    {| arg_config := save_dir // "models" // key // ts // "config.json";
       arg_device := "3"; arg_mini_eval := 1;
       arg_resume := save_dir // "models" // key // ts //
                     ("checkpoint-epoch" +:+ str_of_int ep +:+ ".pth") |}
    "log-gen" w
    (fst (standardize_exp save_dir checkpoints refresh key w)).
Proof.
  intros Hentry Hts Hep. unfold standardize_exp, ckpt_field.
  rewrite Hentry, Hts, Hep.
  cbn beta iota. rewrite ret_bind. cbn beta iota. rewrite ret_bind.
  cbn beta zeta.
  do 7 (apply ends_bind; [repeat quiet_step|intros ? ?]).
  match goal with
  | |- context [if ?b then _ else _] => destruct b
  end; [|apply ends_quiet; repeat quiet_step].
  do 4 (apply ends_bind; [repeat quiet_step|intros ? ?]).
  apply ends_final.
Qed.

(** C3 (amended): whenever a pipeline calls the evaluation routine for an
    experiment, the call is the last effect of that experiment's step and
    follows the rows written to the logger; its config argument is the config
    file at the canonical location.  Its resume argument is, in
    [standardize_exp_dir], the checkpoint of the given epoch at the canonical
    location, and in [modernize_exp_dir] the file [model_best.pth] of the
    source directory, not the copy made of it. *)
Theorem C3_evaluation_arguments (checkpoints : gmap string Checkpoint)
    (save_dir : string) (refresh : bool) (key : string) (w : World)
    (args : EvalArgs) (logger : string) :
  (Evaluation args logger
     ∈ new_events w (fst (modernize_exp checkpoints save_dir refresh key w)) →
   ∃ entry rel_dir,
     checkpoints !! key = Some entry ∧ timestamp entry = Some rel_dir ∧
     logger = "tboard-parser" ∧
     arg_config args
       = save_dir // "models" // key // split_last rel_dir // "config.json" ∧
     arg_resume args = rel_dir // "model_best.pth" ∧
     ∃ es0 log,
       new_events w (fst (modernize_exp checkpoints save_dir refresh key w)) =
         (es0 ++ map (LoggerInfo logger) log ++ [Evaluation args logger])%list)
  ∧ (Evaluation args logger
       ∈ new_events w (fst (standardize_exp save_dir checkpoints refresh key w)) →
     ∃ entry ts ep,
       checkpoints !! key = Some entry ∧ timestamp entry = Some ts ∧
       epoch entry = Some ep ∧
       logger = "log-gen" ∧
       arg_config args = save_dir // "models" // key // ts // "config.json" ∧
       arg_resume args
         = save_dir // "models" // key // ts //
             ("checkpoint-epoch" +:+ str_of_int ep +:+ ".pth") ∧
       ∃ es0 log,
         new_events w (fst (standardize_exp save_dir checkpoints refresh key w)) =
           (es0 ++ map (LoggerInfo logger) log ++ [Evaluation args logger])%list).
Proof.
  assert (Hnone : ∀ w' : World, w' = w → Evaluation args logger ∈ new_events w w' → False).
  { intros w' -> Hin. unfold new_events in Hin.
    rewrite drop_all in Hin. by apply elem_of_nil in Hin. }
  split; intros Hin.
  - destruct (checkpoints !! key) as [entry|] eqn:Hentry.
    2:{ exfalso. apply (Hnone _ eq_refl).
        unfold modernize_exp, ckpt_field in Hin. by rewrite Hentry in Hin. }
    destruct (timestamp entry) as [rel_dir|] eqn:Hts.
    2:{ exfalso. apply (Hnone _ eq_refl).
        unfold modernize_exp, ckpt_field in Hin. by rewrite Hentry, Hts in Hin. }
    pose proof (modernize_exp_ends checkpoints save_dir refresh key w
                  entry rel_dir Hentry Hts) as Hends.
    destruct (ends_with_eval_elem _ _ _ _ _ _ Hends Hin)
      as (-> & -> & es0 & log & Hnew).
    exists entry, rel_dir. repeat (split; [done|]). by exists es0, log.
  - destruct (checkpoints !! key) as [entry|] eqn:Hentry.
    2:{ exfalso. apply (Hnone _ eq_refl).
        unfold standardize_exp, ckpt_field in Hin. by rewrite Hentry in Hin. }
    destruct (timestamp entry) as [ts|] eqn:Hts.
    2:{ exfalso. apply (Hnone _ eq_refl).
        unfold standardize_exp, ckpt_field in Hin. by rewrite Hentry, Hts in Hin. }
    destruct (epoch entry) as [ep|] eqn:Hep.
    2:{ exfalso. apply (Hnone _ eq_refl).
        unfold standardize_exp, ckpt_field in Hin.
        by rewrite Hentry, Hts, Hep in Hin. }
    pose proof (standardize_exp_ends save_dir checkpoints refresh key w
                  entry ts ep Hentry Hts Hep) as Hends.
    destruct (ends_with_eval_elem _ _ _ _ _ _ Hends Hin)
      as (-> & -> & es0 & log & Hnew).
    exists entry, ts, ep. repeat (split; [done|]). by exists es0, log.
Qed.

(** *** Re-running without the refresh flag *)

Lemma modernize_exp_skip (checkpoints : gmap string Checkpoint)
    (save_dir key : string) (w : World) :
  modernized checkpoints save_dir w key →
  dirs_closed w →
  ∃ l1 l2 l3,
    modernize_exp checkpoints save_dir false key w =
      (add_trace (map Printed [l1; l2; l3]) w, Ok tt).
Proof.
  intros (entry & rel_dir & Hentry & Hts & Hconfig & Hmodel & Hlog) Hclosed.
  assert (Hdir : is_dir w (path_parent
            (save_dir // "models" // key // split_last rel_dir // "config.json"))
          = true).
  { apply bool_decide_eq_true in Hconfig as [c Hc].
    apply bool_decide_eq_true. exact (Hclosed _ _ Hc). }
  do 3 eexists.
  unfold modernize_exp, ckpt_field. rewrite Hentry, Hts.
  unfold mbind, M_bind, bind, mret, M_ret, ret. cbn zeta.
  unfold mkdir_p. rewrite Hdir.
  unfold path_exists. rewrite Hconfig. cbn [orb negb].
  unfold print at 1. rewrite emit_add_trace.
  change (is_file (add_trace ?es w) ?p) with (is_file w p).
  rewrite Hmodel. cbn [orb negb].
  unfold print at 1. rewrite emit_add_trace.
  change (is_file (add_trace ?es (add_trace ?es' w)) ?p) with (is_file w p).
  rewrite Hlog. cbn [orb negb].
  unfold print. rewrite emit_add_trace, !add_trace_app.
  reflexivity.
Qed.

Lemma standardize_exp_skip (save_dir : string)
    (checkpoints : gmap string Checkpoint) (key : string) (w : World) :
  standardized save_dir checkpoints w key →
  ∃ l1, standardize_exp save_dir checkpoints false key w =
          (add_trace (map Printed [l1]) w, Ok tt).
Proof.
  intros (entry & ts & ep & Hentry & Hts & Hep & Hlog & Hconfig & Hmodel & Hbackup).
  eexists.
  unfold standardize_exp, ckpt_field. rewrite Hentry, Hts, Hep.
  unfold mbind, M_bind, bind, mret, M_ret, ret. cbn zeta.
  unfold path_exists, assert, ret.
  rewrite Hlog. cbn [orb]. cbn beta iota.
  rewrite Hconfig. cbn [orb]. cbn beta iota.
  rewrite Hmodel. cbn [orb]. cbn beta iota.
  rewrite Hbackup. cbn [orb negb]. reflexivity.
Qed.

(** C7: a second run without the refresh flag changes nothing.  When the
    artifacts of every experiment are in place (for [modernize_exp_dir] the
    copied config, the copied model and the generated log; for
    [standardize_exp_dir] the backup log next to the files the pipeline
    asserts), the run returns normally and the world after it is the world
    before it with printed lines added to the trace: no file or directory
    is created, changed or removed, nothing is copied, no log row is written
    and no evaluation is run. *)
Theorem C7_rerun_without_refresh_is_noop :
  (∀ (experiments : list string) (checkpoints : gmap string Checkpoint)
     (save_dir : string) (w : World),
     (∀ key, key ∈ experiments → modernized checkpoints save_dir w key) →
     dirs_closed w →
     ∃ lines,
       modernize_exp_dir experiments checkpoints save_dir false w =
         (add_trace (map Printed lines) w, Ok tt))
  ∧ (∀ (experiments : list string) (save_dir : string)
       (checkpoints : gmap string Checkpoint) (w : World),
       (∀ key, key ∈ experiments → standardized save_dir checkpoints w key) →
       ∃ lines,
         standardize_exp_dir experiments save_dir checkpoints false w =
           (add_trace (map Printed lines) w, Ok tt)).
Proof.
  split.
  - intros experiments checkpoints save_dir.
    induction experiments as [|key rest IH]; intros w Hall Hclosed.
    + exists []. cbn. by rewrite add_trace_nil.
    + destruct (modernize_exp_skip checkpoints save_dir key w)
        as (l1 & l2 & l3 & Hstep); [apply Hall; left|done|].
      destruct (IH (add_trace (map Printed [l1; l2; l3]) w)) as [lines Hrest].
      { intros k Hk. apply (Hall k). by right. }
      { exact Hclosed. }
      exists ([l1; l2; l3] ++ lines)%list.
      cbn [modernize_exp_dir]. unfold mbind, M_bind, bind.
      rewrite Hstep, Hrest, add_trace_app, map_app. reflexivity.
  - intros experiments save_dir checkpoints.
    induction experiments as [|key rest IH]; intros w Hall.
    + exists []. cbn. by rewrite add_trace_nil.
    + destruct (standardize_exp_skip save_dir checkpoints key w)
        as (l1 & Hstep); [apply Hall; left|].
      destruct (IH (add_trace (map Printed [l1]) w)) as [lines Hrest].
      { intros k Hk. apply (Hall k). by right. }
      exists ([l1] ++ lines)%list.
      cbn [standardize_exp_dir]. unfold mbind, M_bind, bind.
      rewrite Hstep, Hrest, add_trace_app, map_app. reflexivity.
Qed.

(** *** The backup of the legacy log *)

Lemma append_backup_ne (p : string) : p +:+ ".backup" ≠ p.
Proof.
  induction p as [|a p IH]; [discriminate|].
  intros [= Heq]. by apply IH.
Qed.

(** When [standardize_exp] regenerates a log and returns, the copy to the
    backup came first and the deletion second: the backup holds what the log
    file held before the step, and the log file is gone. *)
Lemma standardize_exp_backs_up (save_dir : string)
    (checkpoints : gmap string Checkpoint) (refresh : bool) (key : string)
    (w : World) (entry : Checkpoint) (ts : string) (ep : Z) :
  checkpoints !! key = Some entry →
  timestamp entry = Some ts →
  epoch entry = Some ep →
  let log_path := save_dir // "log" // key // ts // "info.log" in
  let backup := log_path +:+ ".backup" in
  negb (is_file w backup || is_dir w backup) || refresh = true →
  snd (standardize_exp save_dir checkpoints refresh key w) = Ok tt →
  is_Some (files w !! log_path)
  ∧ files (fst (standardize_exp save_dir checkpoints refresh key w)) !! backup
      = files w !! log_path
  ∧ files (fst (standardize_exp save_dir checkpoints refresh key w)) !! log_path
      = None
  ∧ ∃ rest,
      new_events w (fst (standardize_exp save_dir checkpoints refresh key w))
        = CopyFile log_path backup :: Unlink log_path :: rest.
Proof.
  intros Hentry Hts Hep log_path backup Hbranch.
  unfold standardize_exp, ckpt_field. rewrite Hentry, Hts, Hep.
  cbn beta iota. rewrite ret_bind. cbn beta iota. rewrite ret_bind.
  cbn beta zeta. fold log_path. fold backup.
  unfold mbind, M_bind, bind, path_exists, assert, ret, raise.
  destruct (is_file w log_path || is_dir w log_path); [|by intros [=]].
  cbn beta iota.
  destruct (is_file w (save_dir // "models" // key // ts // "config.json")
            || is_dir w (save_dir // "models" // key // ts // "config.json"));
    [|by intros [=]].
  cbn beta iota.
  destruct (is_file w (save_dir // "models" // key // ts //
                       ("checkpoint-epoch" +:+ str_of_int ep +:+ ".pth"))
            || is_dir w (save_dir // "models" // key // ts //
                         ("checkpoint-epoch" +:+ str_of_int ep +:+ ".pth")));
    [|by intros [=]].
  cbn beta iota.
  rewrite Hbranch.
  unfold copyfile.
  destruct (bool_decide (log_path = backup) && _); [by intros [=]|].
  destruct (files w !! log_path) as [c|] eqn:Hlog;
    [|destruct (is_dir w log_path); by intros [=]].
  destruct (is_dir w backup); [by intros [=]|].
  destruct (is_file w (path_parent backup)); [by intros [=]|].
  destruct (negb (is_dir w (path_parent backup))); [by intros [=]|].
  rewrite emit_add_trace. cbn beta iota.
  match goal with
  | |- context [parse_old_log backup ?cfg ep ?w1] =>
      pose proof (parse_old_log_world backup cfg ep w1) as Hworld;
      destruct (parse_old_log backup cfg ep w1) as [w2 [generated_log|e]]
  end; cbn [fst] in Hworld; subst w2; [|by intros [=]].
  unfold unlink. cbn [files add_trace set_files].
  rewrite lookup_insert_ne by (apply append_backup_ne).
  rewrite Hlog. rewrite !emit_add_trace. cbn beta iota.
  rewrite logger_info_all_trace. cbn beta iota.
  intros _. rewrite emit_add_trace. cbn [fst files add_trace set_files].
  split; [by eexists|].
  split; [rewrite lookup_delete_ne by (apply not_eq_sym, append_backup_ne);
          by rewrite lookup_insert_eq|].
  split; [by rewrite lookup_delete_eq|].
  unfold new_events. cbn [trace add_trace set_files].
  rewrite <- !app_assoc, drop_app_length. cbn [app]. by eexists.
Qed.

End PipelineFacts.

(** ** The properties on concrete runs *)

Section ConcreteRuns.

(** On the short stream the dominant tag gives rows at steps 2000 and 4000
    only (the record written at step 0 has no [step] key), and the other
    tags a row at each of their steps. *)
Example demo_file_rows :
  snd (parse_tboard_files "run" (one_file_world "run" demo_file)) =
    Ok [ "This log was generated from tensorboard file events.out.tfevents.1";
         "t1 step: 1, val/acc: 0.1";
         "t2 step: 2000, train/loss: 0.5";
         "t3 step: 2001, val/acc: 0.2,val/iou: 0.3";
         "t4 step: 4000, train/loss: 0.4" ].
Proof. reflexivity. Qed.

Lemma C1_subsampling_witness :
  tfevents (one_file_world "run" demo_file) "run" = [demo_file]
  ∧ records demo_file =
      (take 4 (records demo_file)
         ++ scalar_event "t3" 2001 ("val/acc", "0.2") [("val/iou", "0.3")]
         :: drop 5 (records demo_file))%list
  ∧ (length (take 4 (records demo_file)) < 1000)%nat
  ∧ snd (decode (take 1000 (records demo_file))) = None
  ∧ snd (parse_tboard_files "run" (one_file_world "run" demo_file)) =
      Ok (tboard_header demo_file ::
            fst (decode (take 4 (records demo_file)))
            ++ (if negb (2001 =? 0)%Z && kept 2001 "val/acc"
                then [scalar_row "t3" 2001 ("val/acc", "0.2") [("val/iou", "0.3")]]
                else [])
            ++ fst (decode (take (999 - length (take 4 (records demo_file)))
                              (drop 5 (records demo_file)))))%list
  ∧ records demo_file =
      ([] ++ scalar_event "t0" 0 ("train/loss", "0.9") []
          :: drop 1 (records demo_file))%list
  ∧ snd (parse_tboard_files "run" (one_file_world "run" demo_file)) =
      Ok (tboard_header demo_file ::
            fst (decode [])
            ++ (if negb (0 =? 0)%Z && kept 0 "train/loss"
                then [scalar_row "t0" 0 ("train/loss", "0.9") []]
                else [])
            ++ fst (decode (take (999 - length (@nil Event))
                              (drop 1 (records demo_file)))))%list.
Proof.
  split; [reflexivity|]. split; [reflexivity|]. split; [simpl; lia|].
  split; [reflexivity|]. split; [|split; [reflexivity|]].
  - apply (C1_subsampling_within_cap "run" (one_file_world "run" demo_file)
             demo_file (take 4 (records demo_file)) (drop 5 (records demo_file))
             "t3" 2001 ("val/acc", "0.2") [("val/iou", "0.3")]).
    + reflexivity.
    + reflexivity.
    + simpl. lia.
    + reflexivity.
  - apply (C1_subsampling_within_cap "run" (one_file_world "run" demo_file)
             demo_file [] (drop 1 (records demo_file))
             "t0" 0 ("train/loss", "0.9") []).
    + reflexivity.
    + reflexivity.
    + simpl. lia.
    + reflexivity.
Defined.

(** C1 as stated fails in two ways.  Beyond the cap: the last record of
    [long_file] is a record of scalars with a step and a tag other than
    [train/loss], yet the returned log has no line for it.  At step 0: the
    first record of [demo_file] is a record of the dominant tag written at
    step 0, a multiple of 2000, yet the log has rows for steps 2000 and 4000
    only; a record of another tag written at step 0 gets no row either. *)
Lemma C1_counterexample_cap_and_step_zero :
  (late_event ∈ records long_file
   ∧ late_event = scalar_event "t9" 7 ("val/acc", "0.5") []
   ∧ kept 7 "val/acc" = true
   ∧ snd (parse_tboard_files "run" (one_file_world "run" long_file)) =
       Ok [tboard_header long_file])
  ∧ (records demo_file !! 0%nat
       = Some (scalar_event "t0" 0 ("train/loss", "0.9") [])
     ∧ kept 0 "train/loss" = true
     ∧ snd (parse_tboard_files "run" (one_file_world "run" demo_file)) =
         Ok [ tboard_header demo_file;
              scalar_row "t1" 1 ("val/acc", "0.1") [];
              scalar_row "t2" 2000 ("train/loss", "0.5") [];
              scalar_row "t3" 2001 ("val/acc", "0.2") [("val/iou", "0.3")];
              scalar_row "t4" 4000 ("train/loss", "0.4") [] ])
  ∧ (kept 0 "val/acc" = true
     ∧ snd (parse_tboard_files "run"
              (one_file_world "run"
                 {| name := "events.out.tfevents.1";
                    records := [scalar_event "t0" 0 ("val/acc", "0.1") []];
                    data_loss := None |})) =
         Ok ["This log was generated from tensorboard file events.out.tfevents.1"]).
Proof.
  split; [|split].
  - split; [|split; [reflexivity|split; [reflexivity|by vm_compute]]].
    unfold long_file. cbn [records]. apply elem_of_app. right. constructor.
  - split; [reflexivity|]. split; [reflexivity|]. by vm_compute.
  - split; [reflexivity|]. by vm_compute.
Qed.

Lemma C4_record_cap_witness :
  tfevents (one_file_world "run" long_file) "run" = [long_file]
  ∧ tfevents (one_file_world "other" capped_file) "other" = [capped_file]
  ∧ name long_file = name capped_file
  ∧ take 1000 (records long_file) = take 1000 (records capped_file)
  ∧ snd (parse_tboard_files "run" (one_file_world "run" long_file))
      = snd (parse_tboard_files "other" (one_file_world "other" capped_file))
  ∧ (consumed 1000 (records long_file) ≤ 1001)%nat
  ∧ ∀ log, snd (parse_tboard_files "run" (one_file_world "run" long_file)) = Ok log →
           (length log ≤ 1001)%nat.
Proof.
  split; [reflexivity|]. split; [reflexivity|]. split; [reflexivity|].
  split; [by vm_compute|].
  apply (C4_record_cap "run" "other" (one_file_world "run" long_file)
           (one_file_world "other" capped_file) long_file capped_file).
  - reflexivity.
  - reflexivity.
  - reflexivity.
  - by vm_compute.
Defined.

Lemma C8_data_loss_witness :
  (tfevents (one_file_world "run" corrupt_file) "run" = [corrupt_file]
   ∧ data_loss corrupt_file = Some "truncated record at 4096."
   ∧ (length (records corrupt_file) ≤ 1000)%nat
   ∧ snd (decode (records corrupt_file)) = None
   ∧ parse_tboard_files "run" (one_file_world "run" corrupt_file) =
       (add_trace
          (map Printed (fst (decode (records corrupt_file))) ++
           [Printed "truncated record at 4096. Could not parse any further information";
            Printed "parsed 6 summaries"])
          (one_file_world "run" corrupt_file),
        Ok (tboard_header corrupt_file :: fst (decode (records corrupt_file)))))
  ∧ (tfevents (one_file_world "run" broken_file) "run" = [broken_file]
     ∧ snd (decode (take 1000 (records broken_file))) = Some (KeyError "wall_time")
     ∧ snd (parse_tboard_files "run" (one_file_world "run" broken_file))
         = Raise (KeyError "wall_time")).
Proof.
  split.
  - split; [reflexivity|]. split; [reflexivity|]. split; [simpl; lia|].
    split; [reflexivity|].
    destruct (C8_data_loss_is_end_of_stream "run"
                (one_file_world "run" corrupt_file) corrupt_file eq_refl)
      as [Hloss _].
    apply (Hloss "truncated record at 4096."); [reflexivity|simpl; lia|reflexivity].
  - split; [reflexivity|]. split; [reflexivity|].
    destruct (C8_data_loss_is_end_of_stream "run"
                (one_file_world "run" broken_file) broken_file eq_refl)
      as [_ Hother].
    apply (Hother (KeyError "wall_time")). reflexivity.
Defined.

(** The marker of epoch 100 is the second line of [legacy_log] and of its
    first two lines, and the only one. *)
Lemma legacy_log_marker : single_marker_at 100 legacy_log 1.
Proof.
  split; [eexists; split; [reflexivity|by vm_compute]|].
  intros j row Hj Hm.
  do 5 (destruct j as [|j]; [injection Hj as <-; try reflexivity;
                             by vm_compute in Hm|]).
  discriminate.
Qed.

Lemma stopped_log_marker : single_marker_at 100 (take 2 legacy_log) 1.
Proof.
  split; [eexists; split; [reflexivity|by vm_compute]|].
  intros j row Hj Hm.
  do 2 (destruct j as [|j]; [injection Hj as <-; try reflexivity;
                             by vm_compute in Hm|]).
  discriminate.
Qed.

Lemma C2_truncated_log_witness :
  files backup_world !! std_config_path = Some legacy_config
  ∧ files backup_world !! (std_log_path +:+ ".backup") = Some legacy_log
  ∧ single_marker_at 100 legacy_log 1
  ∧ legacy_log !! 2%nat
      = Some "2019-08-02 13:00:02 - trainer - INFO - Training took 03:12:55"
  ∧ parse_old_log (std_log_path +:+ ".backup") std_config_path 100 backup_world =
      (backup_world,
       Ok (provenance (std_log_path +:+ ".backup") ++ legacy_config
             ++ take 2 legacy_log
             ++ ["2019-08-02 13:00:02 - trainer - INFO - Training took 03:12:55"])%list).
Proof.
  split; [by vm_compute|]. split; [by vm_compute|].
  split; [exact legacy_log_marker|]. split; [reflexivity|].
  apply (C2_truncated_log (std_log_path +:+ ".backup") std_config_path 100
           backup_world legacy_config legacy_log 1
           "2019-08-02 13:00:02 - trainer - INFO - Training took 03:12:55").
  - by vm_compute.
  - by vm_compute.
  - exact legacy_log_marker.
  - reflexivity.
Defined.

(** C2 as stated fails when nothing follows the marker: the log of
    [stopped_log_world] has exactly one marker line, its last, and
    [parse_old_log] raises instead of returning the log up to the marker. *)
Lemma C2_counterexample_marker_last :
  files stopped_log_world !! std_config_path = Some legacy_config
  ∧ files stopped_log_world !! (std_log_path +:+ ".backup") = Some (take 2 legacy_log)
  ∧ single_marker_at 100 (take 2 legacy_log) 1
  ∧ snd (parse_old_log (std_log_path +:+ ".backup") std_config_path 100
           stopped_log_world) = Raise IndexError.
Proof.
  split; [by vm_compute|]. split; [by vm_compute|].
  split; [exact stopped_log_marker|]. by vm_compute.
Qed.

Lemma C5_single_marker_witness :
  (files backup_world !! std_config_path = Some legacy_config
   ∧ files backup_world !! (std_log_path +:+ ".backup") = Some legacy_log
   ∧ is_ok (snd (parse_old_log (std_log_path +:+ ".backup") std_config_path 100
                   backup_world)) = true
   ∧ marker_count 100 legacy_log = 1%nat)
  ∧ (files doubled_log_world !! std_config_path = Some legacy_config
     ∧ files doubled_log_world !! (std_log_path +:+ ".backup")
         = Some (legacy_log ++ legacy_log)%list
     ∧ marker_count 100 (legacy_log ++ legacy_log) ≠ 1%nat
     ∧ parse_old_log (std_log_path +:+ ".backup") std_config_path 100
         doubled_log_world =
         (doubled_log_world,
          Raise (AssertionError "expected single occurence of log tag"))).
Proof.
  split.
  - split; [by vm_compute|]. split; [by vm_compute|]. split; [by vm_compute|].
    destruct (C5_single_marker_required (std_log_path +:+ ".backup")
                std_config_path 100 backup_world legacy_config legacy_log)
      as [Honly _]; [by vm_compute|by vm_compute|].
    destruct (snd (parse_old_log (std_log_path +:+ ".backup") std_config_path 100
                     backup_world)) as [out|e] eqn:Hout.
    + exact (Honly out eq_refl).
    + vm_compute in Hout. discriminate Hout.
  - split; [by vm_compute|]. split; [by vm_compute|].
    split; [by vm_compute|].
    destruct (C5_single_marker_required (std_log_path +:+ ".backup")
                std_config_path 100 doubled_log_world legacy_config
                (legacy_log ++ legacy_log)%list)
      as [_ Hfail]; [by vm_compute|by vm_compute|].
    apply Hfail. by vm_compute.
Defined.

Lemma C9_marker_last_line_witness :
  files stopped_log_world !! std_config_path = Some legacy_config
  ∧ files stopped_log_world !! (std_log_path +:+ ".backup") = Some (take 2 legacy_log)
  ∧ single_marker_at 100 (take 2 legacy_log) 1
  ∧ 2%nat = length (take 2 legacy_log)
  ∧ parse_old_log (std_log_path +:+ ".backup") std_config_path 100
      stopped_log_world = (stopped_log_world, Raise IndexError).
Proof.
  split; [by vm_compute|]. split; [by vm_compute|].
  split; [exact stopped_log_marker|]. split; [reflexivity|].
  apply (C9_marker_last_line_fails (std_log_path +:+ ".backup") std_config_path
           100 stopped_log_world legacy_config (take 2 legacy_log) 1).
  - by vm_compute.
  - by vm_compute.
  - exact stopped_log_marker.
  - reflexivity.
Defined.

Lemma modernized_world_ready :
  (∀ key, key ∈ ["exp-a"] → modernized deprecated_ckpts "data/saved" modernized_world key)
  ∧ dirs_closed modernized_world.
Proof.
  split.
  - intros key ->%list_elem_of_singleton.
    exists {| timestamp := Some run_dir; epoch := None |}, run_dir.
    repeat split; by vm_compute.
  - apply (bool_decide_unpack _). by vm_compute.
Qed.

Lemma standardized_world_ready :
  ∀ key, key ∈ ["exp-b"] →
         standardized "data/saved" non_standard_ckpts standardized_world key.
Proof.
  intros key ->%list_elem_of_singleton.
  exists {| timestamp := Some "0802_130000"; epoch := Some 100 |},
         "0802_130000", 100.
  repeat split; by vm_compute.
Qed.

Lemma C7_rerun_witness :
  ((∀ key, key ∈ ["exp-a"] →
           modernized deprecated_ckpts "data/saved" modernized_world key)
   ∧ dirs_closed modernized_world
   ∧ ∃ lines,
       modernize_exp_dir ["exp-a"] deprecated_ckpts "data/saved" false
         modernized_world = (add_trace (map Printed lines) modernized_world, Ok tt))
  ∧ ((∀ key, key ∈ ["exp-b"] →
             standardized "data/saved" non_standard_ckpts standardized_world key)
     ∧ ∃ lines,
         standardize_exp_dir ["exp-b"] "data/saved" non_standard_ckpts false
           standardized_world =
           (add_trace (map Printed lines) standardized_world, Ok tt)).
Proof.
  destruct C7_rerun_without_refresh_is_noop as [Hmod Hstd].
  split.
  - split; [exact (proj1 modernized_world_ready)|].
    split; [exact (proj2 modernized_world_ready)|].
    apply Hmod.
    + exact (proj1 modernized_world_ready).
    + exact (proj2 modernized_world_ready).
  - split; [exact standardized_world_ready|].
    apply Hstd. exact standardized_world_ready.
Defined.

Lemma modernize_eval_called :
  modernize_eval
    ∈ new_events deprecated_world
        (fst (modernize_exp deprecated_ckpts "data/saved" false "exp-a"
                deprecated_world)).
Proof.
  apply list_elem_of_lookup. exists 15%nat. by vm_compute.
Qed.

Lemma standardize_eval_called :
  standardize_eval
    ∈ new_events non_standard_world
        (fst (standardize_exp "data/saved" non_standard_ckpts false "exp-b"
                non_standard_world)).
Proof.
  apply list_elem_of_lookup. exists 11%nat. by vm_compute.
Qed.

Lemma C3_evaluation_arguments_witness :
  (modernize_eval
     ∈ new_events deprecated_world
         (fst (modernize_exp deprecated_ckpts "data/saved" false "exp-a"
                 deprecated_world))
   ∧ ∃ entry rel_dir,
       deprecated_ckpts !! "exp-a" = Some entry ∧ timestamp entry = Some rel_dir ∧
       "tboard-parser" = "tboard-parser" ∧
       "data/saved/models/exp-a/0801_120000/config.json"
         = "data/saved" // "models" // "exp-a" // split_last rel_dir // "config.json" ∧
       "old/runs/0801_120000/model_best.pth" = rel_dir // "model_best.pth" ∧
       ∃ es0 log,
         new_events deprecated_world
           (fst (modernize_exp deprecated_ckpts "data/saved" false "exp-a"
                   deprecated_world)) =
           (es0 ++ map (LoggerInfo "tboard-parser") log ++ [modernize_eval])%list)
  ∧ (standardize_eval
       ∈ new_events non_standard_world
           (fst (standardize_exp "data/saved" non_standard_ckpts false "exp-b"
                   non_standard_world))
     ∧ ∃ entry ts ep,
         non_standard_ckpts !! "exp-b" = Some entry ∧ timestamp entry = Some ts ∧
         epoch entry = Some ep ∧
         "log-gen" = "log-gen" ∧
         std_config_path = "data/saved" // "models" // "exp-b" // ts // "config.json" ∧
         std_model_path
           = "data/saved" // "models" // "exp-b" // ts //
               ("checkpoint-epoch" +:+ str_of_int ep +:+ ".pth") ∧
         ∃ es0 log,
           new_events non_standard_world
             (fst (standardize_exp "data/saved" non_standard_ckpts false "exp-b"
                     non_standard_world)) =
             (es0 ++ map (LoggerInfo "log-gen") log ++ [standardize_eval])%list).
Proof.
  split.
  - split; [exact modernize_eval_called|].
    exact (proj1 (C3_evaluation_arguments deprecated_ckpts "data/saved" false
                    "exp-a" deprecated_world _ _) modernize_eval_called).
  - split; [exact standardize_eval_called|].
    exact (proj2 (C3_evaluation_arguments non_standard_ckpts "data/saved" false
                    "exp-b" non_standard_world _ _) standardize_eval_called).
Defined.

(** C3 as stated fails for [modernize_exp_dir]: the run copies the model to
    the canonical location, and the evaluation it then calls resumes from
    the model of the source directory, a different path. *)
Lemma C3_counterexample_modernize_resume :
  let w' := fst (modernize_exp_dir ["exp-a"] deprecated_ckpts "data/saved" false
                   deprecated_world) in
  let model_path := "data/saved/models/exp-a/0801_120000/model_best.pth" in
  CopyFile (run_dir // "model_best.pth") model_path ∈ trace w'
  ∧ files w' !! model_path = Some ["weights"]
  ∧ last (trace w') = Some modernize_eval
  ∧ match modernize_eval with
    | Evaluation args _ => arg_resume args ≠ model_path
    | _ => False
    end.
Proof.
  cbn zeta. split; [|split; [by vm_compute|split; [by vm_compute|]]].
  - apply list_elem_of_lookup. exists 3%nat. by vm_compute.
  - cbn. discriminate.
Qed.

(** C10: evaluation at the failing input.  After a first run the backup
    holds the legacy log.  A second run with the refresh flag set returns
    normally, and afterwards the backup holds the log the first run
    generated, and no file holds the legacy log any more. *)
Theorem C10_refresh_overwrites_backup :
  let backup := std_log_path +:+ ".backup" in
  let r := standardize_exp_dir ["exp-b"] "data/saved" non_standard_ckpts true
             standardized_world in
  files non_standard_world !! std_log_path = Some legacy_log
  ∧ files standardized_world !! backup = Some legacy_log
  ∧ snd r = Ok tt
  ∧ files (fst r) !! backup = files standardized_world !! std_log_path
  ∧ files (fst r) !! backup ≠ Some legacy_log
  ∧ map_Forall (fun _ c => c ≠ legacy_log) (files (fst r)).
Proof.
  cbn zeta. repeat split; try by vm_compute.
  apply (bool_decide_unpack _). by vm_compute.
Qed.

End ConcreteRuns.

(** ** Further properties of the decoder *)

Section DecoderEdges.
Context `{Ext : Externals}.


Lemma consumed_min (n : nat) (evs : list Event) :
  snd (decode (take n evs)) = None →
  consumed n evs = Nat.min (length evs) (S n).
Proof.
  revert n. induction evs as [|s rest IH]; intros n; [done|].
  destruct n as [|n]; [intros _; cbn [consumed length]; lia|].
  cbn [take decode consumed length].
  destruct (step s) as [st|].
  - destruct (summary_row st s) as [[row|]|e]; cbn [snd]; try done;
      intros Hok; rewrite (IH n Hok); lia.
  - intros Hok. rewrite (IH n Hok). lia.
Qed.

(** The decoder insists on exactly one event file: with none or several in
    the directory it fails its assertion before printing anything. *)
Theorem tboard_needs_one_event_file (d : string) (w : World) :
  length (tfevents w d) ≠ 1%nat →
  parse_tboard_files d w =
    (w, Raise (AssertionError "expected a single tensorboard file")).
Proof.
  intros Hlen. unfold parse_tboard_files.
  by destruct (tfevents w d) as [|f [|f' fs]].
Qed.


(** The count the decoder reports includes the record that trips the cap:
    when no record raises, the last line printed is [parsed N summaries]
    with N the number of records, or 1001 when there are more than 1000. *)
Theorem tboard_reported_count (d : string) (w : World) (f : EventFile) :
  tfevents w d = [f] →
  snd (decode (take 1000 (records f))) = None →
  last (trace (fst (parse_tboard_files d w))) =
    Some (Printed ("parsed "
                   +:+ str_of_int (Z.of_nat (Nat.min (length (records f)) 1001))
                   +:+ " summaries")).
Proof.
  intros Hf Hok. rewrite (parse_tboard_files_decode d w f Hf). cbn zeta.
  rewrite (consumed_min 1000 (records f) Hok).
  unfold loop_pending. rewrite Hok.
  destruct (decide (length (records f) ≤ 1000)%nat);
    [destruct (data_loss f)|]; cbn [fmap option_fmap option_map fst trace add_trace].
  - match goal with
    | |- last (?l1 ++ ?l2 ++ [?a; ?b])%list = _ =>
        change (l1 ++ l2 ++ [a; b])%list with (l1 ++ l2 ++ [a] ++ [b])%list
    end.
    by rewrite !app_assoc, last_snoc.
  - by rewrite app_assoc, last_snoc.
  - by rewrite app_assoc, last_snoc.
Qed.

(** The decoder only prints: files, directories and event files are as
    before, every new effect is a printed line, and when a log is returned
    its rows (the log without the header) are the first lines printed, in
    order, followed by at most the data-loss notice and the count. *)
Theorem tboard_prints_its_rows (d : string) (w : World) :
  ∃ printed,
    fst (parse_tboard_files d w) = add_trace (map Printed printed) w
    ∧ ∀ log, snd (parse_tboard_files d w) = Ok log →
        ∃ rest, printed = (tail log ++ rest)%list ∧ (length rest ≤ 2)%nat.
Proof.
  destruct (tfevents w d) as [|f [|f' fs]] eqn:Hf.
  - exists []. unfold parse_tboard_files. rewrite Hf. cbn.
    by rewrite add_trace_nil.
  - rewrite (parse_tboard_files_decode d w f Hf). cbn zeta.
    destruct (loop_pending 1000 (records f) (data_loss f)) as [e|].
    + destruct e;
        try (eexists; split; [reflexivity|]; cbn [snd]; discriminate).
      eexists (_ ++ [_; _])%list. cbn [fst snd]. split; [by rewrite map_app|].
      intros log [= <-]. cbn [tail]. eexists. split; [reflexivity|]. cbn. lia.
    + eexists (_ ++ [_])%list. cbn [fst snd]. split; [by rewrite map_app|].
      intros log [= <-]. cbn [tail]. eexists. split; [reflexivity|]. cbn. lia.
  - exists []. unfold parse_tboard_files. rewrite Hf. cbn.
    by rewrite add_trace_nil.
Qed.

Lemma format_values_missing_simple_value (vs : list Value) :
  Forall (fun v => is_Some (tag v)) vs →
  Exists (fun v => simple_value v = None) vs →
  format_values vs = Raise (KeyError "simple_value").
Proof.
  induction vs as [|x rest IH]; intros Htags Hmiss; [by inversion Hmiss|].
  apply Forall_cons in Htags as [[t Ht] Htags].
  cbn [format_values]. unfold format_value. rewrite Ht.
  destruct (simple_value x) as [v|] eqn:Hx; [|done].
  apply Exists_cons in Hmiss as [Hmiss|Hmiss]; [congruence|].
  by rewrite (IH Htags Hmiss).
Qed.

Lemma tboard_result_raise (f : EventFile) (pre post : list Event) (s : Event)
    (st : Z) (e : abort) :
  records f = (pre ++ s :: post)%list →
  (length pre < 1000)%nat →
  snd (decode pre) = None →
  step s = Some st →
  summary_row st s = Raise e →
  tboard_result f = Raise e.
Proof.
  intros Hrec Hlen Hpre Hst Hrow. unfold tboard_result. rewrite Hrec.
  rewrite take_app_ge by lia.
  replace (1000 - length pre)%nat with (S (999 - length pre)) by lia.
  cbn [take]. rewrite (decode_app _ _ Hpre). cbn [snd fst decode].
  by rewrite Hst, Hrow.
Qed.

(** Only the first value of a record is tested for [simple_value]: a
    record whose first value is a scalar and which holds, further on, a value
    without [simple_value] (an image, say) makes the decoder raise
    [KeyError], and no log is returned. *)
Theorem tboard_mixed_record_raises (d : string) (w : World) (f : EventFile)
    (pre post : list Event) (wt : wall_time_t) (st : Z)
    (v0 : Value) (vs : list Value) :
  tfevents w d = [f] →
  records f =
    (pre ++ {| wall_time := Some wt; step := Some st;
               summary := Some {| value := Some (v0 :: vs) |} |} :: post)%list →
  (length pre < 1000)%nat →
  snd (decode pre) = None →
  is_Some (simple_value v0) →
  Forall (fun v => is_Some (tag v)) (v0 :: vs) →
  Exists (fun v => simple_value v = None) vs →
  snd (parse_tboard_files d w) = Raise (KeyError "simple_value").
Proof.
  intros Hf Hrec Hlen Hpre [x0 Hx0] Htags Hmiss.
  rewrite (parse_tboard_files_result d w f Hf).
  eapply tboard_result_raise; [exact Hrec|exact Hlen|exact Hpre|reflexivity|].
  unfold summary_row. cbn [wall_time summary value]. rewrite Hx0.
  rewrite format_values_missing_simple_value; [done|done|].
  by apply Exists_cons_tl.
Qed.

(** Below the cap, decoding is compositional: when the records of a file
    are those of a first file followed by those of a second, and both of
    these decode to a log, the file decodes to the first log followed by the
    rows of the second. *)
Theorem tboard_concatenated_streams (d da db : string) (w wa wb : World)
    (f fa fb : EventFile) (la lb : list string) :
  tfevents w d = [f] →
  tfevents wa da = [fa] →
  tfevents wb db = [fb] →
  name f = name fa →
  records f = (records fa ++ records fb)%list →
  (length (records f) ≤ 1000)%nat →
  snd (parse_tboard_files da wa) = Ok la →
  snd (parse_tboard_files db wb) = Ok lb →
  snd (parse_tboard_files d w) = Ok (la ++ tail lb)%list.
Proof.
  intros Hf Hfa Hfb Hname Hrec Hlen.
  rewrite (parse_tboard_files_result d w f Hf).
  rewrite (parse_tboard_files_result da wa fa Hfa).
  rewrite (parse_tboard_files_result db wb fb Hfb).
  unfold tboard_result, tboard_header. rewrite Hname.
  assert (Hla : (length (records fa) ≤ 1000)%nat)
    by (rewrite Hrec, length_app in Hlen; lia).
  assert (Hlb : (length (records fb) ≤ 1000)%nat)
    by (rewrite Hrec, length_app in Hlen; lia).
  rewrite !take_ge by done. rewrite Hrec.
  destruct (snd (decode (records fa))) eqn:Ha; [discriminate|].
  destruct (snd (decode (records fb))) eqn:Hb; [discriminate|].
  intros [= <-] [= <-].
  rewrite (decode_app _ _ Ha). cbn [fst snd tail]. by rewrite Hb.
Qed.

End DecoderEdges.

(** ** Further properties of the normaliser *)

Section OldLogEdges.
Context `{Ext : Externals}.

Lemma where_from_length_one (bs : list bool) :
  sum_bools bs = 1 → ∃ pos, where_ bs = [pos].
Proof.
  intros Hsum. rewrite (sum_bools_where 0) in Hsum. unfold where_.
  destruct (where_from 0 bs) as [|pos [|pos' rest]]; cbn in Hsum; try lia.
  by exists pos.
Qed.

(** [parse_old_log] has no side effect: whatever it returns or raises, the
    files, the directories and the trace are as before. *)
Theorem old_log_is_read_only (log_path config_path : string) (N : Z) (w : World) :
  fst (parse_old_log log_path config_path N w) = w.
Proof. apply parse_old_log_world. Qed.

Lemma where_from_elem (i k : nat) (bs : list bool) :
  k ∈ where_from i bs ↔ ∃ j, k = (i + j)%nat ∧ bs !! j = Some true.
Proof.
  revert i. induction bs as [|b rest IH]; intros i; cbn [where_from].
  - split; [by intros ?%elem_of_nil|by intros (j & _ & ?)].
  - assert (Hrest : k ∈ where_from (S i) rest
                    ↔ ∃ j, k = (i + S j)%nat ∧ rest !! j = Some true).
    { rewrite IH. split; intros (j & -> & Hj); exists j; split; (lia || done). }
    destruct b.
    + rewrite elem_of_cons, Hrest. split.
      * intros [->|(j & -> & Hj)]; [exists 0%nat|exists (S j)]; split; (lia || done).
      * intros ([|j] & -> & Hj); [left; lia|right; by exists j].
    + rewrite Hrest. split.
      * intros (j & -> & Hj). by exists (S j).
      * intros ([|j] & -> & Hj); [done|by exists j].
Qed.

Lemma where_single_marker (N : Z) (log : list string) (pos : nat) :
  where_ (map (fun row => str_in (checkpoint_tag N) row && str_in "trainer" row)
            log) = [pos] →
  single_marker_at N log pos.
Proof.
  intros Hw.
  assert (Hspec : ∀ j, j ∈ [pos] ↔ ∃ row, log !! j = Some row
                                        ∧ is_marker N row = true).
  { intros j. rewrite <- Hw. unfold where_. rewrite where_from_elem. split.
    - intros (j' & -> & Hj). rewrite list_lookup_fmap in Hj.
      destruct (log !! j') as [row|] eqn:Hrow; [|done].
      exists row. split; [done|]. by injection Hj.
    - intros (row & Hrow & Hm). exists j. split; [done|].
      rewrite list_lookup_fmap, Hrow. cbn. f_equal. exact Hm. }
  split.
  - apply Hspec. constructor.
  - intros j row Hrow Hm.
    assert (Hin : j ∈ [pos]) by (apply Hspec; by exists row).
    by apply list_elem_of_singleton in Hin.
Qed.

(** Once both files have been read, [parse_old_log] can fail in two ways
    only, each with its cause: the assertion, exactly when the log does not
    have one marker line, and the lookup of the line after the marker,
    exactly when the only marker line is the last line.  Taking the index of
    the marker never fails once the assertion has passed, and in every other
    case the call returns. *)
Theorem old_log_failures (log_path config_path : string) (N : Z) (w : World)
    (cc lc : content) :
  files w !! config_path = Some cc →
  files w !! log_path = Some lc →
  match snd (parse_old_log log_path config_path N w) with
  | Raise e =>
      (e = AssertionError "expected single occurence of log tag"
       ∧ marker_count N (splitlines lc) ≠ 1%nat)
      ∨ (e = IndexError
         ∧ ∃ pos, single_marker_at N (splitlines lc) pos
                  ∧ splitlines lc !! (pos + 1)%nat = None)
  | Ok _ =>
      ∃ pos, single_marker_at N (splitlines lc) pos
             ∧ is_Some (splitlines lc !! (pos + 1)%nat)
  end.
Proof.
  intros Hc Hl. rewrite (parse_old_log_read _ _ _ _ _ _ Hc Hl). cbn zeta.
  destruct (Z.eqb_spec (sum_bools
    (map (fun row => str_in (checkpoint_tag N) row && str_in "trainer" row)
       (splitlines lc))) 1) as [Hsum|Hsum].
  - destruct (where_from_length_one _ Hsum) as [pos Hpos]. rewrite Hpos.
    apply where_single_marker in Hpos.
    destruct (splitlines lc !! (pos + 1)%nat) as [next|] eqn:Hnext; cbn [snd].
    + exists pos. split; [done|]. rewrite Hnext. by eexists.
    + right. split; [done|]. by exists pos.
  - cbn [snd]. left. split; [done|].
    rewrite sum_bools_markers in Hsum. lia.
Qed.

(** The config is read before the log: when the config file is missing the
    call fails on it, whether or not the log exists and whatever it holds. *)
Theorem old_log_reads_config_first (log_path config_path : string) (N : Z)
    (w : World) :
  files w !! config_path = None →
  parse_old_log log_path config_path N w =
    (w, Raise (if is_dir w config_path then IsADirectoryError config_path
               else FileNotFoundError config_path)).
Proof.
  intros Hc. unfold parse_old_log, read_lines, mbind, M_bind, bind.
  rewrite Hc. by destruct (is_dir w config_path).
Qed.

End OldLogEdges.

(** ** Further properties of the pipelines *)

Section PipelineEdges.
Context `{Ext : Externals}.

(** *** Strings and paths *)

Lemma str_last_app (s1 s2 : string) :
  s2 ≠ EmptyString → str_last (s1 +:+ s2) = str_last s2.
Proof.
  intros Hne. induction s1 as [|a s1 IH]; [done|].
  change (String a s1 +:+ s2) with (String a (s1 +:+ s2)).
  destruct (s1 +:+ s2) as [|b r] eqn:Happ.
  - destruct s1; [by destruct s2|discriminate].
  - exact IH.
Qed.

Lemma str_last_join (p child : string) :
  child ≠ EmptyString → str_last (p // child) = str_last child.
Proof.
  intros Hne. unfold path_join. rewrite str_last_app by (by destruct child).
  by rewrite (str_last_app "/" child).
Qed.

Lemma str_last_ckpt_name (ep : Z) :
  str_last ("checkpoint-epoch" +:+ str_of_int ep +:+ ".pth") = Some "h"%char.
Proof.
  rewrite str_last_app by (by destruct (str_of_int ep)).
  by rewrite str_last_app.
Qed.

Lemma ckpt_name_nonempty (ep : Z) :
  "checkpoint-epoch" +:+ str_of_int ep +:+ ".pth" ≠ EmptyString.
Proof. discriminate. Qed.

Lemma rsplit1_length (c : ascii) (s pre post : string) :
  rsplit1 c s = Some (pre, post) →
  String.length s = S (String.length pre + String.length post).
Proof.
  revert pre post. induction s as [|a s IH]; intros pre post; [done|].
  cbn [rsplit1]. destruct (rsplit1 c s) as [[pre' post']|].
  - intros [= <- <-]. cbn [String.length]. by rewrite (IH pre' post' eq_refl).
  - destruct (Ascii.eqb a c); [|done]. intros [= <- <-]. cbn. lia.
Qed.

Lemma path_parent_length (p : string) :
  (String.length (path_parent p) ≤ Nat.max 1 (String.length p - 1))%nat.
Proof.
  unfold path_parent. destruct (rsplit1 "/" p) as [[pre post]|] eqn:Hsplit.
  - apply rsplit1_length in Hsplit. destruct pre; cbn [String.length] in *; lia.
  - cbn. lia.
Qed.

Lemma path_chain_length (fuel : nat) (d q : string) :
  q ∈ path_chain fuel d →
  (String.length q ≤ Nat.max 1 (String.length d))%nat.
Proof.
  revert d. induction fuel as [|fuel IH]; intros d; cbn [path_chain].
  - by intros ?%elem_of_nil.
  - intros [->|Hin]%elem_of_cons; [lia|].
    apply IH in Hin. pose proof (path_parent_length d). lia.
Qed.

Lemma length_append (s1 s2 : string) :
  String.length (s1 +:+ s2) = (String.length s1 + String.length s2)%nat.
Proof.
  induction s1 as [|a s1 IH]; [done|].
  change (String a s1 +:+ s2) with (String a (s1 +:+ s2)).
  cbn [String.length]. by rewrite IH.
Qed.

Lemma rsplit1_join (dir child : string) :
  rsplit1 "/" child = None →
  rsplit1 "/" (dir // child) = Some (dir, child).
Proof.
  intros Hchild. unfold path_join. induction dir as [|a dir IH].
  - change ("" +:+ "/" +:+ child) with (String "/" child).
    cbn [rsplit1]. by rewrite Hchild.
  - change (String a dir +:+ "/" +:+ child)
      with (String a (dir +:+ "/" +:+ child)).
    cbn [rsplit1]. by rewrite IH.
Qed.

(** [Path(dir / child).parent] is [dir] when [child] is a plain name. *)
Lemma path_parent_join (dir child : string) :
  rsplit1 "/" child = None →
  path_parent (dir // child) = match dir with EmptyString => "/" | _ => dir end.
Proof.
  intros Hchild. unfold path_parent. by rewrite (rsplit1_join _ _ Hchild).
Qed.

(** A file placed in a directory is none of the directories [mkdir] makes
    for a file of the same directory. *)
Lemma sibling_not_in_chain (fuel : nat) (dir child child' : string) :
  rsplit1 "/" child = None →
  child' ≠ EmptyString →
  dir // child' ∉ path_chain fuel (path_parent (dir // child)).
Proof.
  intros Hc Hc' Hin. apply path_chain_length in Hin.
  rewrite (path_parent_join _ _ Hc) in Hin.
  unfold path_join in Hin. rewrite !length_append in Hin.
  destruct child'; [done|]. destruct dir; cbn [String.length] in Hin; lia.
Qed.

(** *** Sequencing *)

Lemma bind_ok_inv {A B} (m : M A) (k : A → M B) (w w' : World) (b : B) :
  (m ≫= k) w = (w', Ok b) →
  ∃ a w1, m w = (w1, Ok a) ∧ k a w1 = (w', Ok b).
Proof.
  unfold mbind, M_bind, bind. destruct (m w) as [w1 [a|e]]; [|done].
  intros Hk. by exists a, w1.
Qed.

(** A missing manifest entry stops a pipeline at once: the run raises
    [KeyError] for the experiment, or for the field its entry lacks, before
    any directory is made or file touched, and the experiments after it are
    not processed.  Pipeline A needs the [timestamp] field only, pipeline B
    needs [timestamp] and [epoch]. *)
Theorem manifest_entry_required (experiments : list string)
    (checkpoints : gmap string Checkpoint) (save_dir : string) (refresh : bool)
    (key : string) (w : World) :
  (checkpoints !! key = None →
   modernize_exp_dir (key :: experiments) checkpoints save_dir refresh w
     = (w, Raise (KeyError key))
   ∧ standardize_exp_dir (key :: experiments) save_dir checkpoints refresh w
     = (w, Raise (KeyError key)))
  ∧ (∀ entry, checkpoints !! key = Some entry → timestamp entry = None →
     modernize_exp_dir (key :: experiments) checkpoints save_dir refresh w
       = (w, Raise (KeyError "timestamp"))
     ∧ standardize_exp_dir (key :: experiments) save_dir checkpoints refresh w
       = (w, Raise (KeyError "timestamp")))
  ∧ (∀ entry ts, checkpoints !! key = Some entry → timestamp entry = Some ts →
     epoch entry = None →
     standardize_exp_dir (key :: experiments) save_dir checkpoints refresh w
       = (w, Raise (KeyError "epoch"))).
Proof.
  split; [|split].
  - intros Hnone. cbn [modernize_exp_dir standardize_exp_dir].
    unfold modernize_exp, standardize_exp, ckpt_field, mbind, M_bind, bind.
    by rewrite Hnone.
  - intros entry Hentry Hts. cbn [modernize_exp_dir standardize_exp_dir].
    unfold modernize_exp, standardize_exp, ckpt_field, mbind, M_bind, bind.
    by rewrite Hentry, Hts.
  - intros entry ts Hentry Hts Hep. cbn [standardize_exp_dir].
    unfold standardize_exp, ckpt_field, mbind, M_bind, bind.
    by rewrite Hentry, Hts, Hep.
Qed.

(** *** What the pipelines leave alone *)

Lemma untouched_refl (D : string → Prop) (w : World) : untouched_outside D w w.
Proof. by intros p _. Qed.

Lemma untouched_trans (D : string → Prop) (w1 w2 w3 : World) :
  untouched_outside D w1 w2 → untouched_outside D w2 w3 →
  untouched_outside D w1 w3.
Proof. intros H12 H23 p Hp. by rewrite (H23 p Hp), (H12 p Hp). Qed.

Lemma untouched_same_files (D : string → Prop) (w w' : World) :
  files w' = files w → untouched_outside D w w'.
Proof. intros Hf p _. by rewrite Hf. Qed.

Lemma mkdir_p_files (d : string) (w : World) :
  files (fst (mkdir_p d w)) = files w.
Proof.
  unfold mkdir_p. cbn zeta. destruct (is_dir w d); [done|].
  destruct (is_file w d); [done|]. by destruct (existsb _ _).
Qed.

Lemma parse_tboard_files_files (d : string) (w : World) :
  files (fst (parse_tboard_files d w)) = files w.
Proof. by destruct (parse_tboard_files_trace d w) as [rows ->]. Qed.

Lemma logger_info_all_files (logger : string) (rows : list string) (w : World) :
  files (fst (logger_info_all logger rows w)) = files w.
Proof. by rewrite logger_info_all_trace. Qed.

Lemma untouched_copyfile (D : string → Prop) (src dst : string) (w : World) :
  D dst → untouched_outside D w (fst (copyfile src dst w)).
Proof.
  intros Hdst. unfold copyfile.
  destruct (bool_decide (src = dst) && _); [apply untouched_refl|].
  destruct (files w !! src) as [c|];
    [|destruct (is_dir w src); apply untouched_refl].
  destruct (is_dir w dst); [apply untouched_refl|].
  destruct (is_file w (path_parent dst)); [apply untouched_refl|].
  destruct (negb (is_dir w (path_parent dst))); [apply untouched_refl|].
  intros p Hp. cbn. apply lookup_insert_ne. by intros ->.
Qed.

Lemma untouched_unlink (D : string → Prop) (p : string) (w : World) :
  D p → untouched_outside D w (fst (unlink p w)).
Proof.
  intros Hp. unfold unlink.
  destruct (files w !! p);
    [|destruct (is_dir w p); apply untouched_refl].
  intros q Hq. cbn. apply lookup_delete_ne. by intros ->.
Qed.

Ltac untouched_step :=
  lazymatch goal with
  | |- untouched_outside _ _ (fst ((_ ≫= _) _)) =>
      apply frame_bind; [apply untouched_trans| |intros ? _]
  | |- untouched_outside _ _ (fst ((if ?b then _ else _) _)) => destruct b
  | |- untouched_outside _ (fst ?x) _ =>
      generalize (fst x); intros ?
  | |- untouched_outside _ _ (fst (ckpt_field _ _ _ _ _)) =>
      rewrite ckpt_field_world; apply untouched_refl
  | |- untouched_outside _ _ (fst (assert _ _ _)) =>
      rewrite assert_world; apply untouched_refl
  | |- untouched_outside _ _ (fst (path_exists _ _)) => apply untouched_refl
  | |- untouched_outside _ _ (fst (mkdir_p _ _)) =>
      apply untouched_same_files, mkdir_p_files
  | |- untouched_outside _ _ (fst (print _ _)) =>
      apply untouched_same_files; reflexivity
  | |- untouched_outside _ _ (fst (emit _ _)) =>
      apply untouched_same_files; reflexivity
  | |- untouched_outside _ _ (fst (parse_tboard_files _ _)) =>
      apply untouched_same_files, parse_tboard_files_files
  | |- untouched_outside _ _ (fst (parse_old_log _ _ _ _)) =>
      rewrite parse_old_log_world; apply untouched_refl
  | |- untouched_outside _ _ (fst (logger_info_all _ _ _)) =>
      apply untouched_same_files, logger_info_all_files
  end.

Lemma standardize_exp_untouched (save_dir : string)
    (checkpoints : gmap string Checkpoint) (refresh : bool) (key : string)
    (w : World) :
  untouched_outside (standardize_dest save_dir) w
    (fst (standardize_exp save_dir checkpoints refresh key w)).
Proof.
  unfold standardize_exp. repeat untouched_step.
  - apply untouched_copyfile. eexists _, _. by right.
  - apply untouched_unlink. eexists _, _. by left.
Qed.

(** *** The file operations of the pipelines *)

Lemma only_refl (P : effect → Prop) (w : World) : only_effects P w w.
Proof. exists []. split; [by rewrite app_nil_r|constructor]. Qed.

Lemma only_trans (P : effect → Prop) (w1 w2 w3 : World) :
  only_effects P w1 w2 → only_effects P w2 w3 → only_effects P w1 w3.
Proof.
  intros [es1 [Ht1 Hq1]] [es2 [Ht2 Hq2]]. exists (es1 ++ es2)%list.
  split; [by rewrite Ht2, Ht1, app_assoc|]. by apply Forall_app.
Qed.

Lemma only_bind (P : effect → Prop) {A B} (m : M A) (k : A → M B) (w : World) :
  only_effects P w (fst (m w)) →
  (∀ a w1, only_effects P w1 (fst (k a w1))) →
  only_effects P w (fst ((m ≫= k) w)).
Proof.
  intros Hm Hk. apply frame_bind; [apply only_trans|done|]. intros; apply Hk.
Qed.

Lemma only_new_events (P : effect → Prop) (w w' : World) :
  only_effects P w w' → Forall P (new_events w w').
Proof.
  intros (es & Ht & Hes). unfold new_events. by rewrite Ht, drop_app_length.
Qed.

Lemma only_emit (P : effect → Prop) (e : effect) (w : World) :
  P e → only_effects P w (fst (emit e w)).
Proof. intros He. exists [e]. split; [done|]. by repeat constructor. Qed.

Lemma only_mkdir_p (P : effect → Prop) (d : string) (w : World) :
  only_effects P w (fst (mkdir_p d w)).
Proof.
  destruct (mkdir_p d w) as [w0 o] eqn:Hmk. cbn [fst].
  assert (Ht : trace w0 = trace w).
  { revert Hmk. unfold mkdir_p. cbn zeta. destruct (is_dir w d); [by intros [= <-]|].
    destruct (is_file w d); [by intros [= <-]|].
    destruct (existsb _ _); by intros [= <-]. }
  exists []. split; [by rewrite app_nil_r|constructor].
Qed.

Lemma only_copyfile (P : effect → Prop) (src dst : string) (w : World) :
  P (CopyFile src dst) → only_effects P w (fst (copyfile src dst w)).
Proof.
  intros Hcopy. unfold copyfile.
  destruct (bool_decide (src = dst) && _); [apply only_refl|].
  destruct (files w !! src);
    [|destruct (is_dir w src); apply only_refl].
  destruct (is_dir w dst); [apply only_refl|].
  destruct (is_file w (path_parent dst)); [apply only_refl|].
  destruct (negb (is_dir w (path_parent dst))); [apply only_refl|].
  exists [CopyFile src dst]. split; [done|]. by repeat constructor.
Qed.

Lemma only_unlink (P : effect → Prop) (p : string) (w : World) :
  P (Unlink p) → only_effects P w (fst (unlink p w)).
Proof.
  intros Hunlink. unfold unlink.
  destruct (files w !! p); [|destruct (is_dir w p); apply only_refl].
  exists [Unlink p]. split; [done|]. by repeat constructor.
Qed.

Lemma only_parse_tboard_files (P : effect → Prop) (d : string) (w : World) :
  (∀ row, P (Printed row)) →
  only_effects P w (fst (parse_tboard_files d w)).
Proof.
  intros Hrow. destruct (parse_tboard_files_trace d w) as [rows ->].
  exists (map Printed rows). split; [done|].
  apply Forall_fmap, Forall_true. intros row. apply Hrow.
Qed.

Lemma only_logger_info_all (P : effect → Prop) (logger : string)
    (rows : list string) (w : World) :
  (∀ row, P (LoggerInfo logger row)) →
  only_effects P w (fst (logger_info_all logger rows w)).
Proof.
  intros Hrow. rewrite logger_info_all_trace.
  exists (map (LoggerInfo logger) rows). split; [done|].
  apply Forall_fmap, Forall_true. intros row. apply Hrow.
Qed.

Ltac only_step :=
  lazymatch goal with
  | |- only_effects _ _ (fst ((_ ≫= _) _)) => apply only_bind; [|intros ? ?]
  | |- only_effects _ _ (fst ((if ?b then _ else _) _)) => destruct b
  | |- only_effects _ _ (fst (assert _ _ _)) =>
      rewrite assert_world; apply only_refl
  | |- only_effects _ _ (fst (path_exists _ _)) => apply only_refl
  | |- only_effects _ _ (fst (mkdir_p _ _)) => apply only_mkdir_p
  | |- only_effects _ _ (fst (print _ _)) => apply only_emit; exact I
  | |- only_effects _ _ (fst (emit (SetupLogging _) _)) =>
      apply only_emit; exact I
  | |- only_effects _ _ (fst (emit (Evaluation _ _) _)) =>
      apply only_emit; exact I
  | |- only_effects _ _ (fst (parse_tboard_files _ _)) =>
      apply only_parse_tboard_files; by intros ?
  | |- only_effects _ _ (fst (parse_old_log _ _ _ _)) =>
      rewrite parse_old_log_world; apply only_refl
  | |- only_effects _ _ (fst (logger_info_all _ _ _)) =>
      apply only_logger_info_all; by intros ?
  end.

Lemma modernize_exp_copies (checkpoints : gmap string Checkpoint)
    (save_dir : string) (refresh : bool) (key : string) (w : World) :
  only_effects (modernize_copy checkpoints save_dir) w
    (fst (modernize_exp checkpoints save_dir refresh key w)).
Proof.
  unfold modernize_exp, ckpt_field.
  destruct (checkpoints !! key) as [entry|] eqn:Hentry; [|apply only_refl].
  destruct (timestamp entry) as [rel_dir|] eqn:Hts; [|apply only_refl].
  rewrite ret_bind. cbn beta zeta. repeat only_step.
  - apply only_copyfile. exists key, entry, rel_dir, "config.json". auto.
  - apply only_copyfile. exists key, entry, rel_dir, "model_best.pth". auto.
Qed.

Lemma standardize_exp_moves (save_dir : string)
    (checkpoints : gmap string Checkpoint) (refresh : bool) (key : string)
    (w : World) :
  only_effects (standardize_move checkpoints save_dir) w
    (fst (standardize_exp save_dir checkpoints refresh key w)).
Proof.
  unfold standardize_exp, ckpt_field.
  destruct (checkpoints !! key) as [entry|] eqn:Hentry; [|apply only_refl].
  destruct (timestamp entry) as [ts|] eqn:Hts; [|apply only_refl].
  rewrite ret_bind. cbn beta iota.
  destruct (epoch entry) as [ep|]; [|apply only_refl].
  rewrite ret_bind. cbn beta zeta. repeat only_step.
  - apply only_copyfile. exists key, entry, ts. auto.
  - apply only_unlink. exists key, entry, ts. auto.
Qed.

(** The only files pipeline A itself writes are its two copies: every
    [shutil.copyfile] of a run copies the [config.json] or the
    [model_best.pth] of the source directory of a manifest entry to the
    [config_path] or the [model_path] computed for that entry, and the run
    deletes nothing, whatever the experiments, the refresh flag and the way
    the run ends.  (What the logger and the evaluation write is theirs.) *)
Theorem modernize_writes_only_destinations (experiments : list string)
    (checkpoints : gmap string Checkpoint) (save_dir : string) (refresh : bool)
    (w : World) :
  Forall (modernize_copy checkpoints save_dir)
    (new_events w
       (fst (modernize_exp_dir experiments checkpoints save_dir refresh w))).
Proof.
  apply only_new_events. revert w.
  apply (frame_loop _ (only_refl _) (only_trans _)
           (modernize_exp checkpoints save_dir refresh)
           (fun keys => modernize_exp_dir keys checkpoints save_dir refresh));
    [reflexivity|reflexivity|].
  intros key w. apply modernize_exp_copies.
Qed.

(** The only file operations of pipeline B are the backup and the deletion
    of a log: every [shutil.copyfile] of a run copies the [log_path]
    computed for a manifest entry to that path with [.backup] appended, and
    every [unlink] deletes such a [log_path], whatever the experiments, the
    refresh flag and the way the run ends.  In particular these operations
    change no [config.json] and no checkpoint. *)
Theorem standardize_writes_only_logs (experiments : list string)
    (save_dir : string) (checkpoints : gmap string Checkpoint) (refresh : bool)
    (w : World) :
  let w' := fst (standardize_exp_dir experiments save_dir checkpoints refresh w) in
  Forall (standardize_move checkpoints save_dir) (new_events w w')
  ∧ (∀ p, files w' !! (p // "config.json") = files w !! (p // "config.json"))
  ∧ (∀ p ep,
       files w' !! (p // ("checkpoint-epoch" +:+ str_of_int ep +:+ ".pth"))
         = files w !! (p // ("checkpoint-epoch" +:+ str_of_int ep +:+ ".pth"))).
Proof.
  cbn zeta.
  assert (Hloop : untouched_outside (standardize_dest save_dir) w
            (fst (standardize_exp_dir experiments save_dir checkpoints refresh w))).
  { revert w.
    apply (frame_loop _ (untouched_refl _) (untouched_trans _)
             (standardize_exp save_dir checkpoints refresh)
             (fun keys => standardize_exp_dir keys save_dir checkpoints refresh));
      [reflexivity|reflexivity|].
    intros key w. apply standardize_exp_untouched. }
  split; [|split].
  - apply only_new_events. clear Hloop. revert w.
    apply (frame_loop _ (only_refl _) (only_trans _)
             (standardize_exp save_dir checkpoints refresh)
             (fun keys => standardize_exp_dir keys save_dir checkpoints refresh));
      [reflexivity|reflexivity|].
    intros key w. apply standardize_exp_moves.
  - intros p. apply Hloop.
    intros (key' & ts' & [Heq|Heq]); apply (f_equal str_last) in Heq;
      rewrite ?str_last_app, !str_last_join in Heq by done; discriminate.
  - intros p ep. apply Hloop.
    intros (key' & ts' & [Heq|Heq]); apply (f_equal str_last) in Heq;
      rewrite (str_last_join _ _ (ckpt_name_nonempty ep)), str_last_ckpt_name in Heq;
      rewrite ?(str_last_app _ ".backup"), ?str_last_join in Heq by done;
      discriminate.
Qed.

(** *** What a successful step of pipeline A leaves *)

Lemma is_file_lookup (w : World) (p : string) (c : content) :
  files w !! p = Some c → is_file w p = true.
Proof. intros Hp. apply bool_decide_eq_true. by eexists. Qed.

Lemma is_file_same (w w' : World) (p : string) :
  files w' !! p = files w !! p → is_file w' p = is_file w p.
Proof. intros Hp. unfold is_file. by rewrite Hp. Qed.

Lemma mkdir_p_ok (d : string) (w w0 : World) :
  mkdir_p d w = (w0, Ok tt) →
  files w0 = files w ∧ trace w0 = trace w ∧ tfevents w0 = tfevents w
  ∧ is_dir w0 d = true
  ∧ ∀ p, p ∉ path_chain (S (String.length d)) d → is_dir w0 p = is_dir w p.
Proof.
  unfold mkdir_p. cbn zeta. destruct (is_dir w d) eqn:Hd.
  { intros [= <-]. by repeat split. }
  destruct (is_file w d); [done|]. destruct (existsb _ _); [done|].
  intros [= <-]. repeat split.
  - apply bool_decide_eq_true. cbn [dirs set_dirs path_chain].
    set_solver.
  - intros p Hp. unfold is_dir. cbn [dirs set_dirs].
    apply bool_decide_ext. rewrite elem_of_union. split; [|by right].
    intros [Hc|Hdir]; [|done]. destruct Hp.
    apply (elem_of_list_to_set (C:=gset string)). exact Hc.
Qed.

Lemma copyfile_ok (src dst : string) (w w1 : World) :
  copyfile src dst w = (w1, Ok tt) →
  ∃ c, files w !! src = Some c
       ∧ w1 = add_trace [CopyFile src dst] (set_files (<[dst := c]> (files w)) w).
Proof.
  unfold copyfile. destruct (bool_decide (src = dst) && _); [done|].
  destruct (files w !! src) as [c|]; [|by destruct (is_dir w src)].
  destruct (is_dir w dst); [done|].
  destruct (is_file w (path_parent dst)); [done|].
  destruct (negb (is_dir w (path_parent dst))); [done|].
  rewrite emit_add_trace. intros [= <-]. by exists c.
Qed.

(** The guarded copy of [modernize_exp], when it returns. *)
Lemma guarded_copy_ok (go : bool) (src dst msg1 msg2 : string) (w w1 : World) :
  (if go then print msg1 ;; copyfile src dst else print msg2) w = (w1, Ok tt) →
  dirs w1 = dirs w ∧ tfevents w1 = tfevents w
  ∧ if go
    then ∃ c, files w !! src = Some c ∧ files w1 = <[dst := c]> (files w)
    else files w1 = files w.
Proof.
  destruct go.
  - intros ([] & w0 & Hprint & Hcopy)%bind_ok_inv.
    unfold print in Hprint. rewrite emit_add_trace in Hprint.
    injection Hprint as <-.
    apply copyfile_ok in Hcopy as (c & Hc & ->). repeat split. by exists c.
  - unfold print. rewrite emit_add_trace. by intros [= <-].
Qed.

Lemma config_ne_model (a b : string) :
  a // "config.json" ≠ b // "model_best.pth".
Proof.
  intros Heq. apply (f_equal str_last) in Heq.
  by rewrite !str_last_join in Heq.
Qed.

(** A step of pipeline A that returns leaves exact copies: when the refresh
    flag is set, or when nothing was at the destination, the canonical
    config (and likewise the canonical model) holds after the step what the
    source file held before it. *)
Theorem modernize_copies_are_exact (checkpoints : gmap string Checkpoint)
    (save_dir : string) (refresh : bool) (key : string) (w : World)
    (entry : Checkpoint) (rel_dir : string) :
  checkpoints !! key = Some entry →
  timestamp entry = Some rel_dir →
  snd (modernize_exp checkpoints save_dir refresh key w) = Ok tt →
  let w' := fst (modernize_exp checkpoints save_dir refresh key w) in
  let dir := save_dir // "models" // key // split_last rel_dir in
  (refresh = true
   ∨ is_file w (dir // "config.json") || is_dir w (dir // "config.json") = false →
   is_Some (files w !! (rel_dir // "config.json"))
   ∧ files w' !! (dir // "config.json") = files w !! (rel_dir // "config.json"))
  ∧ (refresh = true
     ∨ is_file w (dir // "model_best.pth") || is_dir w (dir // "model_best.pth")
       = false →
     is_Some (files w !! (rel_dir // "model_best.pth"))
     ∧ files w' !! (dir // "model_best.pth")
       = files w !! (rel_dir // "model_best.pth")).
Proof.
  intros Hentry Hts Hok w' dir. subst w'.
  destruct (modernize_exp checkpoints save_dir refresh key w) as [w' o] eqn:Hrun.
  cbn [fst snd] in *. subst o.
  unfold modernize_exp, ckpt_field in Hrun. rewrite Hentry, Hts in Hrun.
  cbn beta iota in Hrun. rewrite ret_bind in Hrun. cbn beta zeta in Hrun.
  fold dir in Hrun.
  apply bind_ok_inv in Hrun as ([] & w0 & Hmk & Hrun).
  apply mkdir_p_ok in Hmk as (Hf0 & _ & _ & _ & Hd0).
  apply bind_ok_inv in Hrun as (cf & w0' & Hex & Hrun).
  unfold path_exists in Hex. injection Hex as <- <-.
  apply bind_ok_inv in Hrun as ([] & w1 & Hcopy1 & Hrun).
  apply guarded_copy_ok in Hcopy1 as (Hd1 & _ & Hfiles1).
  apply bind_ok_inv in Hrun as (mf & w1' & Hex & Hrun).
  unfold path_exists in Hex. injection Hex as <- <-.
  apply bind_ok_inv in Hrun as ([] & w2 & Hcopy2 & Hrun).
  apply guarded_copy_ok in Hcopy2 as (_ & _ & Hfiles2).
  assert (Hw' : files w' = files w2).
  { match type of Hrun with
    | ?t w2 = _ =>
        assert (Htail : untouched_outside (fun _ => False) w2 (fst (t w2)))
          by (repeat untouched_step)
    end.
    rewrite Hrun in Htail. cbn [fst] in Htail.
    apply map_eq. intros p. apply Htail. tauto. }
  rewrite Hw'. clear Hrun Hw' w'.
  assert (Hcd : is_dir w0 (dir // "config.json") = is_dir w (dir // "config.json")).
  { apply Hd0.
    apply (sibling_not_in_chain _ dir "config.json" "config.json");
      [reflexivity|discriminate]. }
  assert (Hmd : is_dir w0 (dir // "model_best.pth")
                = is_dir w (dir // "model_best.pth")).
  { apply Hd0.
    apply (sibling_not_in_chain _ dir "config.json" "model_best.pth");
      [reflexivity|discriminate]. }
  assert (Hm1 : files w1 !! (dir // "model_best.pth")
                = files w !! (dir // "model_best.pth")).
  { destruct (negb _ || refresh) in Hfiles1.
    - destruct Hfiles1 as (c & _ & ->).
      rewrite lookup_insert_ne by apply config_ne_model. by rewrite Hf0.
    - by rewrite Hfiles1, Hf0. }
  assert (Hs1 : files w1 !! (rel_dir // "model_best.pth")
                = files w !! (rel_dir // "model_best.pth")).
  { destruct (negb _ || refresh) in Hfiles1.
    - destruct Hfiles1 as (c & _ & ->).
      rewrite lookup_insert_ne by apply config_ne_model. by rewrite Hf0.
    - by rewrite Hfiles1, Hf0. }
  split.
  - intros Hgo.
    assert (Hgo' : negb (is_file w0 (dir // "config.json")
                         || is_dir w0 (dir // "config.json")) || refresh = true).
    { rewrite Hcd, (is_file_same w w0) by (by rewrite Hf0).
      destruct Hgo as [-> | ->]; [apply orb_true_r|done]. }
    rewrite Hgo' in Hfiles1. destruct Hfiles1 as (c & Hc & Hfiles1).
    rewrite Hf0 in Hc. rewrite Hc. split; [by eexists|].
    destruct (negb _ || refresh) in Hfiles2.
    + destruct Hfiles2 as (c' & _ & ->).
      rewrite lookup_insert_ne by (apply not_eq_sym, config_ne_model).
      by rewrite Hfiles1, lookup_insert_eq.
    + by rewrite Hfiles2, Hfiles1, lookup_insert_eq.
  - intros Hgo.
    assert (Hgo' : negb (is_file w1 (dir // "model_best.pth")
                         || is_dir w1 (dir // "model_best.pth")) || refresh = true).
    { unfold is_dir at 1. rewrite Hd1. fold (is_dir w0 (dir // "model_best.pth")).
      rewrite Hmd, (is_file_same w w1) by done.
      destruct Hgo as [-> | ->]; [apply orb_true_r|done]. }
    rewrite Hgo' in Hfiles2. destruct Hfiles2 as (c & Hc & ->).
    rewrite Hs1 in Hc. rewrite Hc. split; [by eexists|].
    by rewrite lookup_insert_eq.
Qed.

(** *** Pipeline B, step by step *)

Lemma join_append (p child suffix : string) :
  (p // child) +:+ suffix = p // (child +:+ suffix).
Proof.
  unfold path_join. induction p as [|a p IH]; [done|].
  change ((String a p +:+ "/" +:+ child) +:+ suffix)
    with (String a ((p +:+ "/" +:+ child) +:+ suffix)).
  by rewrite IH.
Qed.

Lemma path_parent_nested (a b child : string) :
  rsplit1 "/" child = None →
  path_parent (a // b // child) = a // b.
Proof.
  intros Hchild. rewrite (path_parent_join _ _ Hchild).
  unfold path_join. by destruct a.
Qed.

Lemma path_parent_backup (a b : string) :
  path_parent ((a // b // "info.log") +:+ ".backup") = a // b.
Proof.
  rewrite join_append.
  apply (path_parent_nested a b ("info.log" +:+ ".backup")). reflexivity.
Qed.

Lemma is_file_insert (w : World) (p q : string) (c : content) :
  is_file (set_files (<[q := c]> (files w)) w) p
    = if bool_decide (p = q) then true else is_file w p.
Proof.
  unfold is_file. cbn [files set_files].
  destruct (decide (p = q)) as [->|Hne].
  - rewrite (bool_decide_eq_true_2 (q = q)) by done.
    apply bool_decide_eq_true. rewrite lookup_insert_eq. by eexists.
  - rewrite (bool_decide_eq_false_2 (p = q)) by done.
    by rewrite lookup_insert_ne.
Qed.

Lemma log_ne_backup (p : string) : p ≠ p +:+ ".backup".
Proof. apply not_eq_sym, append_backup_ne. Qed.

Lemma last_char_ne (p q : string) : str_last p ≠ str_last q → p ≠ q.
Proof. by intros Hne ->. Qed.

(** The assertions of [standardize_exp_dir] come first and in order: a
    missing log, then a missing config, then a missing checkpoint stops the
    run with its own message, and nothing has been touched, whatever the
    refresh flag. *)
Theorem standardize_asserts_first (save_dir : string)
    (checkpoints : gmap string Checkpoint) (refresh : bool) (key : string)
    (w : World) (entry : Checkpoint) (ts : string) (ep : Z) :
  checkpoints !! key = Some entry →
  timestamp entry = Some ts →
  epoch entry = Some ep →
  let present p := is_file w p || is_dir w p in
  let log_path := save_dir // "log" // key // ts // "info.log" in
  let config_path := save_dir // "models" // key // ts // "config.json" in
  let model_path :=
    save_dir // "models" // key // ts //
      ("checkpoint-epoch" +:+ str_of_int ep +:+ ".pth") in
  (present log_path = false →
   standardize_exp save_dir checkpoints refresh key w
     = (w, Raise (AssertionError "log was not found")))
  ∧ (present log_path = true → present config_path = false →
     standardize_exp save_dir checkpoints refresh key w
       = (w, Raise (AssertionError "config was not found")))
  ∧ (present log_path = true → present config_path = true →
     present model_path = false →
     standardize_exp save_dir checkpoints refresh key w
       = (w, Raise (AssertionError "model was not found"))).
Proof.
  intros Hentry Hts Hep present log_path config_path model_path.
  unfold standardize_exp, ckpt_field. rewrite Hentry, Hts, Hep.
  cbn beta iota. rewrite ret_bind. cbn beta iota. rewrite ret_bind.
  cbn beta zeta. fold log_path config_path model_path.
  unfold mbind, M_bind, bind, path_exists, assert, ret, raise.
  subst present. cbn beta.
  split; [|split].
  - intros H1. by rewrite H1.
  - intros H1 H2. rewrite H1. cbn beta iota. by rewrite H2.
  - intros H1 H2 H3. rewrite H1. cbn beta iota. rewrite H2. cbn beta iota.
    by rewrite H3.
Qed.

(** Where [standardize_exp] stands once the log is backed up: the shared
    start of the next two properties. *)
Ltac standardize_to_backup Hentry Hts Hep Hlog Hconfig Hmodel Hgo Hbdir Hdir Hdirf :=
  unfold standardize_exp, ckpt_field; rewrite Hentry, Hts, Hep;
  cbn beta iota; rewrite ret_bind; cbn beta iota; rewrite ret_bind;
  cbn beta zeta;
  unfold mbind, M_bind, bind, path_exists, assert, ret, raise;
  rewrite (is_file_lookup _ _ _ Hlog); cbn [orb]; cbn beta iota;
  rewrite (is_file_lookup _ _ _ Hconfig); cbn [orb]; cbn beta iota;
  rewrite Hmodel; cbn beta iota;
  rewrite Hgo;
  unfold copyfile;
  rewrite (bool_decide_eq_false_2 _ (log_ne_backup _)); cbn [andb];
  rewrite Hlog, Hbdir;
  rewrite path_parent_backup, Hdirf, Hdir;
  cbn [negb]; rewrite emit_add_trace; cbn beta iota.

(** A normalisation that fails leaves its backup behind.  When the legacy
    log does not have exactly one marker line, the step raises after the
    copy to the backup and before the deletion: the log is still in place, the
    backup now exists, and a later run without the refresh flag finds the
    backup and skips the experiment, returning normally although its log was
    never converted. *)
Theorem standardize_failure_leaves_backup (save_dir : string)
    (checkpoints : gmap string Checkpoint) (refresh : bool) (key : string)
    (w : World) (entry : Checkpoint) (ts : string) (ep : Z) (lc cc : content) :
  checkpoints !! key = Some entry →
  timestamp entry = Some ts →
  epoch entry = Some ep →
  let log_path := save_dir // "log" // key // ts // "info.log" in
  let backup := log_path +:+ ".backup" in
  let config_path := save_dir // "models" // key // ts // "config.json" in
  let model_path :=
    save_dir // "models" // key // ts //
      ("checkpoint-epoch" +:+ str_of_int ep +:+ ".pth") in
  files w !! log_path = Some lc →
  files w !! config_path = Some cc →
  is_file w model_path || is_dir w model_path = true →
  negb (is_file w backup || is_dir w backup) || refresh = true →
  is_dir w backup = false →
  is_dir w (save_dir // "log" // key // ts) = true →
  is_file w (save_dir // "log" // key // ts) = false →
  marker_count ep (splitlines lc) ≠ 1%nat →
  let w1 := add_trace [CopyFile log_path backup]
              (set_files (<[backup := lc]> (files w)) w) in
  standardize_exp save_dir checkpoints refresh key w
    = (w1, Raise (AssertionError "expected single occurence of log tag"))
  ∧ files w1 !! log_path = Some lc
  ∧ standardize_exp save_dir checkpoints false key w1
    = (add_trace [Printed ("backup log found at " +:+ backup +:+ ", skipping...")] w1,
       Ok tt).
Proof.
  intros Hentry Hts Hep log_path backup config_path model_path
    Hlog Hconfig Hmodel Hgo Hbdir Hdir Hdirf Hcount w1.
  assert (Hcb : config_path ≠ backup).
  { apply last_char_ne. unfold config_path, backup, log_path.
    rewrite str_last_app, !str_last_join by done. discriminate. }
  assert (Hmb : model_path ≠ backup).
  { apply last_char_ne. unfold model_path, backup, log_path.
    rewrite (str_last_join _ _ (ckpt_name_nonempty ep)), str_last_ckpt_name.
    rewrite str_last_app by done. discriminate. }
  assert (Hc1 : files w1 !! config_path = Some cc)
    by (cbn; by rewrite lookup_insert_ne).
  assert (Hb1 : files w1 !! backup = Some lc)
    by (cbn; by rewrite lookup_insert_eq).
  subst w1 model_path config_path backup log_path.
  split; [|split].
  - standardize_to_backup Hentry Hts Hep Hlog Hconfig Hmodel Hgo Hbdir Hdir Hdirf.
    rewrite (parse_old_log_read _ _ _ _ _ _ Hc1 Hb1). cbn zeta.
    rewrite sum_bools_markers.
    destruct (Z.eqb_spec (Z.of_nat (marker_count ep (splitlines lc))) 1);
      [lia|reflexivity].
  - cbn. rewrite lookup_insert_ne; [done|]. apply not_eq_sym, log_ne_backup.
  - unfold standardize_exp, ckpt_field. rewrite Hentry, Hts, Hep.
    cbn beta iota. rewrite ret_bind. cbn beta iota. rewrite ret_bind.
    cbn beta zeta.
    set (w1 := add_trace _ _) in *.
    assert (Hf1 : ∀ p, is_file w1 p
              = if bool_decide
                     (p = (save_dir // "log" // key // ts // "info.log") +:+ ".backup")
                then true else is_file w p)
      by (intros p; apply is_file_insert).
    assert (E1 : is_file w1 (save_dir // "log" // key // ts // "info.log")
                 || is_dir w1 (save_dir // "log" // key // ts // "info.log") = true).
    { rewrite Hf1, (bool_decide_eq_false_2 _ (log_ne_backup _)).
      by rewrite (is_file_lookup _ _ _ Hlog). }
    assert (E2 : is_file w1 (save_dir // "models" // key // ts // "config.json")
                 || is_dir w1 (save_dir // "models" // key // ts // "config.json")
                 = true).
    { rewrite Hf1, (bool_decide_eq_false_2 _ Hcb).
      by rewrite (is_file_lookup _ _ _ Hconfig). }
    assert (E3 : is_file w1 (save_dir // "models" // key // ts //
                             ("checkpoint-epoch" +:+ str_of_int ep +:+ ".pth"))
                 || is_dir w1 (save_dir // "models" // key // ts //
                               ("checkpoint-epoch" +:+ str_of_int ep +:+ ".pth"))
                 = true).
    { rewrite Hf1, (bool_decide_eq_false_2 _ Hmb). exact Hmodel. }
    assert (E4 : is_file w1 ((save_dir // "log" // key // ts // "info.log")
                             +:+ ".backup") = true).
    { by rewrite Hf1, (bool_decide_eq_true_2 _ eq_refl). }
    clearbody w1.
    unfold mbind, M_bind, bind, path_exists, assert, ret, raise.
    rewrite E1. cbn beta iota. rewrite E2. cbn beta iota.
    rewrite E3. cbn beta iota. rewrite E4. reflexivity.
Qed.

Lemma parse_old_log_at_marker (log_path config_path : string) (N : Z)
    (w : World) (cc lc : content) (pos : nat) (next : string) :
  files w !! config_path = Some cc →
  files w !! log_path = Some lc →
  single_marker_at N (splitlines lc) pos →
  splitlines lc !! (pos + 1)%nat = Some next →
  parse_old_log log_path config_path N w =
    (w, Ok (provenance log_path ++ splitlines cc
              ++ take (pos + 1 + (if str_in "Training took" next then 1 else 0))
                   (splitlines lc))%list).
Proof.
  intros Hc Hl Hm Hnext.
  rewrite (parse_old_log_read _ _ _ _ _ _ Hc Hl). cbn zeta.
  destruct (single_marker_presence _ _ _ Hm) as [Hw Hs].
  rewrite Hs, Hw. cbn [Z.eqb Pos.eqb]. by rewrite Hnext.
Qed.

(** A step of pipeline B that regenerates a log, in full.  With the log,
    config and checkpoint in place, the log directory a directory, and a
    legacy log whose only marker line is followed by a line, the step
    returns; it copies the log to the backup, deletes the log, and then sends
    to the logger exactly the rows the normaliser makes of the backed-up log
    (provenance, config lines, the log up to the marker and the timing line
    if it follows), before it calls the evaluation.  Afterwards the backup
    holds the legacy log and the log file is gone from the file map. *)
Theorem standardize_step_in_full (save_dir : string)
    (checkpoints : gmap string Checkpoint) (refresh : bool) (key : string)
    (w : World) (entry : Checkpoint) (ts : string) (ep : Z) (lc cc : content)
    (pos : nat) (next : string) :
  checkpoints !! key = Some entry →
  timestamp entry = Some ts →
  epoch entry = Some ep →
  let log_path := save_dir // "log" // key // ts // "info.log" in
  let backup := log_path +:+ ".backup" in
  let config_path := save_dir // "models" // key // ts // "config.json" in
  let model_path :=
    save_dir // "models" // key // ts //
      ("checkpoint-epoch" +:+ str_of_int ep +:+ ".pth") in
  files w !! log_path = Some lc →
  files w !! config_path = Some cc →
  is_file w model_path || is_dir w model_path = true →
  negb (is_file w backup || is_dir w backup) || refresh = true →
  is_dir w backup = false →
  is_dir w (save_dir // "log" // key // ts) = true →
  is_file w (save_dir // "log" // key // ts) = false →
  single_marker_at ep (splitlines lc) pos →
  splitlines lc !! (pos + 1)%nat = Some next →
  let generated :=
    (provenance backup ++ splitlines cc
       ++ take (pos + 1 + (if str_in "Training took" next then 1 else 0))
            (splitlines lc))%list in
  let w' := fst (standardize_exp save_dir checkpoints refresh key w) in
  snd (standardize_exp save_dir checkpoints refresh key w) = Ok tt
  ∧ files w' = delete log_path (<[backup := lc]> (files w))
  ∧ dirs w' = dirs w
  ∧ new_events w w' =
      ([CopyFile log_path backup; Unlink log_path;
        SetupLogging (save_dir // "log" // key // ts)]
         ++ map (LoggerInfo "log-gen") generated
         ++ [Evaluation {| arg_config := config_path; arg_device := "3";
                           arg_mini_eval := 1; arg_resume := model_path |}
                        "log-gen"])%list.
Proof.
  intros Hentry Hts Hep log_path backup config_path model_path
    Hlog Hconfig Hmodel Hgo Hbdir Hdir Hdirf Hmarker Hnext generated w'.
  assert (Hcb : config_path ≠ backup).
  { apply last_char_ne. unfold config_path, backup, log_path.
    rewrite str_last_app, !str_last_join by done. discriminate. }
  assert (Hparent : path_parent log_path = save_dir // "log" // key // ts).
  { unfold log_path.
    apply (path_parent_nested (save_dir // "log" // key) ts "info.log").
    reflexivity. }
  assert (Hrun : standardize_exp save_dir checkpoints refresh key w =
            (add_trace
               ([CopyFile log_path backup; Unlink log_path;
                 SetupLogging (save_dir // "log" // key // ts)]
                  ++ map (LoggerInfo "log-gen") generated
                  ++ [Evaluation {| arg_config := config_path; arg_device := "3";
                                    arg_mini_eval := 1; arg_resume := model_path |}
                                 "log-gen"])
               (set_files (delete log_path (<[backup := lc]> (files w))) w),
             Ok tt)).
  { rewrite <- Hparent.
    assert (Hc1 : ∀ es, files (add_trace es (set_files (<[backup := lc]> (files w)) w))
                          !! config_path = Some cc)
      by (intros es; cbn; by rewrite lookup_insert_ne).
    assert (Hb1 : ∀ es, files (add_trace es (set_files (<[backup := lc]> (files w)) w))
                          !! backup = Some lc)
      by (intros es; cbn; by rewrite lookup_insert_eq).
    subst w' generated model_path config_path backup log_path.
    standardize_to_backup Hentry Hts Hep Hlog Hconfig Hmodel Hgo Hbdir Hdir Hdirf.
    rewrite (parse_old_log_at_marker _ _ _ _ _ _ _ _ (Hc1 _) (Hb1 _) Hmarker Hnext).
    cbn beta iota. unfold unlink. cbn [files add_trace set_files].
    rewrite lookup_insert_ne by (apply append_backup_ne).
    rewrite Hlog. rewrite !emit_add_trace. cbn beta iota.
    rewrite logger_info_all_trace. cbn beta iota. rewrite emit_add_trace.
    unfold add_trace, set_files. cbn [files dirs tfevents trace].
    by rewrite <- !app_assoc. }
  subst w'. rewrite Hrun. cbn [fst snd files dirs add_trace set_files].
  repeat split. unfold new_events. cbn [trace add_trace set_files].
  by rewrite drop_app_length.
Qed.

(** *** When pipeline A regenerates a log *)

Lemma keeps_refl (d : string) (w : World) : keeps_file d w w.
Proof.
  intros Hd. split; [done|]. exists []. split; [by rewrite app_nil_r|constructor].
Qed.

Lemma keeps_trans (d : string) (w1 w2 w3 : World) :
  keeps_file d w1 w2 → keeps_file d w2 w3 → keeps_file d w1 w3.
Proof.
  intros H12 H23 Hd. destruct (H12 Hd) as (Hd2 & es1 & Ht1 & Hes1).
  destruct (H23 Hd2) as (Hd3 & es2 & Ht2 & Hes2). split; [done|].
  exists (es1 ++ es2)%list. split; [by rewrite Ht2, Ht1, app_assoc|].
  by apply Forall_app.
Qed.

Lemma keeps_mkdir_p (d p : string) (w : World) :
  keeps_file d w (fst (mkdir_p p w)).
Proof.
  intros Hd. split.
  - rewrite <- Hd. apply is_file_same. by rewrite mkdir_p_files.
  - exists []. split; [|constructor]. rewrite app_nil_r.
    unfold mkdir_p. cbn zeta. destruct (is_dir w p); [done|].
    destruct (is_file w p); [done|]. by destruct (existsb _ _).
Qed.

Lemma keeps_print (d line : string) (w : World) :
  keeps_file d w (fst (print line w)).
Proof.
  intros Hd. split; [done|]. exists [Printed line]. split; [done|].
  by repeat constructor.
Qed.

Lemma keeps_copyfile (d src dst : string) (w : World) :
  keeps_file d w (fst (copyfile src dst w)).
Proof.
  unfold copyfile.
  destruct (bool_decide (src = dst) && _); [apply keeps_refl|].
  destruct (files w !! src) as [c|];
    [|destruct (is_dir w src); apply keeps_refl].
  destruct (is_dir w dst); [apply keeps_refl|].
  destruct (is_file w (path_parent dst)); [apply keeps_refl|].
  destruct (negb (is_dir w (path_parent dst))); [apply keeps_refl|].
  intros Hd. split.
  - rewrite emit_add_trace. cbn [fst].
    change (is_file (add_trace ?es ?w0) d) with (is_file w0 d).
    rewrite is_file_insert. by destruct (bool_decide (d = dst)).
  - exists [CopyFile src dst]. split; [done|]. by repeat constructor.
Qed.

Ltac keeps_step :=
  lazymatch goal with
  | |- keeps_file _ _ (fst ((_ ≫= _) _)) =>
      apply frame_bind; [apply keeps_trans| |intros ? _]
  | |- keeps_file _ _ (fst ((if ?b then _ else _) _)) => destruct b
  | |- keeps_file _ (fst ?x) _ => generalize (fst x); intros ?
  | |- keeps_file _ _ (fst (path_exists _ _)) => apply keeps_refl
  | |- keeps_file _ _ (fst (mkdir_p _ _)) => apply keeps_mkdir_p
  | |- keeps_file _ _ (fst (print _ _)) => apply keeps_print
  | |- keeps_file _ _ (fst (copyfile _ _ _)) => apply keeps_copyfile
  end.

Lemma ignores_bind {A B} (tf : string → list EventFile) (m : M A)
    (k : A → M B) (w : World) :
  ignores_events tf m w →
  (∀ a w1, m w = (w1, Ok a) → ignores_events tf (k a) w1) →
  ignores_events tf (m ≫= k) w.
Proof.
  unfold ignores_events, mbind, M_bind, bind. intros Hm Hk. rewrite Hm.
  destruct (m w) as [w1 [a|e]]; cbn [fst snd]; [by apply Hk|reflexivity].
Qed.

Lemma ignores_emit (tf : string → list EventFile) (e : effect) (w : World) :
  ignores_events tf (emit e) w.
Proof. reflexivity. Qed.

Lemma ignores_path_exists (tf : string → list EventFile) (p : string)
    (w : World) :
  ignores_events tf (path_exists p) w.
Proof. reflexivity. Qed.

Lemma ignores_mkdir_p (tf : string → list EventFile) (d : string) (w : World) :
  ignores_events tf (mkdir_p d) w.
Proof.
  unfold ignores_events, mkdir_p. cbn zeta.
  change (is_dir (set_tfevents tf w)) with (is_dir w).
  change (is_file (set_tfevents tf w)) with (is_file w).
  destruct (is_dir w d); [done|]. destruct (is_file w d); [done|].
  by destruct (existsb _ _).
Qed.

Lemma ignores_copyfile (tf : string → list EventFile) (src dst : string)
    (w : World) :
  ignores_events tf (copyfile src dst) w.
Proof.
  unfold ignores_events, copyfile.
  change (is_dir (set_tfevents tf w)) with (is_dir w).
  change (is_file (set_tfevents tf w)) with (is_file w).
  change (files (set_tfevents tf w)) with (files w).
  destruct (bool_decide (src = dst) && _); [done|].
  destruct (files w !! src); [|by destruct (is_dir w src)].
  destruct (is_dir w dst); [done|].
  destruct (is_file w (path_parent dst)); [done|].
  by destruct (negb (is_dir w (path_parent dst))).
Qed.

Lemma ignores_guarded_copy (tf : string → list EventFile) (go : bool)
    (src dst msg1 msg2 : string) (w : World) :
  ignores_events tf
    (if go then print msg1 ;; copyfile src dst else print msg2) w.
Proof.
  destruct go; [|apply ignores_emit].
  apply ignores_bind; [apply ignores_emit|]. intros _ w1 _.
  apply ignores_copyfile.
Qed.

Lemma is_file_after_copy (go : bool) (src dst p : string) (w w1 : World) :
  (if go
   then ∃ c, files w !! src = Some c ∧ files w1 = <[dst := c]> (files w)
   else files w1 = files w) →
  is_file w p = true → is_file w1 p = true.
Proof.
  intros Hfiles Hp. destruct go.
  - destruct Hfiles as (c & _ & Hf).
    replace w1 with (set_files (<[dst := c]> (files w)) w1)
      by (destruct w1; cbn in *; by subst).
    unfold is_file in *. cbn [files set_files].
    apply bool_decide_eq_true. apply bool_decide_eq_true in Hp.
    destruct (decide (p = dst)) as [->|Hne].
    + rewrite lookup_insert_eq. by eexists.
    + by rewrite lookup_insert_ne.
  - unfold is_file. by rewrite Hfiles.
Qed.

(** Without the refresh flag an experiment whose [info.log] exists is not
    decoded, logged or evaluated again, whatever the two copies do: the only
    effects of its step are copies and printed lines, and the step runs the
    same way (same outcome, same effects, same files and directories)
    whatever event files there are; with none, several or a corrupt one,
    where the decoder would raise or print, it makes no difference. *)
Theorem modernize_existing_log_is_final (checkpoints : gmap string Checkpoint)
    (save_dir : string) (key : string) (w : World)
    (entry : Checkpoint) (rel_dir : string) :
  checkpoints !! key = Some entry →
  timestamp entry = Some rel_dir →
  is_file w (save_dir // "log" // key // split_last rel_dir // "info.log") = true →
  let step := modernize_exp checkpoints save_dir false key in
  Forall copy_or_print (new_events w (fst (step w)))
  ∧ ∀ tf, step (set_tfevents tf w) = (set_tfevents tf (fst (step w)), snd (step w)).
Proof.
  intros Hentry Hts Hlog step. subst step. split.
  - assert (Hkeeps : keeps_file
              (save_dir // "log" // key // split_last rel_dir // "info.log") w
              (fst (modernize_exp checkpoints save_dir false key w))).
    { clear Hlog. unfold modernize_exp, ckpt_field. rewrite Hentry, Hts.
      cbn beta iota. rewrite ret_bind. cbn beta zeta.
      do 5 (apply frame_bind;
              [apply keeps_trans|solve [repeat keeps_step]|intros ? _];
            match goal with
            | |- keeps_file _ (fst ?x) _ => generalize (fst x); intros ?
            end).
      apply frame_bind; [apply keeps_trans|apply keeps_refl|].
      intros log_found Hfound. cbn [path_exists fst snd] in *.
      injection Hfound as <-. intros Hfile. rewrite Hfile. cbn [orb negb].
      by apply keeps_print. }
    destruct (Hkeeps Hlog) as (_ & es & Ht & Hes).
    unfold new_events. by rewrite Ht, drop_app_length.
  - intros tf. fold (ignores_events tf (modernize_exp checkpoints save_dir false key) w).
    unfold modernize_exp, ckpt_field. rewrite Hentry, Hts. cbn beta iota.
    apply ignores_bind; [reflexivity|]. intros rel w0 [= <- <-]. cbn beta zeta.
    apply ignores_bind; [apply ignores_mkdir_p|]. intros [] w0 Hmk.
    apply mkdir_p_ok in Hmk as (Hf0 & _).
    assert (Hlog0 : is_file w0 (save_dir // "log" // key // split_last rel_dir
                                  // "info.log") = true)
      by (rewrite (is_file_same w w0); [done|by rewrite Hf0]).
    apply ignores_bind; [apply ignores_path_exists|]. intros cf w0' [= <- <-].
    apply ignores_bind; [apply ignores_guarded_copy|]. intros [] w1 Hcopy1.
    apply guarded_copy_ok in Hcopy1 as (_ & _ & Hfiles1).
    apply (is_file_after_copy _ _ _ _ _ _ Hfiles1) in Hlog0.
    apply ignores_bind; [apply ignores_path_exists|]. intros mf w1' [= <- <-].
    apply ignores_bind; [apply ignores_guarded_copy|]. intros [] w2 Hcopy2.
    apply guarded_copy_ok in Hcopy2 as (_ & _ & Hfiles2).
    apply (is_file_after_copy _ _ _ _ _ _ Hfiles2) in Hlog0.
    apply ignores_bind; [apply ignores_path_exists|]. intros lf w2' [= <- <-].
    rewrite Hlog0. cbn [orb negb]. apply ignores_emit.
Qed.

Lemma parse_outcome_tfevents (d : string) (w w1 : World) :
  tfevents w1 = tfevents w →
  snd (parse_tboard_files d w1) = snd (parse_tboard_files d w).
Proof.
  intros Htf. destruct (tfevents w d) as [|f [|f' fs]] eqn:Hf.
  - unfold parse_tboard_files. by rewrite Htf, Hf.
  - rewrite (parse_tboard_files_result d w f Hf).
    apply parse_tboard_files_result. by rewrite Htf.
  - unfold parse_tboard_files. by rewrite Htf, Hf.
Qed.

Lemma seq_refl (w : World) : same_events_quiet w w.
Proof. split; [done|apply quiet_refl]. Qed.

Lemma seq_trans (w1 w2 w3 : World) :
  same_events_quiet w1 w2 → same_events_quiet w2 w3 → same_events_quiet w1 w3.
Proof.
  intros [Ht1 Hq1] [Ht2 Hq2]. split; [by rewrite Ht2|by eapply quiet_trans].
Qed.

Lemma seq_mkdir_p (d : string) (w : World) :
  same_events_quiet w (fst (mkdir_p d w)).
Proof.
  split; [|apply quiet_mkdir_p]. unfold mkdir_p. cbn zeta.
  destruct (is_dir w d); [done|]. destruct (is_file w d); [done|].
  by destruct (existsb _ _).
Qed.

Lemma seq_copyfile (src dst : string) (w : World) :
  same_events_quiet w (fst (copyfile src dst w)).
Proof.
  split; [|apply quiet_copyfile]. unfold copyfile.
  destruct (bool_decide (src = dst) && _); [done|].
  destruct (files w !! src) as [c|]; [|by destruct (is_dir w src)].
  destruct (is_dir w dst); [done|].
  destruct (is_file w (path_parent dst)); [done|].
  by destruct (negb (is_dir w (path_parent dst))).
Qed.

Lemma seq_print (line : string) (w : World) :
  same_events_quiet w (fst (print line w)).
Proof. split; [done|]. by apply quiet_emit. Qed.

Ltac seq_step :=
  lazymatch goal with
  | |- same_events_quiet _ (fst ((_ ≫= _) _)) =>
      apply frame_bind; [apply seq_trans| |intros ? _]
  | |- same_events_quiet _ (fst ((if ?b then _ else _) _)) => destruct b
  | |- same_events_quiet (fst ?x) _ => generalize (fst x); intros ?
  | |- same_events_quiet _ (fst (path_exists _ _)) => apply seq_refl
  | |- same_events_quiet _ (fst (mkdir_p _ _)) => apply seq_mkdir_p
  | |- same_events_quiet _ (fst (print _ _)) => apply seq_print
  | |- same_events_quiet _ (fst (copyfile _ _ _)) => apply seq_copyfile
  end.

Lemma logs_decoded_quiet (rel_dir log_dir : string) (args : EvalArgs)
    (logger : string) (w w' : World) :
  quiet w w' → logs_decoded rel_dir log_dir args logger w w'.
Proof. intros [es [Ht Hq]]. exists es. by split; [|left]. Qed.

Lemma logs_decoded_bind {A B} (rel_dir log_dir : string) (args : EvalArgs)
    (logger : string) (m : M A) (k : A → M B) (w : World) :
  same_events_quiet w (fst (m w)) →
  (∀ a w1, logs_decoded rel_dir log_dir args logger w1 (fst (k a w1))) →
  logs_decoded rel_dir log_dir args logger w (fst ((m ≫= k) w)).
Proof.
  intros [Htf [es1 [Ht1 Hq1]]] Hk. unfold mbind, M_bind, bind.
  destruct (m w) as [w1 [a|e]]; cbn [fst] in *.
  - destruct (Hk a w1) as [es2 [Ht2 Hend]].
    exists (es1 ++ es2)%list. split; [by rewrite Ht2, Ht1, app_assoc|].
    destruct Hend as [Hq2|(es0 & log & Hlog & -> & Hq0)].
    + left. by apply Forall_app.
    + right. exists (es1 ++ es0)%list, log.
      split; [by rewrite <- (parse_outcome_tfevents rel_dir w w1 Htf)|].
      split; [by rewrite app_assoc|]. by apply Forall_app.
  - exists es1. by split; [|left].
Qed.

Lemma logs_decoded_final (rel_dir log_dir : string) (args : EvalArgs)
    (logger : string) (w : World) :
  logs_decoded rel_dir log_dir args logger w
    (fst ((generated_log ← parse_tboard_files rel_dir ;
           mkdir_p log_dir ;;
           emit (SetupLogging log_dir) ;;
           logger_info_all logger generated_log ;;
           emit (Evaluation args logger)) w)).
Proof.
  unfold mbind, M_bind, bind.
  destruct (parse_tboard_files_trace rel_dir w) as [rows Hrows].
  destruct (parse_tboard_files rel_dir w) as [w1 [log|e]] eqn:Hparse;
    cbn [fst snd] in *; subst w1.
  2:{ exists (map Printed rows). split; [done|]. left.
      apply Forall_fmap, Forall_true. by intros row. }
  pose proof (quiet_mkdir_p log_dir (add_trace (map Printed rows) w)) as Hmk.
  destruct (mkdir_p log_dir (add_trace (map Printed rows) w)) as [w2 [[]|e]] eqn:Hmkdir.
  2:{ apply logs_decoded_quiet. eapply quiet_trans; [|exact Hmk].
      exists (map Printed rows). split; [done|].
      apply Forall_fmap, Forall_true. by intros row. }
  apply mkdir_p_ok in Hmkdir as (_ & Htrace & _).
  rewrite emit_add_trace. cbn beta iota.
  rewrite logger_info_all_trace. cbn beta iota. rewrite emit_add_trace.
  rewrite !add_trace_app. cbn [fst].
  exists (map Printed rows ++ SetupLogging log_dir
            :: map (LoggerInfo logger) log ++ [Evaluation args logger])%list.
  split.
  { change (trace (add_trace ?es w2)) with (trace w2 ++ es)%list.
    rewrite Htrace. cbn [trace add_trace]. by rewrite <- !app_assoc. }
  right. exists (map Printed rows), log.
  split; [by rewrite Hparse|]. split; [done|].
  apply Forall_fmap, Forall_true. by intros row.
Qed.

(** What pipeline A writes to the log is what the decoder returns.
    Whenever a step calls the evaluation, the effects just before the call
    are the set-up of the logging in the experiment's log directory and one
    logger row for each line of the log [parse_tboard_files] returns for the
    source directory, in order; nothing before them calls the evaluation. *)
Theorem modernize_logs_the_decoded_rows (checkpoints : gmap string Checkpoint)
    (save_dir : string) (refresh : bool) (key : string) (w : World)
    (entry : Checkpoint) (rel_dir : string) (args : EvalArgs) (logger : string) :
  checkpoints !! key = Some entry →
  timestamp entry = Some rel_dir →
  Evaluation args logger
    ∈ new_events w (fst (modernize_exp checkpoints save_dir refresh key w)) →
  ∃ es0 log,
    snd (parse_tboard_files rel_dir w) = Ok log
    ∧ new_events w (fst (modernize_exp checkpoints save_dir refresh key w)) =
        (es0 ++ SetupLogging (save_dir // "log" // key // split_last rel_dir)
           :: map (LoggerInfo logger) log ++ [Evaluation args logger])%list
    ∧ Forall no_eval es0.
Proof.
  intros Hentry Hts Hin.
  assert (Hparent :
    path_parent (save_dir // "log" // key // split_last rel_dir // "info.log")
    = save_dir // "log" // key // split_last rel_dir).
  { apply (path_parent_nested (save_dir // "log" // key) (split_last rel_dir)
             "info.log"). reflexivity. }
  assert (Hlogs : logs_decoded rel_dir
            (save_dir // "log" // key // split_last rel_dir)
            {| arg_config := save_dir // "models" // key // split_last rel_dir
                             // "config.json";
               arg_device := "0"; arg_mini_eval := 1;
               arg_resume := rel_dir // "model_best.pth" |}
            "tboard-parser" w
            (fst (modernize_exp checkpoints save_dir refresh key w))).
  { unfold modernize_exp, ckpt_field. rewrite Hentry, Hts.
    cbn beta iota. rewrite ret_bind. cbn beta zeta. rewrite Hparent.
    do 5 (apply logs_decoded_bind; [repeat seq_step|intros ? ?]).
    apply logs_decoded_bind; [repeat seq_step|intros log_found ?].
    destruct (negb log_found || refresh).
    - apply logs_decoded_final.
    - apply logs_decoded_quiet. by apply quiet_emit. }
  destruct Hlogs as (es & Ht & Hend). unfold new_events in *.
  rewrite Ht, drop_app_length in *.
  destruct Hend as [Hq|(es0 & log & Hlog & -> & Hq0)].
  { rewrite Forall_forall in Hq. by destruct (Hq _ Hin). }
  apply elem_of_app in Hin as [Hin|Hin].
  { rewrite Forall_forall in Hq0. by destruct (Hq0 _ Hin). }
  apply elem_of_cons in Hin as [Hin|Hin]; [discriminate|].
  apply elem_of_app in Hin as [Hin|Hin].
  { apply list_elem_of_fmap in Hin as [row [Heq _]]. discriminate. }
  apply list_elem_of_singleton in Hin. injection Hin as -> ->.
  by exists es0, log.
Qed.

(** A copy that fails is not undone.  When the canonical config is
    missing and so is the source config, the step has already made the
    experiment's directory under [save_dir/models] when the copy raises:
    the run stops on the source path, the directory stays, and no file has
    changed. *)
Theorem modernize_failed_copy_leaves_directory
    (checkpoints : gmap string Checkpoint) (save_dir : string) (refresh : bool)
    (key : string) (w : World) (entry : Checkpoint) (rel_dir : string) :
  checkpoints !! key = Some entry →
  timestamp entry = Some rel_dir →
  let dir := save_dir // "models" // key // split_last rel_dir in
  is_file w (dir // "config.json") || is_dir w (dir // "config.json") = false →
  files w !! (rel_dir // "config.json") = None →
  is_dir w dir = false →
  existsb (is_file w) (path_chain (S (String.length dir)) dir) = false →
  let r := modernize_exp checkpoints save_dir refresh key w in
  (snd r = Raise (FileNotFoundError (rel_dir // "config.json"))
   ∨ snd r = Raise (IsADirectoryError (rel_dir // "config.json")))
  ∧ is_dir (fst r) dir = true
  ∧ files (fst r) = files w.
Proof.
  intros Hentry Hts dir Hdest Hsrc Hdir Hchain r.
  assert (Hparent : path_parent (dir // "config.json") = dir).
  { apply (path_parent_nested (save_dir // "models" // key) (split_last rel_dir)
             "config.json"). reflexivity. }
  assert (Hdfile : is_file w dir = false).
  { cbn [path_chain existsb] in Hchain. by apply orb_false_elim in Hchain as [? _]. }
  apply orb_false_elim in Hdest as [Hcf Hcd].
  set (w0 := set_dirs (list_to_set (path_chain (S (String.length dir)) dir)
                         ∪ dirs w) w).
  assert (Hcd0 : is_dir w0 (dir // "config.json") = false).
  { apply bool_decide_eq_false. cbn [dirs set_dirs w0].
    rewrite elem_of_union. intros [Hin|Hin].
    - apply (elem_of_list_to_set (C:=gset string)) in Hin.
      revert Hin. rewrite <- Hparent at 2 3.
      apply (sibling_not_in_chain _ dir "config.json" "config.json");
        [reflexivity|discriminate].
    - by apply bool_decide_eq_false in Hcd. }
  assert (Hd0 : is_dir w0 dir = true).
  { apply bool_decide_eq_true. cbn [dirs set_dirs w0 path_chain].
    rewrite elem_of_union. left.
    apply (elem_of_list_to_set (C:=gset string)). by left. }
  assert (Hsf : is_file w (rel_dir // "config.json") = false).
  { apply bool_decide_eq_false. rewrite Hsrc. by intros [? ?]. }
  assert (Hrun : ∃ w1 e,
            r = (w1, Raise e)
            ∧ (e = FileNotFoundError (rel_dir // "config.json")
               ∨ e = IsADirectoryError (rel_dir // "config.json"))
            ∧ dirs w1 = dirs w0 ∧ files w1 = files w).
  { subst r. unfold modernize_exp, ckpt_field. rewrite Hentry, Hts.
    cbn beta iota. rewrite ret_bind. cbn beta zeta. fold dir. rewrite Hparent.
    unfold mbind, M_bind, bind. unfold mkdir_p. cbn zeta.
    rewrite Hdir, Hdfile, Hchain. cbn beta iota. fold w0.
    unfold path_exists at 1.
    change (is_file w0 (dir // "config.json"))
      with (is_file w (dir // "config.json")).
    rewrite Hcf, Hcd0. cbn [orb negb]. cbn beta iota.
    unfold print at 1. rewrite emit_add_trace. cbn beta iota.
    unfold copyfile at 1.
    change (files (add_trace ?es w0)) with (files w).
    change (is_file (add_trace ?es w0) ?p) with (is_file w p).
    change (is_dir (add_trace ?es w0) ?p) with (is_dir w0 p).
    rewrite Hsrc, Hsf. cbn [orb].
    destruct (bool_decide (rel_dir // "config.json" = dir // "config.json"))
      eqn:Heq.
    - apply bool_decide_eq_true in Heq.
      assert (Hsd0 : is_dir w0 (rel_dir // "config.json") = false)
        by (rewrite Heq; exact Hcd0).
      rewrite Hsd0. cbn [andb]. eexists _, _. split; [reflexivity|].
      split; [by left|]. by split.
    - cbn [andb].
      destruct (is_dir w0 (rel_dir // "config.json"));
        (eexists _, _; split; [reflexivity|]; split; [by (left + right)|by split]). }
  destruct Hrun as (w1 & e & -> & He & Hdirs & Hfiles). cbn [fst snd].
  split; [destruct He as [-> | ->]; by (left + right)|].
  split; [|done]. unfold is_dir. rewrite Hdirs. exact Hd0.
Qed.

End PipelineEdges.

(** ** Properties of the command line *)

Section CliFacts.
Context `{Ext : Externals}.
Variable json_checkpoints : content → outcome (gmap string Checkpoint).
Variable json_experiments : content → outcome (list string).

Lemma json_load_world {A} (decode : content → outcome A) (path : string)
    (w : World) :
  fst (Cli.json_load decode path w) = w.
Proof.
  unfold Cli.json_load. destruct (files w !! path); [done|].
  by destruct (is_dir w path).
Qed.

(** A task other than [modernize] and [standardize] does nothing, yet it
    needs the checkpoint manifest: the script reads and decodes it, leaves
    the world as it was, and ends the way the loading ended. *)
Theorem main_unknown_task (args : Cli.Args) (environ : gmap string string)
    (w : World) :
  Cli.task args ≠ "modernize" →
  Cli.task args ≠ "standardize" →
  snd (Cli.main json_checkpoints json_experiments args environ w) =
    (w, match snd (Cli.json_load json_checkpoints (Cli.ckpts_path args) w) with
        | Ok _ => Ok tt
        | Raise e => Raise e
        end).
Proof.
  intros Hm Hs. unfold Cli.main. cbn [snd].
  apply String.eqb_neq in Hm, Hs. rewrite Hm, Hs.
  unfold mbind, M_bind, bind.
  pose proof (json_load_world json_checkpoints (Cli.ckpts_path args) w) as Hw.
  destruct (Cli.json_load json_checkpoints (Cli.ckpts_path args) w)
    as [w1 [ckpts|e]]; cbn [fst snd] in *; subst w1; reflexivity.
Qed.

(** The manifests are loaded before any experiment is processed, the
    checkpoint manifest first: when a manifest the task needs cannot be
    opened the script raises on that path and the world is untouched.  The
    manifest of the other task is never opened. *)
Theorem main_loads_manifests_first (args : Cli.Args)
    (environ : gmap string string) (w : World) :
  let missing p :=
    if is_dir w p then IsADirectoryError p else FileNotFoundError p in
  (files w !! Cli.ckpts_path args = None →
   snd (Cli.main json_checkpoints json_experiments args environ w)
     = (w, Raise (missing (Cli.ckpts_path args))))
  ∧ (∀ c ckpts,
       files w !! Cli.ckpts_path args = Some c →
       json_checkpoints c = Ok ckpts →
       (Cli.task args = "modernize" →
        files w !! Cli.dep_exps args = None →
        snd (Cli.main json_checkpoints json_experiments args environ w)
          = (w, Raise (missing (Cli.dep_exps args))))
       ∧ (Cli.task args = "standardize" →
          files w !! Cli.non_std_exps args = None →
          snd (Cli.main json_checkpoints json_experiments args environ w)
            = (w, Raise (missing (Cli.non_std_exps args))))
       ∧ (∀ c' keys,
            Cli.task args = "modernize" →
            files w !! Cli.dep_exps args = Some c' →
            json_experiments c' = Ok keys →
            snd (Cli.main json_checkpoints json_experiments args environ w)
              = modernize_exp_dir keys ckpts (Cli.save_dir args)
                  (Cli.refresh args) w)
       ∧ (∀ c' keys,
            Cli.task args = "standardize" →
            files w !! Cli.non_std_exps args = Some c' →
            json_experiments c' = Ok keys →
            snd (Cli.main json_checkpoints json_experiments args environ w)
              = standardize_exp_dir keys (Cli.save_dir args) ckpts
                  (Cli.refresh args) w)).
Proof.
  cbn zeta. unfold Cli.main. cbn [snd].
  unfold mbind, M_bind, bind, Cli.json_load. split.
  - intros ->. by destruct (is_dir w (Cli.ckpts_path args)).
  - intros c ckpts -> ->. cbn beta iota.
    assert (Hmod : Cli.task args = "modernize" →
                   String.eqb (Cli.task args) "modernize" = true)
      by (by intros ->).
    assert (Hstd : Cli.task args = "standardize" →
                   String.eqb (Cli.task args) "modernize" = false
                   ∧ String.eqb (Cli.task args) "standardize" = true)
      by (by intros ->).
    repeat split.
    + intros Ht Hf. rewrite (Hmod Ht), Hf.
      by destruct (is_dir w (Cli.dep_exps args)).
    + intros Ht Hf. destruct (Hstd Ht) as [-> ->]. rewrite Hf.
      by destruct (is_dir w (Cli.non_std_exps args)).
    + intros c' keys Ht Hf Hkeys. rewrite (Hmod Ht), Hf, Hkeys.
      by destruct (modernize_exp_dir keys ckpts (Cli.save_dir args)
                     (Cli.refresh args) w) as [w1 [[]|e]].
    + intros c' keys Ht Hf Hkeys. destruct (Hstd Ht) as [-> ->].
      rewrite Hf, Hkeys.
      by destruct (standardize_exp_dir keys (Cli.save_dir args) ckpts
                     (Cli.refresh args) w) as [w1 [[]|e]].
Qed.

End CliFacts.

(** ** The further properties on concrete runs *)

Section MoreConcreteRuns.

Lemma tboard_needs_one_event_file_witness :
  length (tfevents (one_file_world "run" demo_file) "elsewhere") ≠ 1%nat
  ∧ parse_tboard_files "elsewhere" (one_file_world "run" demo_file) =
      (one_file_world "run" demo_file,
       Raise (AssertionError "expected a single tensorboard file")).
Proof.
  split; [discriminate|].
  apply (tboard_needs_one_event_file (Ext := text_externals)
           "elsewhere" (one_file_world "run" demo_file)).
  discriminate.
Defined.


Lemma tboard_reported_count_witness :
  snd (decode (take 1000 (records long_file))) = None
  ∧ last (trace (fst (parse_tboard_files "run" (one_file_world "run" long_file))))
      = Some (Printed "parsed 1001 summaries").
Proof.
  split; [by vm_compute|].
  apply (tboard_reported_count (Ext := text_externals)
           "run" (one_file_world "run" long_file) long_file).
  - reflexivity.
  - by vm_compute.
Defined.

Lemma tboard_mixed_record_witness :
  snd (parse_tboard_files "run" (one_file_world "run" mixed_file))
    = Raise (KeyError "simple_value").
Proof.
  apply (tboard_mixed_record_raises (Ext := text_externals)
           "run" (one_file_world "run" mixed_file)
           mixed_file (take 1 (records mixed_file)) []
           "t5" 3 (scalar_value (Ext := text_externals) ("val/acc", "0.3"))
           [image_value]).
  - reflexivity.
  - reflexivity.
  - simpl. lia.
  - reflexivity.
  - by eexists.
  - repeat constructor; by eexists.
  - by constructor.
Defined.

Lemma tboard_concatenated_streams_witness :
  records demo_file = (records first_half ++ records second_half)%list
  ∧ snd (parse_tboard_files "run" (one_file_world "run" demo_file)) =
      Ok ([ "This log was generated from tensorboard file events.out.tfevents.1";
            "t1 step: 1, val/acc: 0.1" ]
          ++ tail [ "This log was generated from tensorboard file events.out.tfevents.5";
                    "t2 step: 2000, train/loss: 0.5";
                    "t3 step: 2001, val/acc: 0.2,val/iou: 0.3";
                    "t4 step: 4000, train/loss: 0.4" ])%list.
Proof.
  split; [reflexivity|].
  apply (tboard_concatenated_streams (Ext := text_externals) "run" "a" "b"
           (one_file_world "run" demo_file) (one_file_world "a" first_half)
           (one_file_world "b" second_half) demo_file first_half second_half).
  - reflexivity.
  - reflexivity.
  - reflexivity.
  - reflexivity.
  - reflexivity.
  - simpl. lia.
  - by vm_compute.
  - by vm_compute.
Defined.

Lemma old_log_failures_witness :
  files stopped_log_world !! std_config_path = Some legacy_config
  ∧ files stopped_log_world !! (std_log_path +:+ ".backup")
      = Some (take 2 legacy_log)
  ∧ (IndexError = AssertionError "expected single occurence of log tag"
     ∧ marker_count 100 (take 2 legacy_log) ≠ 1%nat
     ∨ IndexError = IndexError
       ∧ ∃ pos, single_marker_at 100 (take 2 legacy_log) pos
                ∧ take 2 legacy_log !! (pos + 1)%nat = None).
Proof.
  split; [by vm_compute|]. split; [by vm_compute|].
  apply (old_log_failures (Ext := text_externals)
           (std_log_path +:+ ".backup") std_config_path 100 stopped_log_world
           legacy_config (take 2 legacy_log));
    by vm_compute.
Defined.

Lemma old_log_reads_config_first_witness :
  files non_standard_world !! "nowhere/config.json" = None
  ∧ parse_old_log std_log_path "nowhere/config.json" 100 non_standard_world =
      (non_standard_world, Raise (FileNotFoundError "nowhere/config.json")).
Proof.
  split; [by vm_compute|].
  apply (old_log_reads_config_first (Ext := text_externals)
           std_log_path "nowhere/config.json" 100
           non_standard_world).
  by vm_compute.
Defined.

Lemma manifest_entry_required_witness :
  deprecated_ckpts !! "exp-z" = None
  ∧ modernize_exp_dir ["exp-z"; "exp-a"] deprecated_ckpts "data/saved" true
      deprecated_world = (deprecated_world, Raise (KeyError "exp-z"))
  ∧ (deprecated_ckpts !! "exp-a"
       = Some {| timestamp := Some run_dir; epoch := None |}
     ∧ standardize_exp_dir ["exp-a"] "data/saved" deprecated_ckpts false
         deprecated_world = (deprecated_world, Raise (KeyError "epoch"))).
Proof.
  split; [by vm_compute|]. split.
  - destruct (manifest_entry_required (Ext := text_externals) ["exp-a"]
                deprecated_ckpts "data/saved" true "exp-z" deprecated_world)
      as [Hnone _].
    destruct Hnone as [Hmodernize _]; [by vm_compute|]. exact Hmodernize.
  - split; [by vm_compute|].
    destruct (manifest_entry_required (Ext := text_externals) []
                deprecated_ckpts "data/saved" false "exp-a" deprecated_world)
      as (_ & _ & Hepoch).
    apply (Hepoch {| timestamp := Some run_dir; epoch := None |} run_dir);
      by vm_compute.
Defined.

Lemma modernize_writes_only_destinations_witness :
  let es := new_events deprecated_world
              (fst (modernize_exp_dir ["exp-a"] deprecated_ckpts "data/saved" true
                      deprecated_world)) in
  CopyFile (run_dir // "config.json")
           ("data/saved" // "models" // "exp-a" // "0801_120000" // "config.json")
    ∈ es
  ∧ CopyFile (run_dir // "model_best.pth")
             ("data/saved" // "models" // "exp-a" // "0801_120000"
                // "model_best.pth")
      ∈ es
  ∧ Forall (modernize_copy deprecated_ckpts "data/saved") es.
Proof.
  cbn zeta. split; [|split].
  - apply list_elem_of_lookup. exists 1%nat. by vm_compute.
  - apply list_elem_of_lookup. exists 3%nat. by vm_compute.
  - apply (modernize_writes_only_destinations (Ext := text_externals)
             ["exp-a"] deprecated_ckpts "data/saved" true deprecated_world).
Defined.

Lemma modernize_copies_are_exact_witness :
  snd (modernize_exp deprecated_ckpts "data/saved" false "exp-a" deprecated_world)
    = Ok tt
  ∧ files (fst (modernize_exp deprecated_ckpts "data/saved" false "exp-a"
                  deprecated_world))
      !! ("data/saved" // "models" // "exp-a" // split_last run_dir // "config.json")
    = files deprecated_world !! (run_dir // "config.json").
Proof.
  split; [by vm_compute|].
  destruct (modernize_copies_are_exact (Ext := text_externals)
           deprecated_ckpts "data/saved" false "exp-a"
              deprecated_world {| timestamp := Some run_dir; epoch := None |}
              run_dir) as [Hconfig _].
  - by vm_compute.
  - reflexivity.
  - by vm_compute.
  - apply Hconfig. right. by vm_compute.
Defined.

Lemma modernize_existing_log_witness :
  let step := modernize_exp deprecated_ckpts "data/saved" false "exp-a" in
  is_file logged_world
    ("data/saved" // "log" // "exp-a" // split_last run_dir // "info.log") = true
  ∧ length (tfevents logged_world run_dir) = 1%nat
  ∧ Forall copy_or_print (new_events logged_world (fst (step logged_world)))
  ∧ step (set_tfevents (fun _ => []) logged_world)
    = (set_tfevents (fun _ => []) (fst (step logged_world)),
       snd (step logged_world)).
Proof.
  cbn zeta. split; [by vm_compute|]. split; [reflexivity|].
  assert (Hfinal := modernize_existing_log_is_final (Ext := text_externals)
            deprecated_ckpts "data/saved" "exp-a" logged_world
            {| timestamp := Some run_dir; epoch := None |} run_dir).
  cbn zeta in Hfinal. destruct Hfinal as (Hevents & Hsame).
  - by vm_compute.
  - reflexivity.
  - by vm_compute.
  - split; [exact Hevents|]. exact (Hsame (fun _ => [])).
Defined.

Lemma modernize_logs_the_decoded_rows_witness :
  ∃ es0 log,
    snd (parse_tboard_files run_dir deprecated_world) = Ok log
    ∧ new_events deprecated_world
        (fst (modernize_exp deprecated_ckpts "data/saved" false "exp-a"
                deprecated_world)) =
        (es0 ++ SetupLogging ("data/saved" // "log" // "exp-a" // split_last run_dir)
           :: map (LoggerInfo "tboard-parser") log ++ [modernize_eval])%list
    ∧ Forall no_eval es0.
Proof.
  apply (modernize_logs_the_decoded_rows (Ext := text_externals)
           deprecated_ckpts "data/saved" false
           "exp-a" deprecated_world {| timestamp := Some run_dir; epoch := None |}
           run_dir).
  - by vm_compute.
  - reflexivity.
  - exact modernize_eval_called.
Defined.

Lemma modernize_failed_copy_witness :
  let r := modernize_exp deprecated_ckpts "data/saved" false "exp-a"
             sourceless_world in
  (snd r = Raise (FileNotFoundError (run_dir // "config.json"))
   ∨ snd r = Raise (IsADirectoryError (run_dir // "config.json")))
  ∧ is_dir (fst r) ("data/saved" // "models" // "exp-a" // split_last run_dir) = true
  ∧ files (fst r) = files sourceless_world.
Proof.
  apply (modernize_failed_copy_leaves_directory (Ext := text_externals)
           deprecated_ckpts "data/saved"
           false "exp-a" sourceless_world
           {| timestamp := Some run_dir; epoch := None |} run_dir);
    by vm_compute.
Defined.

Lemma standardize_asserts_first_witness :
  is_file backup_world std_log_path || is_dir backup_world std_log_path = false
  ∧ standardize_exp "data/saved" non_standard_ckpts true "exp-b" backup_world
      = (backup_world, Raise (AssertionError "log was not found")).
Proof.
  split; [by vm_compute|].
  refine (proj1 (standardize_asserts_first (Ext := text_externals) "data/saved"
                   non_standard_ckpts true "exp-b" backup_world
                   {| timestamp := Some "0802_130000"; epoch := Some 100 |}
                   "0802_130000" 100 _ _ _) _);
    by vm_compute.
Defined.

Lemma standardize_failure_leaves_backup_witness :
  marker_count 100 (legacy_log ++ legacy_log) ≠ 1%nat
  ∧ let w1 := add_trace [CopyFile std_log_path (std_log_path +:+ ".backup")]
                (set_files (<[std_log_path +:+ ".backup" := (legacy_log ++ legacy_log)%list]>
                              (files doubled_standard_world))
                   doubled_standard_world) in
    standardize_exp "data/saved" non_standard_ckpts false "exp-b"
      doubled_standard_world
      = (w1, Raise (AssertionError "expected single occurence of log tag"))
    ∧ files w1 !! std_log_path = Some (legacy_log ++ legacy_log)%list
    ∧ standardize_exp "data/saved" non_standard_ckpts false "exp-b" w1
      = (add_trace
           [Printed ("backup log found at " +:+ (std_log_path +:+ ".backup")
                     +:+ ", skipping...")] w1,
         Ok tt).
Proof.
  split; [by vm_compute|].
  apply (standardize_failure_leaves_backup (Ext := text_externals)
           "data/saved" non_standard_ckpts false
           "exp-b" doubled_standard_world
           {| timestamp := Some "0802_130000"; epoch := Some 100 |}
           "0802_130000" 100 (legacy_log ++ legacy_log)%list legacy_config);
    by vm_compute.
Defined.

Lemma standardize_step_in_full_witness :
  let r := standardize_exp "data/saved" non_standard_ckpts false "exp-b"
             non_standard_world in
  snd r = Ok tt
  ∧ files (fst r) !! (std_log_path +:+ ".backup") = Some legacy_log
  ∧ logged_rows "log-gen" (new_events non_standard_world (fst r)) =
      (provenance (std_log_path +:+ ".backup") ++ legacy_config
         ++ take 3 legacy_log)%list.
Proof.
  cbn zeta.
  assert (Hstep := standardize_step_in_full (Ext := text_externals) "data/saved"
            non_standard_ckpts false "exp-b" non_standard_world
            {| timestamp := Some "0802_130000"; epoch := Some 100 |}
            "0802_130000" 100 legacy_log legacy_config 1
            "2019-08-02 13:00:02 - trainer - INFO - Training took 03:12:55").
  destruct Hstep as (Hok & Hfiles & _ & Hevents).
  - by vm_compute.
  - reflexivity.
  - reflexivity.
  - by vm_compute.
  - by vm_compute.
  - by vm_compute.
  - by vm_compute.
  - by vm_compute.
  - by vm_compute.
  - by vm_compute.
  - exact legacy_log_marker.
  - by vm_compute.
  - split; [exact Hok|]. split.
    + rewrite Hfiles. by vm_compute.
    + rewrite Hevents. by vm_compute.
Defined.

Lemma standardize_exp_backs_up_witness :
  let r := standardize_exp "data/saved" non_standard_ckpts false "exp-b"
             non_standard_world in
  snd r = Ok tt
  ∧ files (fst r) !! (std_log_path +:+ ".backup")
      = files non_standard_world !! std_log_path
  ∧ files (fst r) !! std_log_path = None.
Proof.
  cbn zeta. split; [by vm_compute|].
  assert (Hstep := standardize_exp_backs_up (Ext := text_externals) "data/saved"
            non_standard_ckpts false "exp-b" non_standard_world
            {| timestamp := Some "0802_130000"; epoch := Some 100 |}
            "0802_130000" 100).
  destruct Hstep as (_ & Hbackup & Hlog & _).
  - by vm_compute.
  - reflexivity.
  - reflexivity.
  - by vm_compute.
  - by vm_compute.
  - by split.
Defined.

Lemma main_unknown_task_witness :
  snd (Cli.main load_ckpts load_keys evaluate_args ∅ manifest_world)
    = (manifest_world, Ok tt)
  ∧ snd (Cli.main load_ckpts load_keys evaluate_args ∅ sourceless_world)
    = (sourceless_world,
       Raise (FileNotFoundError "misc/server-checkpoints.json")).
Proof.
  split.
  - apply (main_unknown_task (Ext := text_externals)
           load_ckpts load_keys evaluate_args ∅ manifest_world);
      discriminate.
  - apply (main_unknown_task (Ext := text_externals)
           load_ckpts load_keys evaluate_args ∅ sourceless_world);
      discriminate.
Defined.

Lemma standardize_writes_only_logs_witness :
  let w' := fst (standardize_exp_dir ["exp-b"] "data/saved" non_standard_ckpts
                   true non_standard_world) in
  take 2 (new_events non_standard_world w')
    = [CopyFile std_log_path (std_log_path +:+ ".backup"); Unlink std_log_path]
  ∧ Forall (standardize_move non_standard_ckpts "data/saved")
      (new_events non_standard_world w')
  ∧ files w' !! std_config_path = files non_standard_world !! std_config_path
  ∧ files w' !! std_model_path = files non_standard_world !! std_model_path.
Proof.
  cbn zeta. split; [by vm_compute|].
  assert (Hframe := standardize_writes_only_logs (Ext := text_externals)
            ["exp-b"] "data/saved" non_standard_ckpts true non_standard_world).
  cbn zeta in Hframe. destruct Hframe as (Hmoves & Hconfig & Hmodel).
  split; [exact Hmoves|]. split.
  - exact (Hconfig "data/saved/models/exp-b/0802_130000").
  - exact (Hmodel "data/saved/models/exp-b/0802_130000" 100).
Defined.

Lemma main_loads_manifests_first_witness :
  files manifest_world !! Cli.ckpts_path Cli.default_args = Some ["ckpts"]
  ∧ files manifest_world !! Cli.dep_exps Cli.default_args = None
  ∧ snd (Cli.main load_ckpts load_keys Cli.default_args ∅ manifest_world)
    = (manifest_world,
       Raise (FileNotFoundError "misc/experiments-deprecated.json")).
Proof.
  split; [by vm_compute|]. split; [by vm_compute|].
  assert (Hmain := main_loads_manifests_first (Ext := text_externals)
            load_ckpts load_keys Cli.default_args ∅ manifest_world).
  cbn zeta in Hmain. destruct Hmain as (_ & Hloaded).
  destruct (Hloaded ["ckpts"] deprecated_ckpts) as (Hmodernize & _).
  - by vm_compute.
  - reflexivity.
  - apply Hmodernize; [reflexivity|by vm_compute].
Defined.

End MoreConcreteRuns.
